(** * tetris_balatro.py: the piece/grid simulation engine

    A shallow embedding of the engine part of [src/tetris_balatro.py]
    (classes [Tetromino] and [TetrisGame]) together with the properties
    its specification states about it.

    Conventions of the embedding.
    - Python [int]s are [Z]; loop counters produced by [range] and list
      positions are [nat].
    - The score is a Python number that becomes a [float] as soon as the
      score multiplier (initially [1.0], raised in steps of [0.5]) takes
      part in it.  All values involved are small dyadic rationals, on
      which double arithmetic is exact, so the score is a rational [Q]
      and two scores are compared with [==].
    - A method is a function from the object's state to an outcome and the
      state the object is left in; an uncaught exception keeps the
      mutations done before it.
    - Calls of [random] take their outcome as an explicit argument.
    - The two unbounded loops, in [hard_drop] and in the ghost piece of
      [draw_grid], run on fuel; running out of it is an outcome of its
      own, and enough fuel always exists. *)

From Stdlib Require Import ZArith QArith Qround Lia.
From stdpp Require Import base tactics option list sets strings.

Local Open Scope Z_scope.

(** ** Python list primitives *)

Module Py.

(** [l[i]] with a possibly negative index: positions are counted from the
    end, anything outside [-len, len) raises [IndexError] ([None]). *)
Definition index (len : nat) (i : Z) : option nat :=
  if 0 <=? i then
    if i <? Z.of_nat len then Some (Z.to_nat i) else None
  else
    if - Z.of_nat len <=? i then Some (Z.to_nat (Z.of_nat len + i)) else None.

Definition get {A} (l : list A) (i : Z) : option A :=
  n ← index (length l) i; l !! n.

(** [l[i] = v] *)
Definition set {A} (l : list A) (i : Z) (v : A) : option (list A) :=
  n ← index (length l) i; Some (<[n := v]> l).

(** [del l[i]] for an index coming from [range], hence not negative. *)
Definition del {A} (l : list A) (i : nat) : option (list A) :=
  if decide (i < length l)%nat then Some (delete i l) else None.

(** [range(n)], as positions. *)
Definition range (n : nat) : list nat := seq 0 n.

(** Truth value of an [int]. *)
Definition truthy (c : Z) : bool := negb (c =? 0).

(** [all(row)] *)
Definition all (row : list Z) : bool := forallb truthy row.

(** [zip] applied to the unpacked [rows]: the columns of [rows], cut at
    the shortest row; no rows give no columns. *)
Fixpoint zip_star {A} (rows : list (list A)) : list (list A) :=
  match rows with
  | [] => []
  | r :: rs =>
      match rs with
      | [] => (λ a, [a]) <$> r
      | _ :: _ => zip_with cons r (zip_star rs)
      end
  end.

(** [random.choice(l)]: [IndexError] on an empty sequence, otherwise the
    element at the position the generator picks; [r] is the generator's
    outcome, reduced to a position of [l]. *)
Definition choice {A} (r : nat) (l : list A) : option A :=
  match l with
  | [] => None
  | _ :: _ => l !! (r `mod` length l)%nat
  end.

(** [random.randint(0, n - 1)] for [n > 0]. *)
Definition randint_below (r : nat) (n : nat) : Z := Z.of_nat (r `mod` n)%nat.

(** [int(q)]: truncation towards zero. *)
Definition int (q : Q) : Z :=
  if Qle_bool 0 q then Qfloor q else Qceiling q.

End Py.

(** ** Constants *)

Definition GRID_WIDTH : Z := 10.
Definition GRID_HEIGHT : Z := 20.

Definition rgb : Type := Z * Z * Z.
Definition RED : rgb := (255, 0, 0).
Definition GREEN : rgb := (0, 255, 0).
Definition BLUE : rgb := (0, 0, 255).
Definition CYAN : rgb := (0, 255, 255).
Definition YELLOW : rgb := (255, 255, 0).
Definition ORANGE : rgb := (255, 165, 0).
Definition PURPLE : rgb := (128, 0, 128).

Definition SHAPES : list (list (list Z)) :=
  [ [[1; 1; 1; 1]];
    [[1; 1]; [1; 1]];
    [[0; 1; 0]; [1; 1; 1]];
    [[0; 1; 1]; [1; 1; 0]];
    [[1; 1; 0]; [0; 1; 1]];
    [[1; 0; 0]; [1; 1; 1]];
    [[0; 0; 1]; [1; 1; 1]] ].

Definition SHAPE_COLORS : list rgb :=
  [CYAN; YELLOW; PURPLE; GREEN; RED; BLUE; ORANGE].

Inductive GameState := MENU | PLAYING | SHOP | PACK_OPENING | GAME_OVER.

Inductive PackType := BASIC | PREMIUM | STRAIGHT.

(** ** class Tetromino *)

Module Tetromino.

Record t := mk {
  shape_index : Z;
  shape : list (list Z);
  color : rgb;
  x : Z;
  y : Z;
  rotation : Z;
  is_bomb : bool
}.

Definition set_shape_index (v : Z) (p : t) : t :=
  mk v (shape p) (color p) (x p) (y p) (rotation p) (is_bomb p).
Definition set_shape (v : list (list Z)) (p : t) : t :=
  mk (shape_index p) v (color p) (x p) (y p) (rotation p) (is_bomb p).
Definition set_color (v : rgb) (p : t) : t :=
  mk (shape_index p) (shape p) v (x p) (y p) (rotation p) (is_bomb p).
Definition set_x (v : Z) (p : t) : t :=
  mk (shape_index p) (shape p) (color p) v (y p) (rotation p) (is_bomb p).
Definition set_y (v : Z) (p : t) : t :=
  mk (shape_index p) (shape p) (color p) (x p) v (rotation p) (is_bomb p).
Definition set_is_bomb (v : bool) (p : t) : t :=
  mk (shape_index p) (shape p) (color p) (x p) (y p) (rotation p) v.

(** [Tetromino(shape_index, x, y)]; the two table lookups raise
    [IndexError] outside the catalog.  The attribute [is_bomb] is assigned
    by the caller right after construction and starts as [false] here.
    [self.shape] refers to the catalog's own list, which is harmless:
    [rotate] builds a new list and nothing updates a shape in place. *)
Definition init (shape_index x y : Z) : option t :=
  sh ← Py.get SHAPES shape_index;
  col ← Py.get SHAPE_COLORS shape_index;
  Some (mk shape_index sh col x y 0 false).

(** The new value of [self.shape]: the rows in reverse order ([shape[::-1]]),
    unpacked into [zip], each column made a list. *)
Definition rotate_shape (sh : list (list Z)) : list (list Z) :=
  Py.zip_star (reverse sh).

Definition rotate (p : t) : t := set_shape (rotate_shape (shape p)) p.

(** The cells of one row of the shape, from column [col_idx] on. *)
Fixpoint row_cells (px py : Z) (col_idx : Z) (row : list Z) : list (Z * Z) :=
  match row with
  | [] => []
  | cell :: row' =>
      (if Py.truthy cell then [(px + col_idx, py)] else [])
      ++ row_cells px py (col_idx + 1) row'
  end.

Fixpoint shape_cells (px py : Z) (row_idx : Z) (sh : list (list Z))
  : list (Z * Z) :=
  match sh with
  | [] => []
  | row :: sh' =>
      row_cells px (py + row_idx) 0 row ++ shape_cells px py (row_idx + 1) sh'
  end.

Definition get_cells (p : t) : list (Z * Z) :=
  shape_cells (x p) (y p) 0 (shape p).

End Tetromino.

(** ** The upgrade dictionary

    [self.upgrades] is a dictionary with five fixed keys, never extended:
    a record with one field per key. *)

Module Upgrades.

Record t := mk {
  score_multiplier : Q;
  extra_lines : Z;
  hold_piece : bool;
  ghost_piece : bool;
  bomb_piece : bool
}.

Definition set_score_multiplier (v : Q) (u : t) : t :=
  mk v (extra_lines u) (hold_piece u) (ghost_piece u) (bomb_piece u).
Definition set_extra_lines (v : Z) (u : t) : t :=
  mk (score_multiplier u) v (hold_piece u) (ghost_piece u) (bomb_piece u).
Definition set_hold_piece (v : bool) (u : t) : t :=
  mk (score_multiplier u) (extra_lines u) v (ghost_piece u) (bomb_piece u).
Definition set_ghost_piece (v : bool) (u : t) : t :=
  mk (score_multiplier u) (extra_lines u) (hold_piece u) v (bomb_piece u).
Definition set_bomb_piece (v : bool) (u : t) : t :=
  mk (score_multiplier u) (extra_lines u) (hold_piece u) (ghost_piece u) v.

End Upgrades.

(** ** class TetrisGame: the attributes

    The display attributes (screen, clock, fonts) are left out; every
    other attribute assigned by [reset_game] is a field. *)

Module TetrisGame.

Record t := mk {
  grid : list (list Z);
  current_piece : option Tetromino.t;
  next_piece_index : Z;
  score : Q;
  lines_cleared : Z;
  level : Z;
  fall_time : Z;
  fall_speed : Z;
  game_over : bool;
  state : GameState;
  round_number : Z;
  round_target : Z;
  money : Z;
  piece_deck : list Z;
  jokers : list string;
  upgrades : Upgrades.t;
  held_piece : option Z;
  can_hold : bool;
  pack_contents : list Z;
  pack_opening_animation_time : Z;
  pack_type : option PackType;
  menu_animation_time : Q
}.

Definition set_grid (v : list (list Z)) (s : t) : t :=
  mk v (current_piece s) (next_piece_index s) (score s) (lines_cleared s)
     (level s) (fall_time s) (fall_speed s) (game_over s) (state s)
     (round_number s) (round_target s) (money s) (piece_deck s) (jokers s)
     (upgrades s) (held_piece s) (can_hold s) (pack_contents s)
     (pack_opening_animation_time s) (pack_type s) (menu_animation_time s).
Definition set_current_piece (v : option Tetromino.t) (s : t) : t :=
  mk (grid s) v (next_piece_index s) (score s) (lines_cleared s) (level s)
     (fall_time s) (fall_speed s) (game_over s) (state s) (round_number s)
     (round_target s) (money s) (piece_deck s) (jokers s) (upgrades s)
     (held_piece s) (can_hold s) (pack_contents s)
     (pack_opening_animation_time s) (pack_type s) (menu_animation_time s).
Definition set_next_piece_index (v : Z) (s : t) : t :=
  mk (grid s) (current_piece s) v (score s) (lines_cleared s) (level s)
     (fall_time s) (fall_speed s) (game_over s) (state s) (round_number s)
     (round_target s) (money s) (piece_deck s) (jokers s) (upgrades s)
     (held_piece s) (can_hold s) (pack_contents s)
     (pack_opening_animation_time s) (pack_type s) (menu_animation_time s).
Definition set_score (v : Q) (s : t) : t :=
  mk (grid s) (current_piece s) (next_piece_index s) v (lines_cleared s)
     (level s) (fall_time s) (fall_speed s) (game_over s) (state s)
     (round_number s) (round_target s) (money s) (piece_deck s) (jokers s)
     (upgrades s) (held_piece s) (can_hold s) (pack_contents s)
     (pack_opening_animation_time s) (pack_type s) (menu_animation_time s).
Definition set_lines_cleared (v : Z) (s : t) : t :=
  mk (grid s) (current_piece s) (next_piece_index s) (score s) v (level s)
     (fall_time s) (fall_speed s) (game_over s) (state s) (round_number s)
     (round_target s) (money s) (piece_deck s) (jokers s) (upgrades s)
     (held_piece s) (can_hold s) (pack_contents s)
     (pack_opening_animation_time s) (pack_type s) (menu_animation_time s).
Definition set_level (v : Z) (s : t) : t :=
  mk (grid s) (current_piece s) (next_piece_index s) (score s)
     (lines_cleared s) v (fall_time s) (fall_speed s) (game_over s) (state
     s) (round_number s) (round_target s) (money s) (piece_deck s) (jokers
     s) (upgrades s) (held_piece s) (can_hold s) (pack_contents s)
     (pack_opening_animation_time s) (pack_type s) (menu_animation_time s).
Definition set_fall_time (v : Z) (s : t) : t :=
  mk (grid s) (current_piece s) (next_piece_index s) (score s)
     (lines_cleared s) (level s) v (fall_speed s) (game_over s) (state s)
     (round_number s) (round_target s) (money s) (piece_deck s) (jokers s)
     (upgrades s) (held_piece s) (can_hold s) (pack_contents s)
     (pack_opening_animation_time s) (pack_type s) (menu_animation_time s).
Definition set_fall_speed (v : Z) (s : t) : t :=
  mk (grid s) (current_piece s) (next_piece_index s) (score s)
     (lines_cleared s) (level s) (fall_time s) v (game_over s) (state s)
     (round_number s) (round_target s) (money s) (piece_deck s) (jokers s)
     (upgrades s) (held_piece s) (can_hold s) (pack_contents s)
     (pack_opening_animation_time s) (pack_type s) (menu_animation_time s).
Definition set_game_over (v : bool) (s : t) : t :=
  mk (grid s) (current_piece s) (next_piece_index s) (score s)
     (lines_cleared s) (level s) (fall_time s) (fall_speed s) v (state s)
     (round_number s) (round_target s) (money s) (piece_deck s) (jokers s)
     (upgrades s) (held_piece s) (can_hold s) (pack_contents s)
     (pack_opening_animation_time s) (pack_type s) (menu_animation_time s).
Definition set_state (v : GameState) (s : t) : t :=
  mk (grid s) (current_piece s) (next_piece_index s) (score s)
     (lines_cleared s) (level s) (fall_time s) (fall_speed s) (game_over s)
     v (round_number s) (round_target s) (money s) (piece_deck s) (jokers s)
     (upgrades s) (held_piece s) (can_hold s) (pack_contents s)
     (pack_opening_animation_time s) (pack_type s) (menu_animation_time s).
Definition set_round_number (v : Z) (s : t) : t :=
  mk (grid s) (current_piece s) (next_piece_index s) (score s)
     (lines_cleared s) (level s) (fall_time s) (fall_speed s) (game_over s)
     (state s) v (round_target s) (money s) (piece_deck s) (jokers s)
     (upgrades s) (held_piece s) (can_hold s) (pack_contents s)
     (pack_opening_animation_time s) (pack_type s) (menu_animation_time s).
Definition set_round_target (v : Z) (s : t) : t :=
  mk (grid s) (current_piece s) (next_piece_index s) (score s)
     (lines_cleared s) (level s) (fall_time s) (fall_speed s) (game_over s)
     (state s) (round_number s) v (money s) (piece_deck s) (jokers s)
     (upgrades s) (held_piece s) (can_hold s) (pack_contents s)
     (pack_opening_animation_time s) (pack_type s) (menu_animation_time s).
Definition set_money (v : Z) (s : t) : t :=
  mk (grid s) (current_piece s) (next_piece_index s) (score s)
     (lines_cleared s) (level s) (fall_time s) (fall_speed s) (game_over s)
     (state s) (round_number s) (round_target s) v (piece_deck s) (jokers s)
     (upgrades s) (held_piece s) (can_hold s) (pack_contents s)
     (pack_opening_animation_time s) (pack_type s) (menu_animation_time s).
Definition set_piece_deck (v : list Z) (s : t) : t :=
  mk (grid s) (current_piece s) (next_piece_index s) (score s)
     (lines_cleared s) (level s) (fall_time s) (fall_speed s) (game_over s)
     (state s) (round_number s) (round_target s) (money s) v (jokers s)
     (upgrades s) (held_piece s) (can_hold s) (pack_contents s)
     (pack_opening_animation_time s) (pack_type s) (menu_animation_time s).
Definition set_jokers (v : list string) (s : t) : t :=
  mk (grid s) (current_piece s) (next_piece_index s) (score s)
     (lines_cleared s) (level s) (fall_time s) (fall_speed s) (game_over s)
     (state s) (round_number s) (round_target s) (money s) (piece_deck s) v
     (upgrades s) (held_piece s) (can_hold s) (pack_contents s)
     (pack_opening_animation_time s) (pack_type s) (menu_animation_time s).
Definition set_upgrades (v : Upgrades.t) (s : t) : t :=
  mk (grid s) (current_piece s) (next_piece_index s) (score s)
     (lines_cleared s) (level s) (fall_time s) (fall_speed s) (game_over s)
     (state s) (round_number s) (round_target s) (money s) (piece_deck s)
     (jokers s) v (held_piece s) (can_hold s) (pack_contents s)
     (pack_opening_animation_time s) (pack_type s) (menu_animation_time s).
Definition set_held_piece (v : option Z) (s : t) : t :=
  mk (grid s) (current_piece s) (next_piece_index s) (score s)
     (lines_cleared s) (level s) (fall_time s) (fall_speed s) (game_over s)
     (state s) (round_number s) (round_target s) (money s) (piece_deck s)
     (jokers s) (upgrades s) v (can_hold s) (pack_contents s)
     (pack_opening_animation_time s) (pack_type s) (menu_animation_time s).
Definition set_can_hold (v : bool) (s : t) : t :=
  mk (grid s) (current_piece s) (next_piece_index s) (score s)
     (lines_cleared s) (level s) (fall_time s) (fall_speed s) (game_over s)
     (state s) (round_number s) (round_target s) (money s) (piece_deck s)
     (jokers s) (upgrades s) (held_piece s) v (pack_contents s)
     (pack_opening_animation_time s) (pack_type s) (menu_animation_time s).
Definition set_pack_contents (v : list Z) (s : t) : t :=
  mk (grid s) (current_piece s) (next_piece_index s) (score s)
     (lines_cleared s) (level s) (fall_time s) (fall_speed s) (game_over s)
     (state s) (round_number s) (round_target s) (money s) (piece_deck s)
     (jokers s) (upgrades s) (held_piece s) (can_hold s) v
     (pack_opening_animation_time s) (pack_type s) (menu_animation_time s).
Definition set_pack_opening_animation_time (v : Z) (s : t) : t :=
  mk (grid s) (current_piece s) (next_piece_index s) (score s)
     (lines_cleared s) (level s) (fall_time s) (fall_speed s) (game_over s)
     (state s) (round_number s) (round_target s) (money s) (piece_deck s)
     (jokers s) (upgrades s) (held_piece s) (can_hold s) (pack_contents s) v
     (pack_type s) (menu_animation_time s).
Definition set_pack_type (v : option PackType) (s : t) : t :=
  mk (grid s) (current_piece s) (next_piece_index s) (score s)
     (lines_cleared s) (level s) (fall_time s) (fall_speed s) (game_over s)
     (state s) (round_number s) (round_target s) (money s) (piece_deck s)
     (jokers s) (upgrades s) (held_piece s) (can_hold s) (pack_contents s)
     (pack_opening_animation_time s) v (menu_animation_time s).
Definition set_menu_animation_time (v : Q) (s : t) : t :=
  mk (grid s) (current_piece s) (next_piece_index s) (score s)
     (lines_cleared s) (level s) (fall_time s) (fall_speed s) (game_over s)
     (state s) (round_number s) (round_target s) (money s) (piece_deck s)
     (jokers s) (upgrades s) (held_piece s) (can_hold s) (pack_contents s)
     (pack_opening_animation_time s) (pack_type s) v.

(** *** Methods as state transformers

    A method call ends in a return value or is ended by an uncaught
    exception; either way the object is left in some state.  [OutOfFuel]
    is not a Python outcome: it marks a [while] loop cut off by the bound
    the model puts on its iterations. *)

Inductive stop_reason := IndexError | AttributeError | OutOfFuel.

Inductive res (A : Type) :=
  | Ret (a : A)
  | Stop (why : stop_reason).
Arguments Ret {A} a.
Arguments Stop {A} why.

Definition M (A : Type) : Type := t → res A * t.

#[global] Instance M_ret : MRet M := λ A a s, (Ret a, s).
#[global] Instance M_bind : MBind M := λ A B f m s,
  match m s with
  | (Ret a, s') => f a s'
  | (Stop e, s') => (Stop e, s')
  end.

Definition raise {A} (e : stop_reason) : M A := λ s, (Stop e, s).
Definition gets {A} (f : t → A) : M A := λ s, (Ret (f s), s).
Definition modify (f : t → t) : M unit := λ s, (Ret tt, f s).

(** A list access that raises [IndexError] when it is out of range. *)
Definition lift {A} (o : option A) : M A :=
  match o with
  | Some a => mret a
  | None => raise IndexError
  end.

(** An assignment to an attribute of [self.current_piece]. *)
Definition modify_piece (f : Tetromino.t → Tetromino.t) : M unit :=
  modify (λ s, set_current_piece (f <$> current_piece s) s).

(** [for a in l: body(a)] *)
Fixpoint for_each {A} (l : list A) (body : A → M unit) : M unit :=
  match l with
  | [] => mret tt
  | a :: l' => body a;; for_each l' body
  end.

(** *** get_random_piece_from_deck *)

Definition get_random_piece_from_deck (r : nat) : M Z :=
  deck ← gets piece_deck;
  match deck with
  | [] => modify (set_piece_deck (Z.of_nat <$> Py.range (length SHAPES)))
  | _ :: _ => mret tt
  end;;
  deck ← gets piece_deck;
  lift (Py.choice r deck).

(** *** check_collision

    The loop over the cells of the piece, with its two early returns.
    [self.grid[new_y][new_x]] is only evaluated for [new_y >= 0]. *)

Fixpoint collides (g : list (list Z)) (dx dy : Z) (cells : list (Z * Z))
  : option bool :=
  match cells with
  | [] => Some false
  | (x, y) :: cells' =>
      let new_x := x + dx in
      let new_y := y + dy in
      if (new_x <? 0) || (new_x >=? GRID_WIDTH) || (new_y >=? GRID_HEIGHT)
      then Some true
      else if new_y >=? 0 then
        row ← Py.get g new_y;
        c ← Py.get row new_x;
        if Py.truthy c then Some true else collides g dx dy cells'
      else collides g dx dy cells'
  end.

Definition check_collision (dx dy : Z) (piece : option Tetromino.t) : M bool :=
  piece ← match piece with
          | None => gets current_piece
          | Some p => mret (Some p)
          end;
  match piece with
  | None => mret false
  | Some p =>
      g ← gets grid;
      lift (collides g dx dy (Tetromino.get_cells p))
  end.

(** *** spawn_piece

    [r] is the draw of the next piece; [coin] is the outcome of
    [random.random() < 0.1], only looked at when bombs are enabled. *)

Definition spawn_piece (r : nat) (coin : bool) : M unit :=
  shape_index ← gets next_piece_index;
  nxt ← get_random_piece_from_deck r;
  modify (set_next_piece_index nxt);;
  up ← gets upgrades;
  (if Upgrades.bomb_piece up && coin then
     p ← lift (Tetromino.init shape_index (GRID_WIDTH `div` 2 - 1) 0);
     modify (set_current_piece (Some (Tetromino.set_is_bomb true p)))
   else
     p ← lift (Tetromino.init shape_index (GRID_WIDTH `div` 2 - 1) 0);
     modify (set_current_piece (Some (Tetromino.set_is_bomb false p))));;
  modify (set_can_hold true);;
  c ← check_collision 0 0 None;
  if c : bool then
    modify (set_game_over true);;
    modify (set_state GAME_OVER)
  else mret tt.

(** *** explode_bomb

    [self.grid[y][x] = v]: the row object [self.grid[y]] is fetched, then
    updated in place.  The rows of the grid are distinct objects (built by
    a comprehension, replaced by fresh lists), so no other row changes. *)

Definition grid_assign (y x v : Z) : M unit :=
  g ← gets grid;
  row ← lift (Py.get g y);
  row' ← lift (Py.set row x v);
  g' ← lift (Py.set g y row');
  modify (set_grid g').

Definition explode_bomb (bomb_x bomb_y : Z) : M unit :=
  for_each [-1; 0; 1] (λ dy,
    for_each [-1; 0; 1] (λ dx,
      let x := bomb_x + dx in
      let y := bomb_y + dy in
      if (0 <=? x) && (x <? GRID_WIDTH) && (0 <=? y) && (y <? GRID_HEIGHT)
      then grid_assign y x 0
      else mret tt));;
  up ← gets upgrades;
  modify (λ s, set_score (score s + 200 * Upgrades.score_multiplier up)%Q s).

(** *** clear_lines *)

(** The scan [for y in range(GRID_HEIGHT): if all(self.grid[y]): ...],
    which collects [lines_to_clear] in increasing order. *)
Fixpoint full_rows_among (g : list (list Z)) (ys : list nat)
  : option (list nat) :=
  match ys with
  | [] => Some []
  | y :: ys' =>
      row ← g !! y;
      rest ← full_rows_among g ys';
      Some (if Py.all row then y :: rest else rest)
  end.

(** The joker loop on the integer [base_score]. *)
Fixpoint apply_jokers (js : list string) (lines_cleared base_score : Z) : Z :=
  match js with
  | [] => base_score
  | joker :: js' =>
      apply_jokers js' lines_cleared
        (if String.eqb joker "Double Points" then base_score * 2
         else if String.eqb joker "Line Bonus"
              then base_score + 50 * lines_cleared
              else base_score)
  end.

(** One turn of the removal loop: [del self.grid[y]], then a fresh empty
    row inserted at position 0. *)
Definition delete_line (y : nat) : M unit :=
  g ← gets grid;
  g' ← lift (Py.del g y);
  modify (set_grid (replicate (Z.to_nat GRID_WIDTH) 0 :: g')).

Definition clear_lines : M unit :=
  g ← gets grid;
  lines_to_clear ← lift (full_rows_among g (Py.range (Z.to_nat GRID_HEIGHT)));
  match lines_to_clear with
  | [] => mret tt
  | _ :: _ =>
      for_each lines_to_clear delete_line;;
      let cleared := Z.of_nat (length lines_to_clear) in
      points ← lift (Py.get [0; 100; 300; 500; 800] cleared);
      lvl ← gets level;
      js ← gets jokers;
      let base_score := apply_jokers js cleared (points * lvl) in
      up ← gets upgrades;
      let base_score := (inject_Z base_score * Upgrades.score_multiplier up)%Q in
      let base_score :=
        (base_score + inject_Z (Upgrades.extra_lines up * 100))%Q in
      modify (λ s, set_score (score s + inject_Z (Py.int base_score))%Q s);;
      modify (λ s, set_lines_cleared (lines_cleared s + cleared) s);;
      total ← gets lines_cleared;
      lvl ← gets level;
      if total >=? lvl * 10 then
        modify (set_level (lvl + 1));;
        modify (λ s, set_fall_speed (Z.max 100 (fall_speed s - 50)) s)
      else mret tt
  end.

(** *** lock_piece

    [settle_piece] is the first half of the method (the writes of the
    piece's cells and the bomb effect), up to the call of [clear_lines].
    With no current piece the attribute access on [None] raises. *)

Definition settle_piece : M unit :=
  cp ← gets current_piece;
  match cp with
  | None => raise AttributeError
  | Some p =>
      for_each (Tetromino.get_cells p) (λ '(x, y),
        if y >=? 0 then grid_assign y x (Tetromino.shape_index p + 1)
        else mret tt);;
      if Tetromino.is_bomb p
      then explode_bomb (Tetromino.x p) (Tetromino.y p)
      else mret tt
  end.

Definition lock_piece (r : nat) (coin : bool) : M unit :=
  settle_piece;;
  clear_lines;;
  spawn_piece r coin.

(** *** move *)

Definition move (dx dy : Z) : M bool :=
  cp ← gets current_piece;
  match cp with
  | Some p =>
      c ← check_collision dx dy None;
      if negb c then
        modify (set_current_piece
                  (Some (Tetromino.set_y (Tetromino.y p + dy)
                           (Tetromino.set_x (Tetromino.x p + dx) p))));;
        mret true
      else mret false
  | None => mret false
  end.

(** *** rotate_piece *)

(** The wall-kick loop; [true] when it left the method through [return]. *)
Fixpoint try_kicks (kicks : list Z) : M bool :=
  match kicks with
  | [] => mret false
  | kick_x :: kicks' =>
      c ← check_collision kick_x 0 None;
      if negb c then
        modify_piece (λ p, Tetromino.set_x (Tetromino.x p + kick_x) p);;
        mret true
      else try_kicks kicks'
  end.

Definition rotate_piece : M unit :=
  cp ← gets current_piece;
  match cp with
  | None => mret tt
  | Some p =>
      let original_shape := Tetromino.shape p in
      modify (set_current_piece (Some (Tetromino.rotate p)));;
      c ← check_collision 0 0 None;
      if c : bool then
        returned ← try_kicks [1; -1; 2; -2];
        if returned : bool then mret tt
        else modify_piece (Tetromino.set_shape original_shape)
      else mret tt
  end.

(** *** hold_piece

    The tuple assignment evaluates its right-hand side first, then assigns
    [self.held_piece] and [self.current_piece.shape_index] in that order. *)

Definition hold_piece (r : nat) (coin : bool) : M unit :=
  cp ← gets current_piece;
  match cp with
  | None => mret tt
  | Some p =>
      up ← gets upgrades;
      ch ← gets can_hold;
      if Upgrades.hold_piece up && ch then
        held ← gets held_piece;
        match held with
        | None =>
            modify (set_held_piece (Some (Tetromino.shape_index p)));;
            spawn_piece r coin
        | Some h =>
            modify (set_held_piece (Some (Tetromino.shape_index p)));;
            modify_piece (Tetromino.set_shape_index h);;
            sh ← lift (Py.get SHAPES h);
            modify_piece (Tetromino.set_shape sh);;
            col ← lift (Py.get SHAPE_COLORS h);
            modify_piece (Tetromino.set_color col);;
            modify_piece (Tetromino.set_x (GRID_WIDTH `div` 2 - 1));;
            modify_piece (Tetromino.set_y 0)
        end;;
        modify (set_can_hold false)
      else mret tt
  end.

(** *** hard_drop

    [while self.move(0, 1): drop_distance += 1], cut off after [fuel]
    iterations. *)

Fixpoint drop_loop (fuel : nat) (drop_distance : Z) : M Z :=
  match fuel with
  | O => raise OutOfFuel
  | S fuel' =>
      moved ← move 0 1;
      if moved : bool then drop_loop fuel' (drop_distance + 1)
      else mret drop_distance
  end.

Definition hard_drop (fuel : nat) (r : nat) (coin : bool) : M unit :=
  cp ← gets current_piece;
  match cp with
  | None => mret tt
  | Some _ =>
      drop_distance ← drop_loop fuel 0;
      modify (λ s, set_score (score s + inject_Z (drop_distance * 2))%Q s);;
      lock_piece r coin
  end.

(** *** update *)

Definition update (dt : Z) : M unit :=
  st ← gets state;
  match st with
  | PLAYING =>
      cp ← gets current_piece;
      match cp with
      | Some _ =>
          modify (λ s, set_fall_time (fall_time s + dt) s);;
          ft ← gets fall_time;
          fs ← gets fall_speed;
          if ft >=? fs then
            move 0 1;;
            modify (set_fall_time 0)
          else mret tt
      | None => mret tt
      end;;
      sc ← gets score;
      target ← gets round_target;
      if Qle_bool (inject_Z target) sc then
        modify (λ s, set_money (money s + (100 + round_number s * 50)) s);;
        modify (set_state SHOP)
      else mret tt
  | PACK_OPENING =>
      modify (λ s, set_pack_opening_animation_time
                     (pack_opening_animation_time s + dt) s)
  | MENU =>
      modify (λ s, set_menu_animation_time
                     (menu_animation_time s + inject_Z dt)%Q s)
  | _ => mret tt
  end.

(** *** reset_game, the start of a game and start_next_round *)

Definition empty_grid : list (list Z) :=
  replicate (Z.to_nat GRID_HEIGHT) (replicate (Z.to_nat GRID_WIDTH) 0).

Definition default_upgrades : Upgrades.t :=
  Upgrades.mk 1 0 false false false.

(** [next_piece_index] is [None] only between two statements of this
    method; the field holds the index drawn. *)
Definition reset_game (r : nat) : M unit :=
  modify (set_grid empty_grid);;
  modify (set_current_piece None);;
  modify (set_score 0);;
  modify (set_lines_cleared 0);;
  modify (set_level 1);;
  modify (set_fall_time 0);;
  modify (set_fall_speed 500);;
  modify (set_game_over false);;
  modify (set_state MENU);;
  modify (set_round_number 1);;
  modify (set_round_target 1000);;
  modify (set_money 500);;
  modify (set_piece_deck (Z.of_nat <$> Py.range (length SHAPES)));;
  nxt ← get_random_piece_from_deck r;
  modify (set_next_piece_index nxt);;
  modify (set_jokers []);;
  modify (set_upgrades default_upgrades);;
  modify (set_held_piece None);;
  modify (set_can_hold true);;
  modify (set_pack_contents []);;
  modify (set_pack_opening_animation_time 0);;
  modify (set_pack_type None);;
  modify (set_menu_animation_time 0).

(** The body of the SPACE key in the menu. *)
Definition start_game (r1 r2 : nat) (coin : bool) : M unit :=
  modify (set_grid empty_grid);;
  nxt ← get_random_piece_from_deck r1;
  modify (set_next_piece_index nxt);;
  spawn_piece r2 coin;;
  modify (set_state PLAYING).

Definition start_next_round (r1 r2 : nat) (coin : bool) : M unit :=
  modify (λ s, set_round_number (round_number s + 1) s);;
  modify (λ s, set_round_target (1000 * round_number s) s);;
  modify (set_score 0);;
  modify (set_lines_cleared 0);;
  modify (set_level 1);;
  modify (set_fall_speed 500);;
  js ← gets jokers;
  (if existsb (String.eqb "Level Boost") js then
     modify (λ s, set_level (level s + 2) s);;
     modify (λ s, set_fall_speed (Z.max 100 (fall_speed s - 100)) s)
   else mret tt);;
  modify (set_grid empty_grid);;
  nxt ← get_random_piece_from_deck r1;
  modify (set_next_piece_index nxt);;
  spawn_piece r2 coin;;
  modify (set_state PLAYING).

(** *** The shop and the pack screen

    Only what a click does to the session is kept of [draw_shop],
    [open_pack] and [draw_pack_opening]; button geometry and animation are
    display matters. *)

Inductive UpgradeKey :=
  ScoreMultiplier | ExtraLines | HoldPiece | GhostPiece | BombPiece.

Definition upgrade_cost (k : UpgradeKey) : Z :=
  match k with
  | ScoreMultiplier => 200
  | ExtraLines => 150
  | HoldPiece => 300
  | GhostPiece => 250
  | BombPiece => 400
  end.

(** The three boolean upgrades show no button once owned. *)
Definition upgrade_owned (k : UpgradeKey) (up : Upgrades.t) : bool :=
  match k with
  | HoldPiece => Upgrades.hold_piece up
  | GhostPiece => Upgrades.ghost_piece up
  | BombPiece => Upgrades.bomb_piece up
  | _ => false
  end.

Definition apply_upgrade (k : UpgradeKey) (up : Upgrades.t) : Upgrades.t :=
  match k with
  | ScoreMultiplier =>
      Upgrades.set_score_multiplier (Upgrades.score_multiplier up + (1 # 2))%Q up
  | ExtraLines => Upgrades.set_extra_lines (Upgrades.extra_lines up + 1) up
  | HoldPiece => Upgrades.set_hold_piece true up
  | GhostPiece => Upgrades.set_ghost_piece true up
  | BombPiece => Upgrades.set_bomb_piece true up
  end.

Definition click_upgrade (k : UpgradeKey) : M unit :=
  up ← gets upgrades;
  if upgrade_owned k up then mret tt
  else
    m ← gets money;
    if m >=? upgrade_cost k then
      modify (set_money (m - upgrade_cost k));;
      modify (set_upgrades (apply_upgrade k up))
    else mret tt.

Inductive Joker := DoublePoints | LineBonus | LevelBoost.

Definition joker_name (j : Joker) : string :=
  match j with
  | DoublePoints => "Double Points"
  | LineBonus => "Line Bonus"
  | LevelBoost => "Level Boost"
  end.

Definition joker_cost (j : Joker) : Z :=
  match j with
  | DoublePoints => 500
  | LineBonus => 300
  | LevelBoost => 400
  end.

Definition click_joker (j : Joker) : M unit :=
  js ← gets jokers;
  if existsb (String.eqb (joker_name j)) js then mret tt
  else
    m ← gets money;
    if m >=? joker_cost j then
      modify (set_money (m - joker_cost j));;
      modify (set_jokers (js ++ [joker_name j]))
    else mret tt.

Definition pack_cost (pt : PackType) : Z :=
  match pt with
  | BASIC => 100
  | PREMIUM => 250
  | STRAIGHT => 200
  end.

Definition append_card (c : Z) : M unit :=
  modify (λ s, set_pack_contents (pack_contents s ++ [c]) s).

(** [draws i] and [coins i] are the outcomes of [random.randint] and of
    [random.random() < 0.4] in iteration [i]. *)
Definition open_pack (pt : PackType) (draws : nat → nat) (coins : nat → bool)
  : M unit :=
  modify (set_pack_type (Some pt));;
  modify (set_pack_contents []);;
  modify (set_pack_opening_animation_time 0);;
  match pt with
  | BASIC =>
      for_each (Py.range 3) (λ i,
        append_card (Py.randint_below (draws i) (length SHAPES)))
  | PREMIUM =>
      for_each (Py.range 5) (λ i,
        if coins i then append_card 0
        else append_card (Py.randint_below (draws i) (length SHAPES)))
  | STRAIGHT => for_each (Py.range 4) (λ _, append_card 0)
  end;;
  modify (set_state PACK_OPENING).

Definition click_pack (pt : PackType) (draws : nat → nat) (coins : nat → bool)
  : M unit :=
  m ← gets money;
  if m >=? pack_cost pt then
    modify (set_money (m - pack_cost pt));;
    open_pack pt draws coins
  else mret tt.

Definition click_add_to_deck : M unit :=
  modify (λ s, set_piece_deck (piece_deck s ++ pack_contents s) s);;
  modify (set_state SHOP).

(** The ESC key in the shop and on the pack screen. *)
Definition escape : M unit :=
  st ← gets state;
  match st with
  | SHOP => modify (set_state PLAYING)
  | PACK_OPENING => modify (set_state SHOP)
  | _ => mret tt
  end.

(** *** The ghost piece of draw_grid

    The part of [draw_grid] that computes where the ghost piece is drawn:
    a fresh [Tetromino] with the current piece's index, origin and shape
    is moved down while [check_collision(0, 1, ghost_piece)] is false.
    The loop is cut off after [fuel] iterations.  The result is [None]
    when nothing is drawn. *)

Fixpoint ghost_loop (fuel : nat) (ghost_piece : Tetromino.t) : M Tetromino.t :=
  match fuel with
  | O => raise OutOfFuel
  | S fuel' =>
      c ← check_collision 0 1 (Some ghost_piece);
      if negb c then
        ghost_loop fuel'
          (Tetromino.set_y (Tetromino.y ghost_piece + 1) ghost_piece)
      else mret ghost_piece
  end.

Definition draw_grid_ghost (fuel : nat) : M (option Tetromino.t) :=
  up ← gets upgrades;
  if Upgrades.ghost_piece up then
    cp ← gets current_piece;
    match cp with
    | Some p =>
        ghost_piece ← lift (Tetromino.init (Tetromino.shape_index p)
                              (Tetromino.x p) (Tetromino.y p));
        ghost_piece ← ghost_loop fuel
                        (Tetromino.set_shape (Tetromino.shape p) ghost_piece);
        mret (Some ghost_piece)
    | None => mret None
    end
  else mret None.

(** *** Sessions

    A freshly constructed object is what [reset_game] makes of it; the
    attributes do not exist before, so the record it starts from is
    immaterial ([blank]). *)

Definition blank : t :=
  mk [] None 0 0 0 0 0 0 false MENU 0 0 0 [] [] default_upgrades None false
     [] 0 None 0.

Definition new_game (r : nat) : t := (reset_game r blank).2.

(** Everything the driver [run] and the screens can make the engine do.
    The driver offers some of these only in some game states; here every
    command is accepted in every state, which can only add sessions. *)
Inductive command :=
  | Move (dx dy : Z)
  | Rotate
  | HardDrop (fuel r : nat) (coin : bool)
  | Hold (r : nat) (coin : bool)
  | Tick (dt : Z)
  | ResetGame (r : nat)
  | StartGame (r1 r2 : nat) (coin : bool)
  | StartNextRound (r1 r2 : nat) (coin : bool)
  | ClickUpgrade (k : UpgradeKey)
  | ClickJoker (j : Joker)
  | ClickPack (pt : PackType) (draws : nat → nat) (coins : nat → bool)
  | ClickAddToDeck
  | Escape.

Definition run_command (c : command) : M unit :=
  match c with
  | Move dx dy => move dx dy;; mret tt
  | Rotate => rotate_piece
  | HardDrop fuel r coin => hard_drop fuel r coin
  | Hold r coin => hold_piece r coin
  | Tick dt => update dt
  | ResetGame r => reset_game r
  | StartGame r1 r2 coin => start_game r1 r2 coin
  | StartNextRound r1 r2 coin => start_next_round r1 r2 coin
  | ClickUpgrade k => click_upgrade k
  | ClickJoker j => click_joker j
  | ClickPack pt draws coins => click_pack pt draws coins
  | ClickAddToDeck => click_add_to_deck
  | Escape => escape
  end.

(** The states a session passes through: each command returned normally
    (an uncaught exception ends the program). *)
Inductive reachable : t → Prop :=
  | reachable_new r : reachable (new_game r)
  | reachable_step c s s' :
      reachable s → run_command c s = (Ret tt, s') → reachable s'.

End TetrisGame.

Import TetrisGame.

(** * Notions used in the statements *)

(** ** The board *)

(** A row is full when [all] holds of it. *)
Definition full (row : list Z) : Prop := Py.all row = true.

#[global] Instance full_dec row : Decision (full row).
Proof. unfold full. apply _. Defined.

(** The number of full rows of a grid. *)
Definition full_count (g : list (list Z)) : nat := length (filter full g).

(** The positions of the full rows of [g], in increasing order, the first
    row of [g] having position [k]. *)
Fixpoint full_from (k : nat) (g : list (list Z)) : list nat :=
  match g with
  | [] => []
  | row :: g' =>
      if Py.all row then k :: full_from (S k) g' else full_from (S k) g'
  end.

(** The row [clear_lines] inserts at the top. *)
Definition empty_row : list Z := replicate (Z.to_nat GRID_WIDTH) 0.

(** What compaction is to produce: as many empty rows as there were full
    ones, then the rows that were not full, in their order. *)
Definition compact (g : list (list Z)) : list (list Z) :=
  replicate (full_count g) empty_row ++ filter (λ row, ¬ full row) g.

(** A cell is empty or holds the index of a catalog shape, plus one. *)
Definition cell_ok (c : Z) : Prop :=
  c = 0 ∨ ∃ i, 0 ≤ i < Z.of_nat (length SHAPES) ∧ c = i + 1.

Definition row_ok (row : list Z) : Prop :=
  length row = Z.to_nat GRID_WIDTH ∧ Forall cell_ok row.

(** The board invariant: [GRID_HEIGHT] rows of [GRID_WIDTH] valid cells. *)
Definition grid_ok (g : list (list Z)) : Prop :=
  length g = Z.to_nat GRID_HEIGHT ∧ Forall row_ok g.

(** The dimensions of the board alone. *)
Definition grid_wf (g : list (list Z)) : Prop :=
  length g = Z.to_nat GRID_HEIGHT
  ∧ Forall (λ row, length row = Z.to_nat GRID_WIDTH) g.

Definition in_grid (x y : Z) : Prop :=
  0 ≤ x < GRID_WIDTH ∧ 0 ≤ y < GRID_HEIGHT.

(** [self.grid[y][x]] *)
Definition cell (g : list (list Z)) (x y : Z) : option Z :=
  row ← Py.get g y; Py.get row x.

(** The grid after [self.grid[y][x] = v] for a position inside it. *)
Definition put (g : list (list Z)) (x y v : Z) : list (list Z) :=
  match g !! Z.to_nat y with
  | Some row => <[Z.to_nat y := <[Z.to_nat x := v]> row]> g
  | None => g
  end.

(** The grid after the cell writes of [lock_piece]. *)
Definition written (g : list (list Z)) (cells : list (Z * Z)) (v : Z)
  : list (list Z) :=
  foldl (λ g '(x, y), if y >=? 0 then put g x y v else g) g cells.

(** The guarded assignment of [explode_bomb], on the grid. *)
Definition clear_at (g : list (list Z)) (x y : Z) : list (list Z) :=
  if (0 <=? x) && (x <? GRID_WIDTH) && (0 <=? y) && (y <? GRID_HEIGHT)
  then put g x y 0
  else g.

(** The grid after the nine guarded assignments of [explode_bomb], in the
    order of its two loops. *)
Definition bombed (g : list (list Z)) (bomb_x bomb_y : Z) : list (list Z) :=
  foldl (λ g '(dy, dx), clear_at g (bomb_x + dx) (bomb_y + dy)) g
    (dy ← [-1; 0; 1]; dx ← [-1; 0; 1]; [(dy, dx)]).

(** ** The piece *)

Definition shape_id_ok (i : Z) : Prop := 0 ≤ i < Z.of_nat (length SHAPES).

(** The geometries a piece can have: the catalog shapes and their
    successive rotations. *)
Definition orientations : list (list (list Z)) :=
  sh ← SHAPES;
  [ sh;
    Tetromino.rotate_shape sh;
    Tetromino.rotate_shape (Tetromino.rotate_shape sh);
    Tetromino.rotate_shape (Tetromino.rotate_shape (Tetromino.rotate_shape sh)) ].

(** The cells of the piece are inside the side walls and above the floor
    (they may be above the top). *)
Definition fits (p : Tetromino.t) : Prop :=
  Forall (λ c, 0 ≤ c.1 < GRID_WIDTH ∧ c.2 < GRID_HEIGHT) (Tetromino.get_cells p).

Definition piece_ok (p : Tetromino.t) : Prop :=
  shape_id_ok (Tetromino.shape_index p)
  ∧ Tetromino.shape p ∈ orientations
  ∧ fits p.

(** The piece after a successful [move]. *)
Definition moved (p : Tetromino.t) (dx dy : Z) : Tetromino.t :=
  Tetromino.set_y (Tetromino.y p + dy) (Tetromino.set_x (Tetromino.x p + dx) p).

(** ** The session *)

(** The value of [base_score] when it is added to the score. *)
Definition line_points (s : t) (cleared points : Z) : Q :=
  (inject_Z (apply_jokers (jokers s) cleared (points * level s))
   * Upgrades.score_multiplier (upgrades s)
   + inject_Z (Upgrades.extra_lines (upgrades s) * 100))%Q.

(** The session after a [clear_lines] that found [cleared] full rows worth
    [points] in the table. *)
Definition after_clear (s : t) (cleared points : Z) : t :=
  let s1 :=
    set_lines_cleared (lines_cleared s + cleared)
      (set_score (score s + inject_Z (Py.int (line_points s cleared points)))%Q
         (set_grid (compact (grid s)) s)) in
  if lines_cleared s + cleared >=? level s * 10
  then set_fall_speed (Z.max 100 (fall_speed s - 50))
         (set_level (level s + 1) s1)
  else s1.

(** The session when [lock_piece] calls [clear_lines]. *)
Definition settled (s : t) (p : Tetromino.t) : t :=
  let g1 := written (grid s) (Tetromino.get_cells p)
              (Tetromino.shape_index p + 1) in
  if Tetromino.is_bomb p
  then set_score (score s + 200 * Upgrades.score_multiplier (upgrades s))%Q
         (set_grid (bombed g1 (Tetromino.x p) (Tetromino.y p)) s)
  else set_grid g1 s.

(** The session [spawn_piece] leaves when nothing raises: [v] is the piece
    drawn for next time, [q] the piece materialised, [hit] the outcome of
    the collision test. *)
Definition spawned (s : t) (v : Z) (q : Tetromino.t) (hit : bool) : t :=
  let s1 :=
    set_can_hold true
      (set_current_piece (Some q)
         (set_next_piece_index v
            match piece_deck s with
            | [] => set_piece_deck [0; 1; 2; 3; 4; 5; 6] s
            | _ :: _ => s
            end)) in
  if hit then set_state GAME_OVER (set_game_over true s1) else s1.

(** Commands that never lock a piece. *)
Definition non_locking (c : command) : Prop :=
  match c with
  | Move _ _ | Rotate | Tick _ | Hold _ _ => True
  | _ => False
  end.

(** What holds of a session between two commands. *)
Record Inv (s : t) : Prop := mkInv {
  inv_grid : grid_ok (grid s);
  inv_no_full_row : full_count (grid s) = 0%nat;
  inv_piece : ∀ p, current_piece s = Some p → piece_ok p;
  inv_next : shape_id_ok (next_piece_index s);
  inv_deck : Forall shape_id_ok (piece_deck s);
  inv_held : ∀ h, held_piece s = Some h → shape_id_ok h;
  inv_pack : Forall shape_id_ok (pack_contents s)
}.

(** ** Judgements on methods *)

(** A method keeps a property of the session, however the call ends. *)
Definition preserves {A} (P : t → Prop) (m : M A) : Prop :=
  ∀ s, P s → P (m s).2.

(** From a session with [P] the method returns normally, with [Q]. *)
Definition returns {A} (P : t → Prop) (m : M A) (Q : A → t → Prop) : Prop :=
  ∀ s, P s → ∃ a s', m s = (Ret a, s') ∧ Q a s'.

(** The method returns normally from every session with the invariant,
    and re-establishes it. *)
Definition keeps {A} (m : M A) : Prop := returns Inv m (λ _, Inv).

(** ** Sample sessions *)

(** A session of the running game: a new game is started, the O piece
    comes first and is moved down until it rests on the floor. *)
Definition resting_session : t :=
  (for_each (StartGame 1 0 false :: replicate 18 (Move 0 1)) run_command
     (new_game 0)).2.

(** A board whose [k] bottom rows are full and whose other rows are empty. *)
Definition board_with_full_rows (k : nat) : list (list Z) :=
  replicate (Z.to_nat GRID_HEIGHT - k) empty_row
  ++ replicate k (replicate (Z.to_nat GRID_WIDTH) 1).

(** A fresh session put on the board [g] at level [lvl] with [lines]
    lines cleared so far. *)
Definition session_on (g : list (list Z)) (lvl lines : Z) : t :=
  set_lines_cleared lines (set_level lvl (set_grid g (new_game 0))).

(** The I piece, upright, two columns from the right wall. *)
Definition upright_I : Tetromino.t :=
  Tetromino.mk 0 [[1]; [1]; [1]; [1]] CYAN 8 5 0 false.

(** A bomb T piece with origin (5,5). *)
Definition bomb_T : Tetromino.t :=
  Tetromino.mk 2 [[0; 1; 0]; [1; 1; 1]] PURPLE 5 5 0 true.

Definition session_with_piece (g : list (list Z)) (p : Tetromino.t) : t :=
  set_current_piece (Some p) (session_on g 1 0).

(** The resting session after the hold upgrade was bought. *)
Definition holding_session : t :=
  set_upgrades (Upgrades.set_hold_piece true default_upgrades) resting_session.

(** * Further notions *)

(** ** Geometry and collisions *)

(** A grid of cells with [h] rows of [w] entries each. *)
Definition rectangular {A} (h w : nat) (m : list (list A)) : Prop :=
  length m = h ∧ Forall (λ row, length row = w) m.

(** The cell [c], moved by [(dx, dy)], is outside the side walls, below
    the floor, or on an occupied cell of the board; a cell above the top
    is never on the board. *)
Definition blocked (g : list (list Z)) (dx dy : Z) (c : Z * Z) : Prop :=
  c.1 + dx < 0
  ∨ GRID_WIDTH ≤ c.1 + dx
  ∨ GRID_HEIGHT ≤ c.2 + dy
  ∨ (0 ≤ c.2 + dy ∧ ∃ v, cell g (c.1 + dx) (c.2 + dy) = Some v ∧ v ≠ 0).

(** [d] is how far the piece [p] falls on the board [g]: the positions
    one to [d] rows down are free, the next one is blocked. *)
Definition lands (g : list (list Z)) (p : Tetromino.t) (d : Z) : Prop :=
  0 ≤ d
  ∧ (∀ k, 1 ≤ k ≤ d → ¬ Exists (blocked g 0 k) (Tetromino.get_cells p))
  ∧ Exists (blocked g 0 (d + 1)) (Tetromino.get_cells p).

(** ** Packs *)

(** The number of cards of a pack, and its card number [i]. *)
Definition pack_size (pt : PackType) : nat :=
  match pt with BASIC => 3 | PREMIUM => 5 | STRAIGHT => 4 end.

Definition pack_card (pt : PackType) (draws : nat → nat) (coins : nat → bool)
    (i : nat) : Z :=
  match pt with
  | BASIC => Py.randint_below (draws i) (length SHAPES)
  | PREMIUM =>
      if coins i then 0 else Py.randint_below (draws i) (length SHAPES)
  | STRAIGHT => 0
  end.

(** ** Books *)

(** What holds of the counters, the shop items and the deck of a session
    between two commands. *)
Record Books (s : t) : Prop := mkBooks {
  books_money : 0 ≤ money s;
  books_round : 1 ≤ round_number s;
  books_target : round_target s = 1000 * round_number s;
  books_level : 1 ≤ level s;
  books_speed : fall_speed s = Z.max 100 (500 - 50 * (level s - 1));
  books_lines : 0 ≤ lines_cleared s < level s * 10;
  books_score : (0 <= score s)%Q;
  books_multiplier : (1 <= Upgrades.score_multiplier (upgrades s))%Q;
  books_extra : 0 ≤ Upgrades.extra_lines (upgrades s);
  books_jokers : NoDup (jokers s);
  books_joker_names :
    jokers s ⊆ joker_name <$> [DoublePoints; LineBonus; LevelBoost];
  books_deck : [0; 1; 2; 3; 4; 5; 6] `prefix_of` piece_deck s
}.

(** The commands of play: everything but the start of a game or a round
    and the reset. *)
Definition in_round (c : command) : Prop :=
  match c with
  | ResetGame _ | StartGame _ _ _ | StartNextRound _ _ _ => False
  | _ => True
  end.

(** ** Further sample sessions *)

(** A session of the running game with the ghost upgrade: a new game is
    started, the O piece comes first, and the upgrade is bought. *)
Definition ghost_session : t :=
  (for_each [StartGame 1 0 false; ClickUpgrade GhostPiece] run_command
     (new_game 0)).2.

(** The resting session taken to the shop, the target of the round met. *)
Definition shop_session : t := set_state SHOP (set_score 1000 resting_session).

(** The O piece of the resting session. *)
Definition resting_O : Tetromino.t :=
  Tetromino.mk 1 [[1; 1]; [1; 1]] YELLOW 4 18 0 false.

(** * Properties *)

(** ** Stepping through method bodies *)

Arguments Py.index : simpl never.
Arguments Py.get : simpl never.
Arguments Py.set : simpl never.
Arguments Py.del : simpl never.
Arguments Py.range : simpl never.
Arguments Py.all : simpl never.
Arguments Py.choice : simpl never.
Arguments Py.randint_below : simpl never.
Arguments Py.int : simpl never.
Arguments Tetromino.get_cells : simpl never.
Arguments Tetromino.init : simpl never.
Arguments collides : simpl never.
Arguments full_rows_among : simpl never.

Lemma bind_ret {A B} (m : M A) (f : A → M B) s a s' :
  m s = (Ret a, s') → (m ≫= f) s = f a s'.
Proof. intros H. unfold mbind, M_bind. by rewrite H. Qed.

Lemma bind_stop {A B} (m : M A) (f : A → M B) s e s' :
  m s = (Stop e, s') → (m ≫= f) s = (Stop e, s').
Proof. intros H. unfold mbind, M_bind. by rewrite H. Qed.

Lemma bind_gets {A B} (f : t → A) (k : A → M B) s :
  (gets f ≫= k) s = k (f s) s.
Proof. done. Qed.

Lemma bind_modify {B} (f : t → t) (k : unit → M B) s :
  (modify f ≫= k) s = k tt (f s).
Proof. done. Qed.

Lemma bind_mret {A B} (a : A) (k : A → M B) s : (mret a ≫= k) s = k a s.
Proof. done. Qed.

Lemma bind_modify_piece {B} f (k : unit → M B) s :
  (modify_piece f ≫= k) s = k tt (set_current_piece (f <$> current_piece s) s).
Proof. done. Qed.

Lemma run_modify_piece f s :
  modify_piece f s = (Ret tt, set_current_piece (f <$> current_piece s) s).
Proof. done. Qed.

Lemma bind_lift_Some {A B} (a : A) (k : A → M B) s :
  (lift (Some a) ≫= k) s = k a s.
Proof. done. Qed.

Lemma bind_lift_None {A B} (k : A → M B) s :
  (lift None ≫= k) s = (Stop IndexError, s).
Proof. done. Qed.

Lemma bind_assoc {A B C} (m : M A) (f : A → M B) (k : B → M C) s :
  ((m ≫= f) ≫= k) s = (m ≫= λ a, f a ≫= k) s.
Proof. unfold mbind, M_bind. by destruct (m s) as [[a|e] s']. Qed.

Lemma run_gets {A} (f : t → A) s : gets f s = (Ret (f s), s).
Proof. done. Qed.

Lemma run_modify (f : t → t) s : modify f s = (Ret tt, f s).
Proof. done. Qed.

Lemma run_mret {A} (a : A) s : (mret a : M A) s = (Ret a, s).
Proof. done. Qed.

Create Rewrite HintDb monad.
#[global] Hint Rewrite @bind_gets @bind_modify @bind_mret @bind_lift_Some
  @bind_lift_None @bind_modify_piece @run_gets @run_modify @run_mret
  @run_modify_piece : monad.

Ltac mrun := autorewrite with monad; cbn beta iota.

Lemma set_piece_deck_id s : set_piece_deck (piece_deck s) s = s.
Proof. by destruct s. Qed.

(** ** The piece source *)

Lemma choice_nonempty {A} (r : nat) (l : list A) :
  l ≠ [] → ∃ v, Py.choice r l = Some v ∧ v ∈ l.
Proof.
  intros Hl. destruct l as [|a l]; [done|].
  unfold Py.choice.
  destruct ((a :: l) !! (r `mod` length (a :: l))%nat) as [v|] eqn:E.
  - exists v. split; [done|]. by eapply list_elem_of_lookup_2.
  - apply lookup_ge_None in E.
    pose proof (Nat.mod_upper_bound r (length (a :: l))) as Hb.
    simpl in *. lia.
Qed.

(** The draw: the deck is refilled if it is empty, then read. *)
Lemma draw_spec (r : nat) (s : t) :
  ∃ v s',
    get_random_piece_from_deck r s = (Ret v, s')
    ∧ s' = match piece_deck s with
           | [] => set_piece_deck [0; 1; 2; 3; 4; 5; 6] s
           | _ :: _ => s
           end
    ∧ v ∈ piece_deck s'.
Proof.
  unfold get_random_piece_from_deck.
  change (Z.of_nat <$> Py.range (length SHAPES)) with [0; 1; 2; 3; 4; 5; 6].
  rewrite bind_gets.
  destruct (piece_deck s) as [|c deck] eqn:Hdeck; mrun.
  - destruct (choice_nonempty r [0; 1; 2; 3; 4; 5; 6]) as (v & Hv & Hin);
      [done|].
    simpl. rewrite Hv. by exists v, (set_piece_deck [0; 1; 2; 3; 4; 5; 6] s).
  - destruct (choice_nonempty r (c :: deck)) as (v & Hv & Hin); [done|].
    rewrite Hdeck, Hv. exists v, s. by rewrite Hdeck.
Qed.

(** C8.  A draw from the piece source always returns a shape and never
    raises.  On an empty deck the deck is first replaced by one copy of
    each of the seven catalog shapes, and the shape returned is taken from
    the deck as it is after that; a non-empty deck is left as it is and
    nothing else in the session changes. *)
Theorem draw_always_succeeds (r : nat) (s : t) :
  ∃ v s',
    get_random_piece_from_deck r s = (Ret v, s')
    ∧ piece_deck s'
      = match piece_deck s with
        | [] => [0; 1; 2; 3; 4; 5; 6]
        | c :: deck => c :: deck
        end
    ∧ s' = set_piece_deck (piece_deck s') s
    ∧ v ∈ piece_deck s'.
Proof.
  destruct (draw_spec r s) as (v & s' & Hrun & -> & Hv).
  exists v. eexists. split; [done|].
  destruct (piece_deck s) eqn:Hdeck; simpl in *.
  - done.
  - rewrite Hdeck in *. split; [done|]. split; [|done].
    by rewrite <- Hdeck, set_piece_deck_id.
Qed.

(** ** Line clearing *)

Lemma set_grid_id s : set_grid (grid s) s = s.
Proof. by destruct s. Qed.

Lemma full_rows_among_seq pre g :
  full_rows_among (pre ++ g) (seq (length pre) (length g))
  = Some (full_from (length pre) g).
Proof.
  revert pre. induction g as [|row g IH]; intros pre; [done|].
  cbn [length seq full_from]. unfold full_rows_among; fold full_rows_among.
  rewrite list_lookup_middle by done. simpl.
  specialize (IH (pre ++ [row])).
  rewrite <- app_assoc, length_app in IH. simpl in IH.
  rewrite Nat.add_1_r in IH. rewrite IH. simpl. by destruct (Py.all row).
Qed.

Lemma full_from_length k g : length (full_from k g) = full_count g.
Proof.
  unfold full_count. revert k. induction g as [|row g IH]; intros k; [done|].
  simpl. destruct (Py.all row) eqn:E.
  - rewrite filter_cons_True by done. simpl. by rewrite IH.
  - rewrite filter_cons_False by (unfold full; congruence). apply IH.
Qed.

Lemma replicate_snoc_cons {A} n (a : A) l :
  replicate n a ++ a :: l = replicate (S n) a ++ l.
Proof. induction n as [|n IH]; simpl; [done|]. by rewrite IH. Qed.

Lemma delete_line_middle pre row g s :
  grid s = pre ++ row :: g →
  delete_line (length pre) s = (Ret tt, set_grid (empty_row :: pre ++ g) s).
Proof.
  intros Hs. unfold delete_line. rewrite bind_gets, Hs.
  unfold Py.del. rewrite decide_True by (rewrite length_app; simpl; lia).
  by rewrite delete_middle.
Qed.

(** The deletion loop, started on a grid [pre ++ g] whose part [pre] is
    already dealt with. *)
Lemma clear_loop g : ∀ pre s,
  grid s = pre ++ g →
  for_each (full_from (length pre) g) delete_line s
  = (Ret tt,
     set_grid (replicate (full_count g) empty_row
               ++ pre ++ filter (λ row, ¬ full row) g) s).
Proof.
  induction g as [|row g IH]; intros pre s Hs.
  - simpl. rewrite app_nil_r in *. by rewrite <- Hs, set_grid_id.
  - cbn [full_from]. unfold full_count in *. destruct (Py.all row) eqn:E.
    + rewrite filter_cons_True by done.
      rewrite (filter_cons_False (λ row, ¬ full row)) by (intros H; by apply H).
      cbn [for_each].
      rewrite (bind_ret _ _ _ _ _ (delete_line_middle pre row g s Hs)).
      specialize (IH (empty_row :: pre)
                    (set_grid (empty_row :: pre ++ g) s) eq_refl).
      cbn [length] in IH. rewrite IH. cbn [length]. f_equal.
      by rewrite <- replicate_snoc_cons.
    + rewrite filter_cons_False by (unfold full; congruence).
      rewrite (filter_cons_True (λ row, ¬ full row))
        by (unfold full; congruence).
      specialize (IH (pre ++ [row]) s).
      rewrite <- !app_assoc, length_app in IH. simpl in IH.
      rewrite Nat.add_1_r in IH. by apply IH.
Qed.

Lemma clear_lines_spec s :
  length (grid s) = Z.to_nat GRID_HEIGHT →
  clear_lines s =
    match full_count (grid s) with
    | O => (Ret tt, s)
    | S _ =>
        match Py.get [0; 100; 300; 500; 800] (Z.of_nat (full_count (grid s)))
        with
        | Some points =>
            (Ret tt, after_clear s (Z.of_nat (full_count (grid s))) points)
        | None => (Stop IndexError, set_grid (compact (grid s)) s)
        end
    end.
Proof.
  intros Hlen. unfold clear_lines.
  pose proof (full_rows_among_seq [] (grid s)) as Hscan.
  pose proof (clear_loop (grid s) [] s eq_refl) as Hloop.
  pose proof (full_from_length 0 (grid s)) as Hcount.
  cbn [app length] in Hscan, Hloop. rewrite Hlen in Hscan.
  unfold Py.range.
  rewrite bind_gets, Hscan, bind_lift_Some.
  destruct (full_from 0 (grid s)) as [|y ys] eqn:E.
  - cbn [length] in Hcount. by rewrite <- Hcount.
  - rewrite <- Hcount. cbn [length].
    rewrite (bind_ret _ _ _ _ _ Hloop). rewrite <- Hcount. cbn [length].
    unfold after_clear, line_points, compact. rewrite <- Hcount.
    cbn [length].
    destruct (Py.get _ _) as [points|]; mrun; [|done].
    simpl. by destruct (_ >=? _).
Qed.

Lemma compact_length g : length (compact g) = length g.
Proof.
  unfold compact, full_count. rewrite length_app, length_replicate.
  induction g as [|row g IH]; [done|].
  destruct (decide (full row)).
  - rewrite filter_cons_True by done.
    rewrite (filter_cons_False (λ row, ¬ full row)) by (intros H; by apply H).
    simpl. lia.
  - rewrite filter_cons_False by done.
    rewrite (filter_cons_True (λ row, ¬ full row)) by done.
    simpl. lia.
Qed.

Lemma filter_Forall_id {A} (P : A → Prop) `{!∀ x, Decision (P x)} (l : list A) :
  Forall P l → filter P l = l.
Proof.
  induction 1 as [|x l Hx _ IH]; [done|].
  by rewrite filter_cons_True, IH.
Qed.

Lemma clear_lines_grid s :
  length (grid s) = Z.to_nat GRID_HEIGHT →
  grid (clear_lines s).2 = compact (grid s).
Proof.
  intros Hlen. rewrite clear_lines_spec by done.
  destruct (full_count (grid s)) as [|k] eqn:Hk.
  - unfold compact. rewrite Hk. simpl. symmetry.
    apply filter_Forall_id, Forall_forall. intros row Hrow Hfull.
    assert (row ∈ filter full (grid s)) as Hin
      by (by apply list_elem_of_filter).
    unfold full_count in Hk. apply nil_length_inv in Hk.
    rewrite Hk in Hin. by apply not_elem_of_nil in Hin.
  - destruct (Py.get _ _); [|done]. unfold after_clear.
    by destruct (_ >=? _).
Qed.

(** C3.  On a board of [GRID_HEIGHT] rows, whatever their contents, the
    grid [clear_lines] leaves behind consists of as many empty rows as the
    board had full rows, followed by exactly the rows that were not full,
    in their original order; the height is unchanged.  So a row with an
    empty cell is never removed and a row without one always is. *)
Theorem clear_lines_removes_exactly_full_rows (s : t) :
  length (grid s) = Z.to_nat GRID_HEIGHT →
  let g' := grid (clear_lines s).2 in
  g' = replicate (full_count (grid s)) empty_row
       ++ filter (λ row, ¬ full row) (grid s)
  ∧ drop (full_count (grid s)) g' `sublist_of` grid s
  ∧ (∀ row, row ∈ drop (full_count (grid s)) g' ↔ row ∈ grid s ∧ ¬ full row)
  ∧ length g' = length (grid s).
Proof.
  intros Hlen g'. subst g'. rewrite clear_lines_grid by done.
  split; [done|]. rewrite compact_length. unfold compact.
  rewrite drop_app_length' by (by rewrite length_replicate).
  split; [apply sublist_filter|]. split; [|done].
  intros row. rewrite list_elem_of_filter. tauto.
Qed.

(** ** Scoring and levelling *)

#[global] Instance int_proper : Proper (Qeq ==> eq) Py.int.
Proof.
  intros q1 q2 Hq. unfold Py.int.
  assert (Qle_bool 0 q1 = Qle_bool 0 q2) as ->.
  { destruct (Qle_bool 0 q2) eqn:E.
    - apply Qle_bool_iff. rewrite Hq. by apply Qle_bool_iff.
    - destruct (Qle_bool 0 q1) eqn:E1; [|done].
      apply Qle_bool_iff in E1. rewrite Hq in E1.
      apply Qle_bool_iff in E1. congruence. }
  destruct (Qle_bool 0 q2).
  - by apply Qfloor_comp.
  - by apply Qceiling_comp.
Qed.

Lemma int_inject_Z z : Py.int (inject_Z z) = z.
Proof.
  unfold Py.int. destruct (Qle_bool 0 (inject_Z z)).
  - apply Qfloor_Z.
  - apply Qceiling_Z.
Qed.

(** With no jokers, multiplier one and no line bonus, the points of a
    clear are the table entry times the level. *)
Lemma line_points_plain s cleared points :
  jokers s = [] →
  (Upgrades.score_multiplier (upgrades s) == 1)%Q →
  Upgrades.extra_lines (upgrades s) = 0 →
  Py.int (line_points s cleared points) = points * level s.
Proof.
  intros Hj Hm He. unfold line_points. rewrite Hj, He, Hm. simpl.
  rewrite <- (int_inject_Z (points * level s)) at 2.
  apply int_proper. change (inject_Z (0 * 100)) with 0%Q.
  by rewrite Qmult_1_r, Qplus_0_r.
Qed.

Lemma clear_lines_plain s k points :
  length (grid s) = Z.to_nat GRID_HEIGHT →
  jokers s = [] →
  (Upgrades.score_multiplier (upgrades s) == 1)%Q →
  Upgrades.extra_lines (upgrades s) = 0 →
  full_count (grid s) = S k →
  [0; 100; 300; 500; 800] !! S k = Some points →
  ∃ s', clear_lines s = (Ret tt, s')
        ∧ (score s' == score s + inject_Z (points * level s))%Q.
Proof.
  intros Hlen Hj Hm He Hk Hp. rewrite clear_lines_spec, Hk by done.
  assert (Py.get [0; 100; 300; 500; 800] (Z.of_nat (S k)) = Some points)
    as ->.
  { apply lookup_lt_Some in Hp as Hlt. simpl in Hlt.
    unfold Py.get, Py.index. simpl length.
    rewrite (proj2 (Z.leb_le _ _)), (proj2 (Z.ltb_lt _ _)) by lia.
    simpl. by rewrite Nat2Z.id. }
  eexists. split; [done|]. unfold after_clear.
  rewrite line_points_plain by done.
  by destruct (_ >=? _).
Qed.

(** C4.  With no jokers, score multiplier 1.0 and no extra line bonus, a
    [clear_lines] on a board with exactly [k] full rows, [k] from 1 to 4,
    adds the table entry for [k] times the level to the score; so exactly
    100 for one row at level 1 and exactly 1600 for four rows at level 2. *)
Theorem clear_lines_score_table (s : t) :
  length (grid s) = Z.to_nat GRID_HEIGHT →
  jokers s = [] →
  (Upgrades.score_multiplier (upgrades s) == 1)%Q →
  Upgrades.extra_lines (upgrades s) = 0 →
  (∀ k points,
     (k, points) ∈ [(1%nat, 100); (2%nat, 300); (3%nat, 500); (4%nat, 800)] →
     full_count (grid s) = k →
     ∃ s', clear_lines s = (Ret tt, s')
           ∧ (score s' == score s + inject_Z (points * level s))%Q)
  ∧ (full_count (grid s) = 1%nat → level s = 1 →
     ∃ s', clear_lines s = (Ret tt, s') ∧ (score s' == score s + 100)%Q)
  ∧ (full_count (grid s) = 4%nat → level s = 2 →
     ∃ s', clear_lines s = (Ret tt, s') ∧ (score s' == score s + 1600)%Q).
Proof.
  intros Hlen Hj Hm He. split; [|split].
  - intros k points Hin Hk.
    assert (∃ k', k = S k' ∧ [0; 100; 300; 500; 800] !! k = Some points)
      as (k' & -> & Hp).
    { repeat (apply elem_of_cons in Hin as [[= -> ->]|Hin]; [by eexists|]).
      by apply not_elem_of_nil in Hin. }
    by apply (clear_lines_plain s k' points).
  - intros Hk Hl.
    destruct (clear_lines_plain s 0 100) as (s' & Hs' & Hsc); try done.
    exists s'. split; [done|]. by rewrite Hsc, Hl.
  - intros Hk Hl.
    destruct (clear_lines_plain s 3 800) as (s' & Hs' & Hsc); try done.
    exists s'. split; [done|]. by rewrite Hsc, Hl.
Qed.

(** C5.  A [clear_lines] that clears [k] lines, [k] from 1 to 4 (a lock
    never fills more rows, see C9), adds [k] to [lines_cleared] and then
    tests [lines_cleared >= level * 10] once:
    if it holds, the level goes up by exactly one and the fall interval
    becomes [max(100, fall_speed - 50)]; if not, both stay.  The test is
    not repeated, so the level rises by at most one per call, however far
    [lines_cleared] is beyond the threshold. *)
Theorem clear_lines_levels_up_once (s : t) :
  length (grid s) = Z.to_nat GRID_HEIGHT →
  (1 ≤ full_count (grid s) ≤ 4)%nat →
  ∃ s', clear_lines s = (Ret tt, s')
    ∧ lines_cleared s' = lines_cleared s + Z.of_nat (full_count (grid s))
    ∧ (level s * 10 ≤ lines_cleared s' →
       level s' = level s + 1
       ∧ fall_speed s' = Z.max 100 (fall_speed s - 50))
    ∧ (lines_cleared s' < level s * 10 →
       level s' = level s ∧ fall_speed s' = fall_speed s)
    ∧ level s ≤ level s' ≤ level s + 1.
Proof.
  intros Hlen Hk. rewrite clear_lines_spec by done.
  destruct (full_count (grid s)) as [|k] eqn:Ek; [lia|].
  destruct (Py.get _ _) as [points|] eqn:Ep.
  2:{ exfalso. unfold Py.get, Py.index in Ep. simpl length in Ep.
      rewrite (proj2 (Z.leb_le _ _)), (proj2 (Z.ltb_lt _ _)) in Ep by lia.
      simpl in Ep. apply lookup_ge_None in Ep. simpl in Ep. lia. }
  eexists. split; [done|]. unfold after_clear.
  destruct (_ >=? _) eqn:E; simpl.
  - apply Z.geb_le in E. repeat split; lia.
  - rewrite Z.geb_leb in E. apply Z.leb_gt in E. repeat split; lia.
Qed.

(** ** Properties kept by every outcome *)

Section preserves.
Context (P : t → Prop).

Lemma preserves_bind {A B} (m : M A) (f : A → M B) :
  preserves P m → (∀ a, preserves P (f a)) → preserves P (m ≫= f).
Proof.
  intros Hm Hf s Hs. specialize (Hm s Hs). unfold mbind, M_bind.
  destruct (m s) as [[a|e] s']; simpl in *; [by apply Hf|done].
Qed.

Lemma preserves_mret {A} (a : A) : preserves P (mret a).
Proof. by intros s Hs. Qed.

Lemma preserves_raise {A} e : preserves P (raise e : M A).
Proof. by intros s Hs. Qed.

Lemma preserves_gets {A} (f : t → A) : preserves P (gets f).
Proof. by intros s Hs. Qed.

Lemma preserves_lift {A} (o : option A) : preserves P (lift o).
Proof. destruct o; [apply preserves_mret|apply preserves_raise]. Qed.

Lemma preserves_modify (f : t → t) :
  (∀ s, P s → P (f s)) → preserves P (modify f).
Proof. intros Hf s Hs. by apply Hf. Qed.

Lemma preserves_for_each {A} (l : list A) (body : A → M unit) :
  (∀ a, preserves P (body a)) → preserves P (for_each l body).
Proof.
  intros Hbody. induction l as [|a l IH]; simpl.
  - apply preserves_mret.
  - apply preserves_bind; [apply Hbody|by intros _].
Qed.
End preserves.

Lemma preserves_for_each_Forall {A} (P : t → Prop) (l : list A) body :
  Forall (λ a, preserves P (body a)) l → preserves P (for_each l body).
Proof.
  induction 1 as [|a l Ha _ IH]; simpl.
  - apply preserves_mret.
  - apply preserves_bind; [done|by intros _].
Qed.

Lemma then_modify_inv {A} (m : M A) (f : t → t) s s' :
  (m;; modify f) s = (Ret tt, s') → ∃ s1, s' = f s1.
Proof.
  unfold mbind, M_bind. destruct (m s) as [[a|e] s1]; [|done].
  intros [= <-]. by exists s1.
Qed.

Lemma preserves_if {A} (P : t → Prop) (b : bool) (m1 m2 : M A) :
  preserves P m1 → preserves P m2 → preserves P (if b then m1 else m2).
Proof. by destruct b. Qed.

Create HintDb pres discriminated.

Ltac preserves_step :=
  first
    [ solve [auto with pres nocore]
    | lazymatch goal with
      | |- preserves _ (mret _) => apply preserves_mret
      | |- preserves _ (raise _) => apply preserves_raise
      | |- preserves _ (gets _) => apply preserves_gets
      | |- preserves _ (lift _) => apply preserves_lift
      | |- preserves _ (mbind _ _) => apply preserves_bind; [|intros ?]
      | |- preserves _ (for_each _ _) => apply preserves_for_each; intros ?
      | |- preserves _ (modify _) =>
          apply preserves_modify; intros ? ?; simpl; try done
      | |- preserves _ (modify_piece _) =>
          apply preserves_modify; intros ? ?; simpl; try done
      | |- preserves _ (if ?b then _ else _) => destruct b
      | |- preserves _ (match ?x with _ => _ end) => destruct x
      | |- preserves _ (let '(_, _) := ?x in _) => destruct x
      end ].

Ltac preserves_auto := repeat preserves_step.

(** ** The board invariant *)

Lemma cell_ok_range c : cell_ok c ↔ 0 ≤ c ≤ 7.
Proof.
  unfold cell_ok. change (Z.of_nat (length SHAPES)) with 7. split.
  - intros [->|(i & Hi & ->)]; lia.
  - intros Hc. destruct (decide (c = 0)) as [->|]; [by left|].
    right. exists (c - 1). lia.
Qed.

Lemma index_Some len i n : Py.index len i = Some n → (n < len)%nat.
Proof.
  unfold Py.index. intros H.
  destruct (0 <=? i) eqn:E1.
  - destruct (i <? Z.of_nat len) eqn:E2; [|done].
    injection H as <-. apply Z.ltb_lt in E2. apply Z.leb_le in E1. lia.
  - destruct (- Z.of_nat len <=? i) eqn:E2; [|done].
    injection H as <-. apply Z.leb_le in E2. apply Z.leb_gt in E1. lia.
Qed.

Lemma index_in_range len i :
  0 ≤ i < Z.of_nat len → Py.index len i = Some (Z.to_nat i).
Proof.
  intros Hi. unfold Py.index.
  by rewrite (proj2 (Z.leb_le _ _)), (proj2 (Z.ltb_lt _ _)) by lia.
Qed.

Lemma get_Some_elem_of {A} (l : list A) i a : Py.get l i = Some a → a ∈ l.
Proof.
  unfold Py.get. destruct (Py.index _ _) as [n|]; [|done]. simpl.
  apply list_elem_of_lookup_2.
Qed.

Lemma set_Some_insert {A} (l : list A) i v l' :
  Py.set l i v = Some l' → ∃ n, l' = <[n := v]> l.
Proof.
  unfold Py.set. destruct (Py.index _ _) as [n|]; [|done]. simpl.
  intros [= <-]. by exists n.
Qed.

Lemma get_in_range {A} (l : list A) i :
  0 ≤ i < Z.of_nat (length l) → Py.get l i = l !! Z.to_nat i.
Proof. intros Hi. unfold Py.get. by rewrite index_in_range. Qed.

Lemma set_in_range {A} (l : list A) i v :
  0 ≤ i < Z.of_nat (length l) → Py.set l i v = Some (<[Z.to_nat i := v]> l).
Proof. intros Hi. unfold Py.set. by rewrite index_in_range. Qed.

Lemma grid_assign_ok y x v :
  cell_ok v → preserves (λ s, grid_ok (grid s)) (grid_assign y x v).
Proof.
  intros Hv s [Hlen Hrows]. unfold grid_assign. mrun.
  destruct (Py.get (grid s) y) as [row|] eqn:Hrow; mrun; [|done].
  destruct (Py.set row x v) as [row'|] eqn:Hrow'; mrun; [|done].
  destruct (Py.set (grid s) y row') as [g'|] eqn:Hg'; mrun; [|done].
  simpl. apply set_Some_insert in Hg' as [n ->].
  apply set_Some_insert in Hrow' as [m ->].
  apply get_Some_elem_of in Hrow.
  rewrite Forall_forall in Hrows. destruct (Hrows row Hrow) as [Hw Hcells].
  split; [by rewrite length_insert|].
  apply Forall_insert; [by apply Forall_forall|].
  split; [by rewrite length_insert|by apply Forall_insert].
Qed.

Lemma grid_assign_zero_ok y x :
  preserves (λ s, grid_ok (grid s)) (grid_assign y x 0).
Proof. apply grid_assign_ok. by left. Qed.

#[global] Hint Resolve grid_assign_zero_ok : pres.

Lemma explode_bomb_ok bx by_ :
  preserves (λ s, grid_ok (grid s)) (explode_bomb bx by_).
Proof. unfold explode_bomb. preserves_auto. Qed.

#[global] Hint Resolve explode_bomb_ok : pres.

Lemma empty_row_ok : row_ok empty_row.
Proof.
  split; [apply length_replicate|]. apply Forall_replicate. by left.
Qed.

Lemma delete_line_ok y : preserves (λ s, grid_ok (grid s)) (delete_line y).
Proof.
  intros s [Hlen Hrows]. unfold delete_line. mrun. unfold Py.del.
  case_decide as Hy; mrun; [|done]. simpl. split.
  - simpl. rewrite length_delete by (by apply lookup_lt_is_Some_2). lia.
  - apply Forall_cons. split; [apply empty_row_ok|by apply Forall_delete].
Qed.

#[global] Hint Resolve delete_line_ok : pres.

Lemma clear_lines_ok : preserves (λ s, grid_ok (grid s)) clear_lines.
Proof.
  unfold clear_lines.
  preserves_auto.
Qed.

#[global] Hint Resolve clear_lines_ok : pres.

Lemma spawn_piece_grid r coin :
  preserves (λ s, grid_ok (grid s)) (spawn_piece r coin).
Proof.
  unfold spawn_piece, get_random_piece_from_deck, check_collision.
  preserves_auto.
Qed.

#[global] Hint Resolve spawn_piece_grid : pres.

Lemma settle_piece_ok s p :
  grid_ok (grid s) →
  current_piece s = Some p →
  0 ≤ Tetromino.shape_index p < 7 →
  grid_ok (grid (settle_piece s).2).
Proof.
  intros Hg Hp Hidx. unfold settle_piece. rewrite bind_gets, Hp.
  apply (preserves_bind (λ s, grid_ok (grid s))); [|intros _|done].
  - apply preserves_for_each. intros [x y].
    destruct (y >=? 0); [|preserves_step].
    apply grid_assign_ok, cell_ok_range. lia.
  - preserves_auto.
Qed.

Lemma lock_piece_ok r coin s p :
  grid_ok (grid s) →
  current_piece s = Some p →
  0 ≤ Tetromino.shape_index p < 7 →
  grid_ok (grid (lock_piece r coin s).2).
Proof.
  intros Hg Hp Hidx. pose proof (settle_piece_ok s p Hg Hp Hidx) as H1.
  unfold lock_piece, mbind at 1, M_bind at 1.
  destruct (settle_piece s) as [[[]|e] s1]; [|done].
  revert H1. generalize s1.
  change (preserves (λ s, grid_ok (grid s)) (clear_lines;; spawn_piece r coin)).
  preserves_auto.
Qed.

(** ** Assignments inside the board *)

Lemma grid_ok_wf g : grid_ok g → grid_wf g.
Proof.
  intros [Hlen Hrows]. split; [done|].
  eapply Forall_impl; [done|]. by intros row [? _].
Qed.

Lemma grid_wf_row g y :
  grid_wf g → 0 ≤ y < GRID_HEIGHT →
  ∃ row, g !! Z.to_nat y = Some row ∧ length row = Z.to_nat GRID_WIDTH.
Proof.
  intros [Hlen Hrows] Hy. unfold GRID_HEIGHT in *.
  destruct (lookup_lt_is_Some_2 g (Z.to_nat y)) as [row Hrow];
    [rewrite Hlen; lia|].
  exists row. split; [done|].
  rewrite Forall_forall in Hrows. by eapply Hrows, list_elem_of_lookup_2.
Qed.

Lemma put_wf g x y v : grid_wf g → grid_wf (put g x y v).
Proof.
  intros [Hlen Hrows]. unfold put.
  destruct (g !! Z.to_nat y) as [row|] eqn:Hrow; [|done].
  split; [by rewrite length_insert|].
  apply Forall_insert; [done|]. rewrite length_insert.
  rewrite Forall_forall in Hrows. by eapply Hrows, list_elem_of_lookup_2.
Qed.

Lemma grid_assign_in_grid y x v s :
  grid_wf (grid s) → in_grid x y →
  grid_assign y x v s = (Ret tt, set_grid (put (grid s) x y v) s).
Proof.
  intros Hwf [Hx Hy]. destruct (grid_wf_row _ y Hwf Hy) as (row & Hrow & Hw).
  destruct Hwf as [Hlen _]. unfold GRID_HEIGHT, GRID_WIDTH in *.
  unfold grid_assign, put. rewrite Hrow. mrun.
  rewrite get_in_range, Hrow by lia. mrun.
  rewrite set_in_range by lia. mrun.
  by rewrite set_in_range by lia.
Qed.

Lemma cell_put g x y v x' y' :
  grid_wf g → in_grid x y → in_grid x' y' →
  cell (put g x y v) x' y'
  = if decide (x' = x ∧ y' = y) then Some v else cell g x' y'.
Proof.
  intros Hwf [Hx Hy] [Hx' Hy'].
  destruct (grid_wf_row _ y Hwf Hy) as (row & Hrow & Hw).
  destruct (grid_wf_row _ y' Hwf Hy') as (row' & Hrow' & Hw').
  pose proof (put_wf g x y v Hwf) as [Hlen' _]. destruct Hwf as [Hlen _].
  unfold GRID_HEIGHT, GRID_WIDTH in *.
  unfold cell. rewrite !get_in_range by lia.
  unfold put. rewrite Hrow, Hrow'. simpl.
  destruct (decide (y' = y)) as [->|Hne].
  - rewrite list_lookup_insert_eq by lia. simpl.
    rewrite !get_in_range by (rewrite ?length_insert; lia).
    assert (row' = row) as -> by congruence.
    destruct (decide (x' = x)) as [->|Hnx].
    + rewrite list_lookup_insert_eq by lia. by rewrite decide_True.
    + rewrite list_lookup_insert_ne by lia. by rewrite decide_False by tauto.
  - rewrite list_lookup_insert_ne by lia. rewrite Hrow'. simpl.
    by rewrite decide_False by tauto.
Qed.

Lemma clear_at_wf g x y : grid_wf g → grid_wf (clear_at g x y).
Proof. intros Hwf. unfold clear_at. destruct (_ && _); [by apply put_wf|done]. Qed.

Lemma guarded_clear {B} x y (k : unit → M B) s :
  grid_wf (grid s) →
  ((if (0 <=? x) && (x <? GRID_WIDTH) && (0 <=? y) && (y <? GRID_HEIGHT)
    then grid_assign y x 0 else mret tt) ≫= k) s
  = k tt (set_grid (clear_at (grid s) x y) s).
Proof.
  intros Hwf. unfold clear_at. destruct (_ && _) eqn:E.
  - apply bind_ret, grid_assign_in_grid; [done|].
    repeat (apply andb_true_iff in E as [E ?]). unfold in_grid. lia.
  - by rewrite bind_mret, set_grid_id.
Qed.

Lemma explode_bomb_spec bomb_x bomb_y s :
  grid_wf (grid s) →
  explode_bomb bomb_x bomb_y s
  = (Ret tt,
     set_score (score s + 200 * Upgrades.score_multiplier (upgrades s))%Q
       (set_grid (bombed (grid s) bomb_x bomb_y) s)).
Proof.
  intros Hwf. unfold explode_bomb. cbn [for_each].
  repeat first
    [ rewrite bind_assoc
    | rewrite bind_mret
    | rewrite guarded_clear by (simpl; repeat apply clear_at_wf; done) ].
  by mrun.
Qed.

Lemma cell_clear_at g x y x' y' :
  grid_wf g → in_grid x' y' →
  cell (clear_at g x y) x' y'
  = if decide (x' = x ∧ y' = y) then Some 0 else cell g x' y'.
Proof.
  intros Hwf Hin. unfold clear_at. destruct (_ && _) eqn:E.
  - apply cell_put; [done| |done].
    repeat (apply andb_true_iff in E as [E ?]). unfold in_grid. lia.
  - rewrite decide_False; [done|]. intros [-> ->]. destruct Hin as [? ?].
    rewrite !andb_false_iff in E. lia.
Qed.

Lemma bombed_wf g bx by_ : grid_wf g → grid_wf (bombed g bx by_).
Proof. intros Hwf. unfold bombed. simpl. repeat apply clear_at_wf. done. Qed.

(** The bomb empties the 3x3 block around its centre and nothing else. *)
Lemma cell_bombed g bx by_ x y :
  grid_wf g → in_grid x y →
  cell (bombed g bx by_) x y
  = if decide (bx - 1 ≤ x ≤ bx + 1 ∧ by_ - 1 ≤ y ≤ by_ + 1)
    then Some 0 else cell g x y.
Proof.
  intros Hwf Hin. unfold bombed. simpl.
  repeat (rewrite cell_clear_at by (repeat apply clear_at_wf; done);
          destruct (decide (x = _ ∧ y = _)) as [[-> ->]|?];
          [rewrite decide_True by lia; done|]).
  rewrite decide_False; [done|lia].
Qed.

(** ** Locking *)

Lemma written_wf g cells v : grid_wf g → grid_wf (written g cells v).
Proof.
  unfold written. revert g.
  induction cells as [|[x y] cells IH]; intros g Hwf; [done|].
  simpl. apply IH. destruct (y >=? 0); [by apply put_wf|done].
Qed.

Lemma write_cells_spec cells v : ∀ s,
  grid_wf (grid s) →
  Forall (λ c, 0 ≤ c.1 < GRID_WIDTH ∧ c.2 < GRID_HEIGHT) cells →
  for_each cells (λ '(x, y),
    if y >=? 0 then grid_assign y x v else mret tt) s
  = (Ret tt, set_grid (written (grid s) cells v) s).
Proof.
  induction cells as [|[x y] cells IH]; intros s Hwf Hfit.
  - simpl. by rewrite set_grid_id.
  - apply Forall_cons in Hfit as [[Hx Hy] Hfit]. simpl in Hx, Hy.
    cbn [for_each]. unfold written. cbn [foldl].
    destruct (y >=? 0) eqn:E.
    + apply Z.geb_le in E.
      erewrite bind_ret by (apply grid_assign_in_grid; [done|split; lia]).
      rewrite IH; [done|by apply put_wf|done].
    + rewrite bind_mret. by apply IH.
Qed.

Lemma cell_written g cells v x y :
  grid_wf g → in_grid x y →
  Forall (λ c, 0 ≤ c.1 < GRID_WIDTH ∧ c.2 < GRID_HEIGHT) cells →
  cell (written g cells v) x y
  = if decide ((x, y) ∈ cells) then Some v else cell g x y.
Proof.
  unfold written. revert g.
  induction cells as [|[cx cy] cells IH]; intros g Hwf Hin Hfit.
  - cbn [foldl]. by rewrite decide_False by apply not_elem_of_nil.
  - apply Forall_cons in Hfit as [[Hx Hy] Hfit]. simpl in Hx, Hy.
    cbn [foldl]. destruct (decide ((x, y) ∈ cells)) as [Hc|Hc].
    + rewrite IH, decide_True; try done.
      * by apply elem_of_cons; right.
      * destruct (cy >=? 0); [by apply put_wf|done].
    + rewrite IH; try done.
      2:{ destruct (cy >=? 0); [by apply put_wf|done]. }
      destruct (decide ((x, y) = (cx, cy))) as [[= -> ->]|Hne].
      * rewrite decide_True by (by apply elem_of_cons; left).
        destruct Hin as [? ?].
        rewrite (proj2 (Z.geb_le _ _)) by lia.
        rewrite cell_put; [by rewrite decide_True|done|split; lia|split; lia].
      * rewrite decide_False
          by (intros [?|?]%elem_of_cons; [congruence|done]).
        destruct (cy >=? 0) eqn:E; [|done]. apply Z.geb_le in E.
        rewrite cell_put; [|done|split; lia|done].
        rewrite decide_False; [done|]. intros [-> ->]. done.
Qed.

Lemma settle_piece_spec s p :
  grid_wf (grid s) → current_piece s = Some p → fits p →
  settle_piece s = (Ret tt, settled s p).
Proof.
  intros Hwf Hp Hfit. unfold settle_piece, settled.
  rewrite bind_gets, Hp.
  erewrite bind_ret by (by apply write_cells_spec).
  destruct (Tetromino.is_bomb p); [|done].
  rewrite explode_bomb_spec by (by apply written_wf). done.
Qed.

Lemma lock_piece_settled r coin s p :
  grid_wf (grid s) → current_piece s = Some p → fits p →
  lock_piece r coin s = (clear_lines;; spawn_piece r coin) (settled s p).
Proof.
  intros Hwf Hp Hfit. unfold lock_piece.
  by erewrite bind_ret by (by apply settle_piece_spec).
Qed.

Lemma cell_Some_ok g x y c : grid_ok g → cell g x y = Some c → cell_ok c.
Proof.
  intros [_ Hrows] Hc. unfold cell in Hc.
  destruct (Py.get g y) as [row|] eqn:Hrow; [|done]. simpl in Hc.
  apply get_Some_elem_of in Hrow, Hc.
  rewrite Forall_forall in Hrows. destruct (Hrows row Hrow) as [_ Hcells].
  rewrite Forall_forall in Hcells. by apply Hcells.
Qed.

(** C10.  The three operations that write to the board keep it a grid of
    [GRID_HEIGHT] rows of [GRID_WIDTH] cells, each cell 0 or the index of a
    catalog shape plus one: [lock_piece] with a piece of the catalog
    (however the call ends), the bomb effect (which always returns) and
    [clear_lines] (however the call ends).  Hence every occupied cell of
    such a board leads back to a catalog shape. *)
Theorem board_writes_keep_grid_ok :
  (∀ s p r coin,
     grid_ok (grid s) → current_piece s = Some p →
     0 ≤ Tetromino.shape_index p < Z.of_nat (length SHAPES) →
     grid_ok (grid (lock_piece r coin s).2))
  ∧ (∀ s bomb_x bomb_y,
       grid_ok (grid s) →
       ∃ s', explode_bomb bomb_x bomb_y s = (Ret tt, s') ∧ grid_ok (grid s'))
  ∧ (∀ s, grid_ok (grid s) → grid_ok (grid (clear_lines s).2))
  ∧ (∀ g x y c,
       grid_ok g → cell g x y = Some c → c ≠ 0 →
       is_Some (Py.get SHAPES (c - 1))).
Proof.
  split; [|split; [|split]].
  - intros s p r coin Hg Hp Hidx. by eapply lock_piece_ok.
  - intros s bx by_ Hg. eexists. split.
    + by apply explode_bomb_spec, grid_ok_wf.
    + pose proof (explode_bomb_ok bx by_ s Hg) as H.
      by rewrite explode_bomb_spec in H by (by apply grid_ok_wf).
  - intros s Hg. by apply clear_lines_ok.
  - intros g x y c Hg Hc Hne.
    apply cell_Some_ok, cell_ok_range in Hc; [|done].
    rewrite get_in_range by (simpl; lia).
    apply lookup_lt_is_Some_2. simpl. lia.
Qed.

(** ** The bomb *)

Lemma cell_is_Some g x y : grid_wf g → in_grid x y → is_Some (cell g x y).
Proof.
  intros Hwf [Hx Hy]. destruct (grid_wf_row _ y Hwf Hy) as (row & Hrow & Hw).
  destruct Hwf as [Hlen _]. unfold GRID_HEIGHT, GRID_WIDTH in *.
  unfold cell. rewrite get_in_range, Hrow by lia. simpl.
  rewrite get_in_range by lia. apply lookup_lt_is_Some_2. lia.
Qed.

Lemma spawn_piece_score r coin c :
  preserves (λ s, score s = c) (spawn_piece r coin).
Proof.
  unfold spawn_piece, get_random_piece_from_deck, check_collision.
  preserves_auto.
Qed.

(** C6.  Locking a bomb piece that lies inside the walls: when
    [clear_lines] is called, the piece's cells have been written, then
    every cell of the board within one step of the piece's origin has been
    emptied and no other cell touched, and the score has gone up by exactly
    200 times the multiplier; line-clear points come on top of that.  With
    the origin at (5,5) on a board without an empty cell, the empty cells
    are then exactly those with [x] and [y] from 4 to 6. *)
Theorem bomb_empties_block_around_origin
    (s : t) (p : Tetromino.t) (r : nat) (coin : bool) :
  grid_wf (grid s) →
  current_piece s = Some p →
  fits p →
  Tetromino.is_bomb p = true →
  let g1 := written (grid s) (Tetromino.get_cells p)
              (Tetromino.shape_index p + 1) in
  let bonus := (200 * Upgrades.score_multiplier (upgrades s))%Q in
  ∃ s2,
    settle_piece s = (Ret tt, s2)
    ∧ lock_piece r coin s = (clear_lines;; spawn_piece r coin) s2
    ∧ (∀ x y, in_grid x y →
         cell (grid s2) x y
         = if decide (Tetromino.x p - 1 ≤ x ≤ Tetromino.x p + 1
                      ∧ Tetromino.y p - 1 ≤ y ≤ Tetromino.y p + 1)
           then Some 0 else cell g1 x y)
    ∧ (score s2 == score s + bonus)%Q
    ∧ (score (lock_piece r coin s).2
       == score s + bonus + (score (clear_lines s2).2 - score s2))%Q
    ∧ (Tetromino.x p = 5 → Tetromino.y p = 5 →
       Tetromino.shape_index p + 1 ≠ 0 →
       (∀ x y, in_grid x y → cell (grid s) x y ≠ Some 0) →
       ∀ x y, in_grid x y →
         cell (grid s2) x y = Some 0 ↔ 4 ≤ x ≤ 6 ∧ 4 ≤ y ≤ 6).
Proof.
  intros Hwf Hp Hfit Hbomb g1 bonus.
  assert (grid_wf g1) as Hwf1 by (by apply written_wf).
  assert (∀ x y, in_grid x y →
            cell (grid (settled s p)) x y
            = if decide (Tetromino.x p - 1 ≤ x ≤ Tetromino.x p + 1
                         ∧ Tetromino.y p - 1 ≤ y ≤ Tetromino.y p + 1)
              then Some 0 else cell g1 x y) as Hcells.
  { intros x y Hin. unfold settled. rewrite Hbomb. simpl.
    by apply cell_bombed. }
  assert (score (settled s p) = (score s + bonus)%Q) as Hscore.
  { unfold settled. by rewrite Hbomb. }
  exists (settled s p). split; [by apply settle_piece_spec|].
  split; [by apply lock_piece_settled|]. split; [done|].
  split; [by rewrite Hscore|]. split.
  - rewrite (lock_piece_settled r coin s p) by done.
    unfold mbind at 1, M_bind at 1.
    destruct (clear_lines (settled s p)) as [[[]|e] s3] eqn:E; simpl.
    + rewrite (spawn_piece_score r coin (score s3) s3 eq_refl).
      rewrite Hscore. ring.
    + rewrite Hscore. ring.
  - intros Hx Hy Hidx Hfull x y Hin. rewrite Hcells by done.
    rewrite Hx, Hy. case_decide as Hblock; [split; [lia|done]|].
    split; [|lia]. intros Hzero. exfalso.
    subst g1. rewrite cell_written in Hzero by done.
    case_decide; [congruence|]. by eapply Hfull.
Qed.

(** ** Collision tests and spawning *)

Lemma collides_total g dx dy cells :
  grid_wf g → is_Some (collides g dx dy cells).
Proof.
  intros Hwf. induction cells as [|[x y] cells IH]; [by eexists|].
  unfold collides; fold collides. cbn zeta.
  destruct (_ || _) eqn:E; [by eexists|].
  destruct (y + dy >=? 0) eqn:E2; [|done].
  apply Z.geb_le in E2. rewrite !orb_false_iff in E.
  destruct E as [[E0 E1] E3].
  rewrite Z.geb_leb in E1, E3. apply Z.leb_gt in E1, E3. apply Z.ltb_ge in E0.
  destruct (cell_is_Some g (x + dx) (y + dy) Hwf) as [c Hc]; [split; lia|].
  unfold cell in Hc.
  destruct (Py.get g (y + dy)) as [row|]; [|done]. simpl in *.
  rewrite Hc. simpl. destruct (Py.truthy c); [by eexists|done].
Qed.

Lemma check_collision_current dx dy s p :
  current_piece s = Some p →
  check_collision dx dy None s
  = (lift (collides (grid s) dx dy (Tetromino.get_cells p))) s.
Proof. intros Hp. unfold check_collision. by rewrite bind_gets, Hp, bind_gets. Qed.

Lemma init_catalog i x y :
  0 ≤ i < 7 →
  ∃ sh col, SHAPES !! Z.to_nat i = Some sh
            ∧ SHAPE_COLORS !! Z.to_nat i = Some col
            ∧ Tetromino.init i x y = Some (Tetromino.mk i sh col x y 0 false).
Proof.
  intros Hi. unfold Tetromino.init.
  rewrite !get_in_range by (simpl; lia).
  destruct (SHAPES !! Z.to_nat i) as [sh|] eqn:E1.
  2:{ apply lookup_ge_None in E1. simpl in E1. lia. }
  destruct (SHAPE_COLORS !! Z.to_nat i) as [col|] eqn:E2.
  2:{ apply lookup_ge_None in E2. simpl in E2. lia. }
  by exists sh, col.
Qed.

Lemma spawn_piece_after_draw r coin s v s1 q0 hit :
  get_random_piece_from_deck r s = (Ret v, s1) →
  Tetromino.init (next_piece_index s) (GRID_WIDTH `div` 2 - 1) 0 = Some q0 →
  upgrades s1 = upgrades s →
  collides (grid s1) 0 0
    (Tetromino.get_cells
       (Tetromino.set_is_bomb (Upgrades.bomb_piece (upgrades s) && coin) q0))
  = Some hit →
  spawn_piece r coin s
  = (Ret tt,
     let s2 :=
       set_can_hold true
         (set_current_piece
            (Some (Tetromino.set_is_bomb
                     (Upgrades.bomb_piece (upgrades s) && coin) q0))
            (set_next_piece_index v s1)) in
     if hit then set_state GAME_OVER (set_game_over true s2) else s2).
Proof.
  intros Hdraw Hinit Hup Hhit. unfold spawn_piece.
  rewrite bind_gets, (bind_ret _ _ _ _ _ Hdraw). mrun. simpl.
  rewrite Hup, Hinit.
  destruct (Upgrades.bomb_piece (upgrades s) && coin);
    rewrite !bind_assoc; mrun;
    (erewrite bind_ret;
     [|erewrite check_collision_current by reflexivity;
       simpl; by rewrite Hhit]);
    by destruct hit.
Qed.

Lemma spawn_piece_spec r coin s :
  grid_wf (grid s) →
  0 ≤ next_piece_index s < 7 →
  ∃ v q0 hit,
    (get_random_piece_from_deck r s).1 = Ret v
    ∧ Tetromino.init (next_piece_index s) (GRID_WIDTH `div` 2 - 1) 0 = Some q0
    ∧ let q := Tetromino.set_is_bomb
                 (Upgrades.bomb_piece (upgrades s) && coin) q0 in
      collides (grid s) 0 0 (Tetromino.get_cells q) = Some hit
      ∧ spawn_piece r coin s = (Ret tt, spawned s v q hit).
Proof.
  intros Hwf Hidx.
  destruct (draw_spec r s) as (v & s1 & Hdraw & Hs1 & _).
  destruct (init_catalog (next_piece_index s) (GRID_WIDTH `div` 2 - 1) 0 Hidx)
    as (sh & col & _ & _ & Hinit).
  assert (upgrades s1 = upgrades s ∧ grid s1 = grid s) as [Hup Hgrid]
    by (subst s1; by destruct (piece_deck s)).
  destruct (collides_total (grid s) 0 0
              (Tetromino.get_cells
                 (Tetromino.set_is_bomb
                    (Upgrades.bomb_piece (upgrades s) && coin)
                    (Tetromino.mk (next_piece_index s) sh col
                       (GRID_WIDTH `div` 2 - 1) 0 0 false))) Hwf)
    as [hit Hhit].
  eexists v, _, hit. rewrite Hdraw. split; [done|]. split; [done|].
  split; [done|].
  rewrite (spawn_piece_after_draw r coin s v s1 _ hit Hdraw Hinit Hup)
    by (by rewrite Hgrid).
  unfold spawned. by rewrite Hs1.
Qed.

(** ** Hold *)

Lemma hold_piece_disabled r coin s :
  Upgrades.hold_piece (upgrades s) && can_hold s = false →
  hold_piece r coin s = (Ret tt, s).
Proof.
  intros H. unfold hold_piece. rewrite bind_gets.
  destruct (current_piece s); [|done]. mrun. by rewrite H.
Qed.

Lemma move_can_hold dx dy : preserves (λ s, can_hold s = false) (move dx dy).
Proof. unfold move, check_collision. preserves_auto. Qed.

Lemma try_kicks_can_hold kicks :
  preserves (λ s, can_hold s = false) (try_kicks kicks).
Proof.
  induction kicks as [|k kicks IH]; simpl; [preserves_auto|].
  unfold check_collision. preserves_auto.
Qed.

#[global] Hint Resolve move_can_hold try_kicks_can_hold : pres.

Lemma non_locking_can_hold c :
  non_locking c → preserves (λ s, can_hold s = false) (run_command c).
Proof.
  destruct c; try done; intros _; simpl.
  - preserves_auto.
  - unfold rotate_piece, check_collision. preserves_auto.
  - intros s Hs. rewrite hold_piece_disabled; [done|].
    rewrite Hs. apply andb_false_r.
  - unfold update. preserves_auto.
Qed.

(** C7.  [hold_piece] does nothing unless holding is enabled and
    [can_hold] is set.  With both set and a piece falling: on an empty slot
    the piece's shape index is stored and a fresh piece is spawned from the
    pre-drawn index; on an occupied slot the stored index and the piece's
    index are exchanged, the piece takes the catalog geometry of its new
    index and goes back to the spawn position.  Either way [can_hold] is
    false afterwards and stays so over moves, rotations and ticks, so a
    further hold before the next lock does nothing. *)
Theorem hold_piece_behaviour (s : t) (p : Tetromino.t) (r : nat) (coin : bool) :
  (Upgrades.hold_piece (upgrades s) && can_hold s = false →
   hold_piece r coin s = (Ret tt, s))
  ∧ (current_piece s = Some p →
     Upgrades.hold_piece (upgrades s) = true → can_hold s = true →
     (held_piece s = None →
      grid_wf (grid s) → 0 ≤ next_piece_index s < 7 →
      ∃ s' q,
        hold_piece r coin s = (Ret tt, s')
        ∧ held_piece s' = Some (Tetromino.shape_index p)
        ∧ Tetromino.init (next_piece_index s) 4 0 = Some q
        ∧ current_piece s'
          = Some (Tetromino.set_is_bomb
                    (Upgrades.bomb_piece (upgrades s) && coin) q)
        ∧ can_hold s' = false)
     ∧ (∀ h, held_piece s = Some h → 0 ≤ h < 7 →
        ∃ s' sh col,
          hold_piece r coin s = (Ret tt, s')
          ∧ held_piece s' = Some (Tetromino.shape_index p)
          ∧ SHAPES !! Z.to_nat h = Some sh
          ∧ current_piece s'
            = Some (Tetromino.mk h sh col 4 0 (Tetromino.rotation p)
                      (Tetromino.is_bomb p))
          ∧ can_hold s' = false)
     ∧ (∀ s' cs r' coin',
          hold_piece r coin s = (Ret tt, s') →
          Forall non_locking cs →
          let s'' := (for_each cs run_command s').2 in
          can_hold s' = false ∧ hold_piece r' coin' s'' = (Ret tt, s''))).
Proof.
  split; [apply hold_piece_disabled|].
  intros Hp Hen Hcan.
  assert (∀ s', hold_piece r coin s = (Ret tt, s') → can_hold s' = false)
    as Hafter.
  { unfold hold_piece. rewrite bind_gets, Hp. mrun. rewrite Hen, Hcan.
    cbn [andb]. intros s' [s1 ->]%then_modify_inv. done. }
  split; [|split].
  - intros Hheld Hwf Hidx. unfold hold_piece.
    rewrite bind_gets, Hp. mrun. rewrite Hen, Hcan. cbn [andb].
    rewrite bind_gets, Hheld, bind_assoc. mrun.
    destruct (spawn_piece_spec r coin
                (set_held_piece (Some (Tetromino.shape_index p)) s))
      as (v & q0 & hit & _ & Hinit & Hhit & Hspawn); [done..|].
    rewrite (bind_ret _ _ _ _ _ Hspawn). mrun.
    eexists _, q0. split; [done|]. unfold spawned.
    by destruct hit, (piece_deck _).
  - intros h Hheld Hh. unfold hold_piece.
    rewrite bind_gets, Hp. mrun. rewrite Hen, Hcan. cbn [andb].
    rewrite bind_gets, Hheld. rewrite !bind_assoc. mrun.
    destruct (init_catalog h 0 0 Hh) as (sh & col & Hsh & Hcol & _).
    rewrite !get_in_range by (simpl; lia). rewrite Hsh, Hcol. mrun.
    eexists _, sh, col. split; [done|]. simpl. by rewrite Hp.
  - intros s' cs r' coin' Hs' Hcs s''.
    split; [by apply Hafter|].
    apply hold_piece_disabled.
    assert (can_hold s'' = false) as ->; [|apply andb_false_r].
    subst s''. apply (preserves_for_each_Forall (λ s, can_hold s = false));
      [|by apply Hafter].
    eapply Forall_impl; [done|]. apply non_locking_can_hold.
Qed.

(** ** Rotation *)

(** The rotation is a quarter turn clockwise: on a rectangular shape of
    [h] rows and [w] columns the result has [w] rows, and its entry in row
    [i], column [j] is the old entry in row [h - 1 - j], column [i]. *)

Lemma zip_star_length {A} (rows : list (list A)) w :
  rows ≠ [] → Forall (λ r, length r = w) rows →
  length (Py.zip_star rows) = w.
Proof.
  induction rows as [|r rows IH]; [done|]. intros _ Hrows.
  apply Forall_cons in Hrows as [Hr Hrows].
  destruct rows as [|r' rows].
  - simpl. by rewrite length_fmap.
  - change (Py.zip_star (r :: r' :: rows))
      with (zip_with cons r (Py.zip_star (r' :: rows))).
    rewrite length_zip_with, IH, Hr by done. lia.
Qed.

Lemma zip_star_lookup {A} (rows : list (list A)) w i j :
  rows ≠ [] → Forall (λ r, length r = w) rows →
  Py.zip_star rows !! i ≫= (.!! j) = rows !! j ≫= (.!! i).
Proof.
  revert j. induction rows as [|r rows IH]; [done|]. intros j _ Hrows.
  apply Forall_cons in Hrows as [Hr Hrows].
  destruct rows as [|r' rows].
  - simpl. rewrite list_lookup_fmap.
    destruct (r !! i) as [a|] eqn:E; simpl; by destruct j.
  - assert (length (Py.zip_star (r' :: rows)) = w) as Hlen
      by (by apply zip_star_length).
    specialize (IH (pred j) ltac:(done) Hrows).
    change (Py.zip_star (r :: r' :: rows))
      with (zip_with cons r (Py.zip_star (r' :: rows))).
    rewrite lookup_zip_with.
    destruct (decide (i < w)%nat) as [Hi|Hi].
    + destruct (lookup_lt_is_Some_2 r i) as [a Ha]; [lia|].
      destruct (lookup_lt_is_Some_2 (Py.zip_star (r' :: rows)) i)
        as [col Hcol]; [lia|].
      rewrite Ha, Hcol in *. simpl in *.
      destruct j as [|j]; simpl in *; [by rewrite Ha|done].
    + rewrite (lookup_ge_None_2 r i) by lia. simpl.
      rewrite (lookup_ge_None_2 _ i) in IH by lia. simpl in IH.
      destruct j as [|j]; simpl in *; [|done].
      by rewrite (lookup_ge_None_2 r i) by lia.
Qed.

Lemma rotate_shape_clockwise (sh : list (list Z)) h w :
  length sh = h → (0 < h)%nat → Forall (λ r, length r = w) sh →
  length (Tetromino.rotate_shape sh) = w
  ∧ ∀ i j, (j < h)%nat →
      Tetromino.rotate_shape sh !! i ≫= (.!! j)
      = sh !! (h - 1 - j)%nat ≫= (.!! i).
Proof.
  intros Hh Hpos Hrows. unfold Tetromino.rotate_shape.
  assert (reverse sh ≠ []) as Hne.
  { intros Hnil. apply (f_equal length) in Hnil.
    rewrite length_reverse in Hnil. simpl in Hnil. lia. }
  assert (Forall (λ r, length r = w) (reverse sh)) as Hrev
    by (by apply Forall_reverse).
  split; [by apply zip_star_length|]. intros i j Hj.
  rewrite (zip_star_lookup _ w) by done.
  rewrite reverse_lookup by lia. rewrite Hh.
  by replace (h - S j)%nat with (h - 1 - j)%nat by lia.
Qed.

Section rotation.
Context (s : t) (q : Tetromino.t).

Lemma check_collision_hit dx b :
  collides (grid s) dx 0 (Tetromino.get_cells q) = Some b →
  check_collision dx 0 None (set_current_piece (Some q) s)
  = (Ret b, set_current_piece (Some q) s).
Proof.
  intros Hb. rewrite (check_collision_current _ _ _ q) by done.
  simpl. by rewrite Hb.
Qed.

(** The kick loop stops at the first offset that is free. *)
Lemma try_kicks_first pre k post :
  Forall (λ k', collides (grid s) k' 0 (Tetromino.get_cells q) = Some true)
    pre →
  collides (grid s) k 0 (Tetromino.get_cells q) = Some false →
  try_kicks (pre ++ k :: post) (set_current_piece (Some q) s)
  = (Ret true,
     set_current_piece (Some (Tetromino.set_x (Tetromino.x q + k) q)) s).
Proof.
  intros Hpre Hk. induction Hpre as [|k' pre Hk' _ IH]; simpl.
  - rewrite (bind_ret _ _ _ _ _ (check_collision_hit k false Hk)). by mrun.
  - by rewrite (bind_ret _ _ _ _ _ (check_collision_hit k' true Hk')).
Qed.

Lemma try_kicks_none kicks :
  Forall (λ k, collides (grid s) k 0 (Tetromino.get_cells q) = Some true)
    kicks →
  try_kicks kicks (set_current_piece (Some q) s)
  = (Ret false, set_current_piece (Some q) s).
Proof.
  induction 1 as [|k kicks Hk _ IH]; simpl; [done|].
  by rewrite (bind_ret _ _ _ _ _ (check_collision_hit k true Hk)).
Qed.

End rotation.

Lemma rotate_piece_cases (s : t) (p : Tetromino.t) :
  grid_wf (grid s) →
  current_piece s = Some p →
  let q := Tetromino.rotate p in
  let hit dx := collides (grid s) dx 0 (Tetromino.get_cells q) in
  Tetromino.shape q = Py.zip_star (reverse (Tetromino.shape p))
  ∧ (hit 0 = Some false →
     rotate_piece s = (Ret tt, set_current_piece (Some q) s))
  ∧ (hit 0 = Some true →
     ∀ pre k post,
       [1; -1; 2; -2] = pre ++ k :: post →
       Forall (λ k', hit k' = Some true) pre →
       hit k = Some false →
       rotate_piece s
       = (Ret tt,
          set_current_piece
            (Some (Tetromino.set_x (Tetromino.x p + k) q)) s))
  ∧ (hit 0 = Some true →
     Forall (λ k, hit k = Some true) [1; -1; 2; -2] →
     rotate_piece s = (Ret tt, set_current_piece (Some p) s))
  ∧ (∃ p',
       rotate_piece s = (Ret tt, set_current_piece (Some p') s)
       ∧ (p' = p
          ∨ (p' = q ∧ hit 0 = Some false)
          ∨ ∃ k, k ∈ [1; -1; 2; -2] ∧ hit 0 = Some true ∧ hit k = Some false
                 ∧ p' = Tetromino.set_x (Tetromino.x p + k) q)).
Proof.
  intros Hwf Hp q hit.
  assert (∀ b, hit 0 = Some b →
            rotate_piece s
            = (if b then
                 returned ← try_kicks [1; -1; 2; -2];
                 if returned : bool then mret tt
                 else modify_piece (Tetromino.set_shape (Tetromino.shape p))
               else mret tt) (set_current_piece (Some q) s)) as Hstart.
  { intros b Hb. unfold rotate_piece. rewrite bind_gets, Hp. mrun.
    by rewrite (bind_ret _ _ _ _ _ (check_collision_hit s q 0 b Hb)). }
  assert (hit 0 = Some false →
          rotate_piece s = (Ret tt, set_current_piece (Some q) s)) as Hfree.
  { intros H0. by rewrite (Hstart false). }
  assert (hit 0 = Some true →
          ∀ pre k post,
            [1; -1; 2; -2] = pre ++ k :: post →
            Forall (λ k', hit k' = Some true) pre →
            hit k = Some false →
            rotate_piece s
            = (Ret tt,
               set_current_piece
                 (Some (Tetromino.set_x (Tetromino.x p + k) q)) s)) as Hkick.
  { intros H0 pre k post Hkicks Hpre Hk.
    rewrite (Hstart true), Hkicks by done.
    by rewrite (bind_ret _ _ _ _ _ (try_kicks_first s q pre k post Hpre Hk)). }
  assert (hit 0 = Some true →
          Forall (λ k, hit k = Some true) [1; -1; 2; -2] →
          rotate_piece s = (Ret tt, set_current_piece (Some p) s)) as Hrevert.
  { intros H0 Hall. rewrite (Hstart true) by done.
    rewrite (bind_ret _ _ _ _ _ (try_kicks_none s q _ Hall)). mrun. simpl.
    by destruct p. }
  split; [done|]. split; [done|]. split; [done|]. split; [done|].
  destruct (collides_total (grid s) 0 0 (Tetromino.get_cells q) Hwf)
    as [[] H0]; fold (hit 0) in H0.
  2:{ eexists. split; [by apply Hfree|]. auto. }
  destruct (collides_total (grid s) 1 0 (Tetromino.get_cells q) Hwf)
    as [[] H1]; fold (hit 1) in H1.
  2:{ eexists. split; [by apply (Hkick H0 [] 1 [-1; 2; -2])|].
      right. right. exists 1. set_solver. }
  destruct (collides_total (grid s) (-1) 0 (Tetromino.get_cells q) Hwf)
    as [[] H2]; fold (hit (-1)) in H2.
  2:{ eexists. split; [apply (Hkick H0 [1] (-1) [2; -2]); by auto|].
      right. right. exists (-1). set_solver. }
  destruct (collides_total (grid s) 2 0 (Tetromino.get_cells q) Hwf)
    as [[] H3]; fold (hit 2) in H3.
  2:{ eexists. split; [apply (Hkick H0 [1; -1] 2 [-2]); by auto|].
      right. right. exists 2. set_solver. }
  destruct (collides_total (grid s) (-2) 0 (Tetromino.get_cells q) Hwf)
    as [[] H4]; fold (hit (-2)) in H4.
  2:{ eexists. split; [apply (Hkick H0 [1; -1; 2] (-2) []); by auto|].
      right. right. exists (-2). set_solver. }
  eexists. split; [apply Hrevert; by auto|]. auto.
Qed.

(** C2.  [rotate_piece] on a piece [p]: the geometry becomes the rotated
    one (rows reversed, then transposed), which for a rectangular shape is
    the quarter turn clockwise.  If that does not collide in place,
    nothing else changes.  If it does, the offsets 1, -1, 2, -2 are
    tried in this order and the first one that does not collide is added
    to [x]; if all four collide the piece is exactly as before.  In every
    case [y] is unchanged and [x] changes only by a kick that succeeded. *)
Theorem rotate_piece_wall_kicks (s : t) (p : Tetromino.t) :
  grid_wf (grid s) →
  current_piece s = Some p →
  let q := Tetromino.rotate p in
  let hit dx := collides (grid s) dx 0 (Tetromino.get_cells q) in
  Tetromino.shape q = Py.zip_star (reverse (Tetromino.shape p))
  ∧ (∀ h w,
       length (Tetromino.shape p) = h → (0 < h)%nat →
       Forall (λ row, length row = w) (Tetromino.shape p) →
       length (Tetromino.shape q) = w
       ∧ ∀ i j, (j < h)%nat →
           Tetromino.shape q !! i ≫= (.!! j)
           = Tetromino.shape p !! (h - 1 - j)%nat ≫= (.!! i))
  ∧ (hit 0 = Some false →
     rotate_piece s = (Ret tt, set_current_piece (Some q) s))
  ∧ (hit 0 = Some true →
     ∀ pre k post,
       [1; -1; 2; -2] = pre ++ k :: post →
       Forall (λ k', hit k' = Some true) pre →
       hit k = Some false →
       rotate_piece s
       = (Ret tt,
          set_current_piece
            (Some (Tetromino.set_x (Tetromino.x p + k) q)) s))
  ∧ (hit 0 = Some true →
     Forall (λ k, hit k = Some true) [1; -1; 2; -2] →
     rotate_piece s = (Ret tt, set_current_piece (Some p) s))
  ∧ (∃ s' p',
       rotate_piece s = (Ret tt, s')
       ∧ current_piece s' = Some p'
       ∧ grid s' = grid s
       ∧ Tetromino.y p' = Tetromino.y p
       ∧ (Tetromino.x p' = Tetromino.x p
          ∨ ∃ k, k ∈ [1; -1; 2; -2] ∧ hit 0 = Some true ∧ hit k = Some false
                 ∧ Tetromino.x p' = Tetromino.x p + k)).
Proof.
  intros Hwf Hp q hit.
  destruct (rotate_piece_cases s p Hwf Hp) as (H1 & H2 & H3 & H4 & p' & H5 & H6).
  split; [done|]. split; [apply rotate_shape_clockwise|].
  split; [done|]. split; [done|]. split; [done|].
  exists (set_current_piece (Some p') s), p'.
  split; [done|]. split; [done|]. split; [done|].
  destruct H6 as [->|[[-> _]|(k & Hk & H0 & Hfree & ->)]]; simpl; auto.
  split; [done|]. right. by exists k.
Qed.

(** ** The session invariant *)

Lemma Inv_ext s s' :
  grid s' = grid s →
  current_piece s' = current_piece s →
  next_piece_index s' = next_piece_index s →
  piece_deck s' = piece_deck s →
  held_piece s' = held_piece s →
  pack_contents s' = pack_contents s →
  Inv s → Inv s'.
Proof.
  intros Hg Hp Hn Hd Hh Hk [? ? ? ? ? ? ?].
  split; rewrite ?Hg, ?Hp, ?Hn, ?Hd, ?Hh, ?Hk; done.
Qed.

Lemma orientations_rotate sh :
  sh ∈ orientations → Tetromino.rotate_shape sh ∈ orientations.
Proof.
  revert sh. apply Forall_forall.
  apply (bool_decide_unpack _). by vm_compute.
Qed.

Lemma row_cells_length px py col row px' py' col' :
  length (Tetromino.row_cells px py col row)
  = length (Tetromino.row_cells px' py' col' row).
Proof.
  revert col col'. induction row as [|c row IH]; intros col col'; [done|].
  simpl. rewrite !length_app. rewrite (IH (col + 1) (col' + 1)).
  by destruct (Py.truthy c).
Qed.

Lemma shape_cells_length px py r sh px' py' r' :
  length (Tetromino.shape_cells px py r sh)
  = length (Tetromino.shape_cells px' py' r' sh).
Proof.
  revert r r'. induction sh as [|row sh IH]; intros r r'; [done|].
  simpl. rewrite !length_app. rewrite (IH (r + 1) (r' + 1)).
  by rewrite (row_cells_length px (py + r) 0 row px' (py' + r') 0).
Qed.

(** Every geometry has four cells. *)
Lemma orientations_four_cells p :
  Tetromino.shape p ∈ orientations → length (Tetromino.get_cells p) = 4%nat.
Proof.
  unfold Tetromino.get_cells.
  rewrite (shape_cells_length _ _ _ _ 0 0 0).
  generalize (Tetromino.shape p). apply Forall_forall.
  apply (bool_decide_unpack _). by vm_compute.
Qed.

Lemma row_cells_shift px py col row dx dy :
  Tetromino.row_cells (px + dx) (py + dy) col row
  = (λ c, (c.1 + dx, c.2 + dy)) <$> Tetromino.row_cells px py col row.
Proof.
  revert col. induction row as [|c row IH]; intros col; [done|].
  simpl. rewrite fmap_app, IH. f_equal.
  destruct (Py.truthy c); [|done]. simpl. do 2 f_equal. lia.
Qed.

Lemma shape_cells_shift px py r sh dx dy :
  Tetromino.shape_cells (px + dx) (py + dy) r sh
  = (λ c, (c.1 + dx, c.2 + dy)) <$> Tetromino.shape_cells px py r sh.
Proof.
  revert r. induction sh as [|row sh IH]; intros r; [done|].
  simpl. rewrite fmap_app, IH. f_equal.
  replace (py + dy + r) with (py + r + dy) by lia.
  apply row_cells_shift.
Qed.

Lemma collides_false_fits g dx dy cells :
  collides g dx dy cells = Some false →
  Forall (λ c, 0 ≤ c.1 + dx < GRID_WIDTH ∧ c.2 + dy < GRID_HEIGHT) cells.
Proof.
  induction cells as [|[x y] cells IH]; [done|].
  unfold collides; fold collides. cbn zeta.
  destruct (_ || _) eqn:E; [done|].
  rewrite !orb_false_iff in E. destruct E as [[E0 E1] E3].
  rewrite Z.geb_leb in E1, E3. apply Z.leb_gt in E1, E3. apply Z.ltb_ge in E0.
  intros H. apply Forall_cons. split; [simpl; lia|]. apply IH.
  destruct (y + dy >=? 0); [|done].
  destruct (Py.get g (y + dy)) as [row|]; [|done]. simpl in H.
  destruct (Py.get row (x + dx)) as [c|]; [|done]. simpl in H.
  by destruct (Py.truthy c).
Qed.

(** A catalog shape at the spawn position. *)
Lemma catalog_at_spawn i sh :
  SHAPES !! i = Some sh →
  sh ∈ orientations
  ∧ Forall (λ c, 0 ≤ c.1 < GRID_WIDTH ∧ c.2 < GRID_HEIGHT)
      (Tetromino.shape_cells (GRID_WIDTH `div` 2 - 1) 0 0 sh).
Proof.
  intros Hsh. apply list_elem_of_lookup_2 in Hsh. revert sh Hsh.
  apply Forall_forall. repeat apply Forall_cons_2; try apply Forall_nil_2;
    (split; [apply (bool_decide_unpack _); by vm_compute|]);
    repeat apply Forall_cons_2; try apply Forall_nil_2;
    by vm_compute.
Qed.

(** ** How many rows a lock can fill *)

Lemma full_count_cons row g :
  full_count (row :: g)
  = ((if decide (full row) then 1 else 0) + full_count g)%nat.
Proof.
  unfold full_count. rewrite filter_cons. by destruct (decide (full row)).
Qed.

Lemma full_count_insert g i row :
  (full_count (<[i := row]> g) ≤ S (full_count g))%nat
  ∧ (¬ full row → full_count (<[i := row]> g) ≤ full_count g)%nat.
Proof.
  revert i. induction g as [|r g IH]; intros i.
  { destruct i; unfold full_count; simpl; lia. }
  destruct i as [|i]; simpl; rewrite !full_count_cons.
  - split; [|intros Hn]; repeat case_decide; (lia || done).
  - destruct (IH i) as [IH1 IH2].
    split; [|intros Hn; specialize (IH2 Hn)]; case_decide; lia.
Qed.

Lemma full_count_put g x y v :
  (full_count (put g x y v) ≤ S (full_count g))%nat.
Proof.
  unfold put. destruct (g !! Z.to_nat y); [|lia]. apply full_count_insert.
Qed.

Lemma full_count_written g cells v :
  (full_count (written g cells v) ≤ full_count g + length cells)%nat.
Proof.
  unfold written. revert g.
  induction cells as [|[x y] cells IH]; intros g; [simpl; lia|].
  cbn [foldl length]. etrans; [apply IH|].
  destruct (y >=? 0); [|lia]. pose proof (full_count_put g x y v). lia.
Qed.

Lemma insert_zero_not_full (row : list Z) i :
  (i < length row)%nat → ¬ full (<[i := 0]> row).
Proof.
  intros Hi Hfull. unfold full, Py.all in Hfull.
  rewrite forallb_forall in Hfull.
  specialize (Hfull 0). unfold Py.truthy in Hfull. simpl in Hfull.
  assert (false = true); [|done]. apply Hfull.
  apply list_elem_of_In, list_elem_of_lookup. exists i.
  by apply list_lookup_insert_eq.
Qed.

Lemma full_count_clear_at g x y :
  grid_wf g → (full_count (clear_at g x y) ≤ full_count g)%nat.
Proof.
  intros Hwf. unfold clear_at. destruct (_ && _) eqn:E; [|lia].
  repeat (apply andb_true_iff in E as [E ?]).
  destruct (grid_wf_row g y Hwf) as (row & Hrow & Hw); [lia|].
  unfold put. rewrite Hrow. apply full_count_insert.
  apply insert_zero_not_full. unfold GRID_WIDTH in *. lia.
Qed.

Lemma full_count_bombed g bx by_ :
  grid_wf g → (full_count (bombed g bx by_) ≤ full_count g)%nat.
Proof.
  intros Hwf. unfold bombed. simpl.
  repeat (etrans; [apply full_count_clear_at; repeat apply clear_at_wf; done|]).
  done.
Qed.

(** A lock fills at most as many rows as the piece has cells. *)
Lemma full_count_settled s p :
  grid_wf (grid s) →
  (full_count (grid (settled s p))
   ≤ full_count (grid s) + length (Tetromino.get_cells p))%nat.
Proof.
  intros Hwf. unfold settled.
  destruct (Tetromino.is_bomb p); simpl; [|apply full_count_written].
  etrans; [apply full_count_bombed; by apply written_wf|].
  apply full_count_written.
Qed.

(** ** Methods that return and keep the invariant *)

Lemma returns_bind {A B} P Q R (m : M A) (f : A → M B) :
  returns P m Q → (∀ a, returns (Q a) (f a) R) → returns P (m ≫= f) R.
Proof.
  intros Hm Hf s Hs. destruct (Hm s Hs) as (a & s1 & Hrun & Hq).
  destruct (Hf a s1 Hq) as (b & s2 & Hrun2 & Hr).
  exists b, s2. split; [|done]. by rewrite (bind_ret _ _ _ _ _ Hrun).
Qed.

Lemma keeps_bind {A B} (m : M A) (f : A → M B) :
  keeps m → (∀ a, keeps (f a)) → keeps (m ≫= f).
Proof. intros Hm Hf. by eapply returns_bind. Qed.

Lemma keeps_mret {A} (a : A) : keeps (mret a).
Proof. intros s Hs. by exists a, s. Qed.

Lemma keeps_gets {A} (f : t → A) : keeps (gets f).
Proof. intros s Hs. by exists (f s), s. Qed.

Lemma keeps_modify (f : t → t) : (∀ s, Inv s → Inv (f s)) → keeps (modify f).
Proof. intros Hf s Hs. exists tt, (f s). split; [done|]. by apply Hf. Qed.

Lemma keeps_for_each {A} (l : list A) (body : A → M unit) :
  (∀ a, keeps (body a)) → keeps (for_each l body).
Proof.
  intros Hbody. induction l as [|a l IH]; simpl; [apply keeps_mret|].
  apply keeps_bind; [apply Hbody|by intros _].
Qed.

(** The draw returns a shape of the catalog. *)
Lemma draw_returns r :
  returns Inv (get_random_piece_from_deck r) (λ v s, Inv s ∧ shape_id_ok v).
Proof.
  intros s Hs.
  destruct (draw_spec r s) as (v & s' & Hrun & -> & Hv).
  eexists v, _. split; [done|].
  assert (Forall shape_id_ok [0; 1; 2; 3; 4; 5; 6]) as Hfull.
  { repeat apply Forall_cons_2; try apply Forall_nil_2;
      unfold shape_id_ok; simpl; lia. }
  pose proof (inv_deck s Hs) as Hd.
  destruct (piece_deck s) as [|c deck] eqn:Hdeck; simpl in Hv.
  - split.
    + destruct Hs. by split.
    + rewrite Forall_forall in Hfull. by apply Hfull.
  - split; [done|]. rewrite Hdeck in Hv.
    rewrite Forall_forall in Hd. by apply Hd.
Qed.

Lemma keeps_bind_draw {B} r (f : Z → M B) :
  (∀ v, shape_id_ok v → keeps (f v)) →
  keeps (get_random_piece_from_deck r ≫= f).
Proof.
  intros Hf. eapply returns_bind; [apply draw_returns|].
  intros v s [Hs Hv]. by apply Hf.
Qed.

Create HintDb keeps discriminated.

Ltac inv_ext := eapply Inv_ext; [..|eassumption]; reflexivity.

Ltac keeps_step :=
  first
    [ solve [auto with keeps nocore]
    | lazymatch goal with
      | |- keeps (mret _) => apply keeps_mret
      | |- keeps (gets _) => apply keeps_gets
      | |- keeps (mbind _ (get_random_piece_from_deck _)) =>
          apply keeps_bind_draw; intros ? ?
      | |- keeps (mbind _ _) => apply keeps_bind; [|intros ?]
      | |- keeps (for_each _ _) => apply keeps_for_each; intros ?
      | |- keeps (modify _) =>
          apply keeps_modify; intros ? ?; try inv_ext
      | |- keeps (if ?b then _ else _) => destruct b
      | |- keeps (match ?x with _ => _ end) => destruct x
      end ].

Ltac keeps_auto := repeat keeps_step.

Lemma empty_grid_ok : grid_ok empty_grid ∧ full_count empty_grid = 0%nat.
Proof.
  split; [|by vm_compute]. split; [done|].
  apply Forall_replicate, empty_row_ok.
Qed.

Lemma Inv_set_grid_empty s : Inv s → Inv (set_grid empty_grid s).
Proof. intros []. destruct empty_grid_ok. by split. Qed.

Lemma Inv_set_piece s q :
  Inv s → piece_ok q → Inv (set_current_piece (Some q) s).
Proof. intros [] Hq. split; try done. simpl. by intros p [= <-]. Qed.

Lemma Inv_set_next s v :
  Inv s → shape_id_ok v → Inv (set_next_piece_index v s).
Proof. intros [] Hv. by split. Qed.

Lemma Inv_grid_wf s : Inv s → grid_wf (grid s).
Proof. intros []. by apply grid_ok_wf. Qed.

Lemma piece_ok_spawned i q b :
  shape_id_ok i →
  Tetromino.init i (GRID_WIDTH `div` 2 - 1) 0 = Some q →
  piece_ok (Tetromino.set_is_bomb b q).
Proof.
  intros Hi Hq.
  destruct (init_catalog i (GRID_WIDTH `div` 2 - 1) 0 Hi)
    as (sh & col & Hsh & _ & Hinit).
  rewrite Hq in Hinit. injection Hinit as ->.
  destruct (catalog_at_spawn _ _ Hsh) as [Ho Hfit]. by split.
Qed.

Lemma spawn_piece_keeps r coin : keeps (spawn_piece r coin).
Proof.
  intros s Hs.
  destruct (spawn_piece_spec r coin s) as (v & q & hit & Hv & Hq & _ & Hrun);
    [by apply Inv_grid_wf|exact (inv_next s Hs)|].
  eexists tt, _. split; [done|].
  destruct (draw_returns r s Hs) as (v' & s1 & Hdraw & Hs1 & Hv').
  rewrite Hdraw in Hv. injection Hv as ->.
  destruct (draw_spec r s) as (v'' & s1' & Hdraw' & Hs1' & _).
  rewrite Hdraw in Hdraw'. injection Hdraw' as <- <-.
  unfold spawned. rewrite <- Hs1'.
  assert (Inv (set_can_hold true
                 (set_current_piece
                    (Some (Tetromino.set_is_bomb
                             (Upgrades.bomb_piece (upgrades s) && coin) q))
                    (set_next_piece_index v s1)))) as Hinv.
  { eapply (Inv_ext (set_current_piece _ _)); [reflexivity..|].
    apply Inv_set_piece; [by apply Inv_set_next|].
    eapply piece_ok_spawned; [exact (inv_next s Hs)|done]. }
  destruct hit; [|done]. eapply Inv_ext; [..|exact Hinv]; reflexivity.
Qed.

#[global] Hint Resolve spawn_piece_keeps : keeps.

Lemma fits_shifted g p p' dx dy :
  Tetromino.shape p' = Tetromino.shape p →
  Tetromino.x p' = Tetromino.x p + dx →
  Tetromino.y p' = Tetromino.y p + dy →
  collides g dx dy (Tetromino.get_cells p) = Some false →
  fits p'.
Proof.
  intros Hsh Hx Hy Hfree. unfold fits, Tetromino.get_cells.
  rewrite Hsh, Hx, Hy, shape_cells_shift.
  apply Forall_fmap. eapply Forall_impl; [by eapply collides_false_fits|].
  by intros [a b].
Qed.

Lemma piece_ok_shifted g p p' dx dy :
  piece_ok p →
  Tetromino.shape_index p' = Tetromino.shape_index p →
  Tetromino.shape p' = Tetromino.shape p →
  Tetromino.x p' = Tetromino.x p + dx →
  Tetromino.y p' = Tetromino.y p + dy →
  collides g dx dy (Tetromino.get_cells p) = Some false →
  piece_ok p'.
Proof.
  intros (Hi & Ho & _) Hidx Hsh Hx Hy Hfree.
  split; [by rewrite Hidx|]. split; [by rewrite Hsh|].
  by eapply fits_shifted.
Qed.

Lemma move_spec dx dy s p b :
  current_piece s = Some p →
  collides (grid s) dx dy (Tetromino.get_cells p) = Some b →
  move dx dy s
  = (Ret (negb b),
     if b then s else set_current_piece (Some (moved p dx dy)) s).
Proof.
  intros Hp Hb. unfold move. rewrite bind_gets, Hp.
  erewrite bind_ret by (rewrite (check_collision_current _ _ _ p) by done;
                        by rewrite Hb).
  by destruct b.
Qed.

Lemma move_keeps dx dy : keeps (move dx dy).
Proof.
  intros s Hs. destruct (current_piece s) as [p|] eqn:Hp.
  - destruct (collides_total (grid s) dx dy (Tetromino.get_cells p))
      as [b Hb]; [by apply Inv_grid_wf|].
    rewrite (move_spec dx dy s p b) by done.
    eexists _, _. split; [done|]. destruct b; [done|].
    apply Inv_set_piece; [done|].
    by eapply (piece_ok_shifted (grid s) p _ dx dy); [eapply inv_piece|..].
  - exists false, s. split; [|done]. unfold move. by rewrite bind_gets, Hp.
Qed.

#[global] Hint Resolve move_keeps : keeps.

Lemma update_keeps dt : keeps (update dt).
Proof. unfold update. keeps_auto. Qed.

Lemma rotate_piece_keeps : keeps rotate_piece.
Proof.
  intros s Hs. destruct (current_piece s) as [p|] eqn:Hp.
  2:{ exists tt, s. split; [|done]. unfold rotate_piece.
      by rewrite bind_gets, Hp. }
  pose proof (inv_piece s Hs p Hp) as Hok.
  destruct (rotate_piece_cases s p (Inv_grid_wf s Hs) Hp)
    as (_ & _ & _ & _ & p' & Hrun & Hcases).
  eexists _, _. split; [done|]. apply Inv_set_piece; [done|].
  destruct Hok as (Hi & Ho & Hfit).
  destruct Hcases as [->|[[-> Hfree]|(k & _ & _ & Hfree & ->)]].
  - done.
  - split; [done|]. split; [by apply orientations_rotate|].
    apply (fits_shifted (grid s) (Tetromino.rotate p) _ 0 0); simpl;
      (done || lia).
  - split; [done|]. split; [by apply orientations_rotate|].
    apply (fits_shifted (grid s) (Tetromino.rotate p) _ k 0); simpl;
      (done || lia).
Qed.

Lemma hold_piece_keeps r coin : keeps (hold_piece r coin).
Proof.
  intros s Hs. unfold hold_piece. rewrite bind_gets.
  destruct (current_piece s) as [p|] eqn:Hp; [|by exists tt, s].
  pose proof (inv_piece s Hs p Hp) as (Hi & Ho & Hfit).
  mrun. destruct (_ && _); [|by exists tt, s].
  rewrite bind_gets. destruct (held_piece s) as [h|] eqn:Hh.
  - pose proof (inv_held s Hs h Hh) as Hh'.
    destruct (init_catalog h 0 0 Hh') as (sh & col & Hsh & Hcol & _).
    rewrite !bind_assoc. mrun.
    rewrite !get_in_range by (unfold shape_id_ok in Hh'; simpl in *; lia).
    rewrite Hsh, Hcol. mrun. eexists _, _. split; [done|]. simpl.
    rewrite Hp. simpl. destruct (catalog_at_spawn _ _ Hsh) as [Ho' Hfit'].
    destruct Hs. split; try done; simpl.
    + by intros ? [= <-].
    + by intros ? [= <-].
  - rewrite bind_assoc. mrun.
    assert (Inv (set_held_piece (Some (Tetromino.shape_index p)) s)) as Hs1.
    { destruct Hs. split; try done. simpl. by intros ? [= <-]. }
    destruct (spawn_piece_keeps r coin _ Hs1) as ([] & s2 & Hrun & Hs2).
    rewrite (bind_ret _ _ _ _ _ Hrun). mrun.
    eexists _, _. split; [done|]. inv_ext.
Qed.

#[global] Hint Resolve update_keeps rotate_piece_keeps hold_piece_keeps : keeps.

(** ** Locking from a session with the invariant *)

Lemma full_count_compact g : full_count (compact g) = 0%nat.
Proof.
  unfold full_count, compact. rewrite filter_app, length_app.
  assert (filter full (replicate (full_count g) empty_row) = []) as ->.
  { induction (full_count g) as [|k IH]; [done|]. simpl.
    by rewrite filter_cons_False. }
  assert (filter full (filter (λ row, ¬ full row) g) = []) as ->; [|done].
  induction g as [|row g IH]; [done|].
  destruct (decide (full row)).
  - by rewrite filter_cons_False by tauto.
  - rewrite filter_cons_True by done. by rewrite filter_cons_False.
Qed.

Lemma table_lookup k :
  (k ≤ 4)%nat → is_Some (Py.get [0; 100; 300; 500; 800] (Z.of_nat k)).
Proof.
  intros Hk. rewrite get_in_range by (simpl; lia).
  apply lookup_lt_is_Some_2. simpl. lia.
Qed.

(** The session [lock_piece] hands to [clear_lines]: the board is valid
    and has at most four full rows. *)
Lemma settled_facts s p :
  Inv s → current_piece s = Some p →
  settle_piece s = (Ret tt, settled s p)
  ∧ grid_ok (grid (settled s p))
  ∧ (full_count (grid (settled s p)) ≤ 4)%nat.
Proof.
  intros Hs Hp. pose proof (inv_piece s Hs p Hp) as (Hi & Ho & Hfit).
  pose proof (Inv_grid_wf s Hs) as Hwf.
  pose proof (settle_piece_spec s p Hwf Hp Hfit) as Hrun.
  split; [done|]. split.
  - pose proof (settle_piece_ok s p (inv_grid s Hs) Hp Hi) as H.
    by rewrite Hrun in H.
  - pose proof (full_count_settled s p Hwf) as H.
    rewrite (inv_no_full_row s Hs), (orientations_four_cells p Ho) in H. lia.
Qed.

Lemma settled_same s p :
  current_piece (settled s p) = current_piece s
  ∧ next_piece_index (settled s p) = next_piece_index s
  ∧ piece_deck (settled s p) = piece_deck s
  ∧ held_piece (settled s p) = held_piece s
  ∧ pack_contents (settled s p) = pack_contents s.
Proof. unfold settled. by destruct (Tetromino.is_bomb p). Qed.

Lemma after_clear_same s k points :
  grid (after_clear s k points) = compact (grid s)
  ∧ current_piece (after_clear s k points) = current_piece s
  ∧ next_piece_index (after_clear s k points) = next_piece_index s
  ∧ piece_deck (after_clear s k points) = piece_deck s
  ∧ held_piece (after_clear s k points) = held_piece s
  ∧ pack_contents (after_clear s k points) = pack_contents s.
Proof. unfold after_clear. by destruct (_ >=? _). Qed.

Lemma clear_lines_after_settle s p :
  Inv s → current_piece s = Some p →
  ∃ s3, clear_lines (settled s p) = (Ret tt, s3) ∧ Inv s3.
Proof.
  intros Hs Hp. destruct (settled_facts s p Hs Hp) as (_ & Hok & Hfull).
  destruct (settled_same s p) as (E1 & E2 & E3 & E4 & E5).
  pose proof (clear_lines_ok _ Hok) as Hok'.
  rewrite clear_lines_spec in * by apply Hok.
  destruct (full_count (grid (settled s p))) as [|k] eqn:Hk.
  - eexists. split; [done|]. destruct Hs.
    split; rewrite ?E1, ?E2, ?E3, ?E4, ?E5; done.
  - destruct (table_lookup (S k) Hfull) as [points Hpoints].
    rewrite Hpoints in *. eexists. split; [done|].
    destruct (after_clear_same (settled s p) (Z.of_nat (S k)) points)
      as (F0 & F1 & F2 & F3 & F4 & F5).
    simpl in Hok'. destruct Hs.
    split; rewrite ?F1, ?F2, ?F3, ?F4, ?F5, ?E1, ?E2, ?E3, ?E4, ?E5;
      try done.
    rewrite F0. apply full_count_compact.
Qed.

Lemma lock_piece_keeps r coin s :
  Inv s → is_Some (current_piece s) →
  ∃ s', lock_piece r coin s = (Ret tt, s') ∧ Inv s'.
Proof.
  intros Hs [p Hp]. pose proof (inv_piece s Hs p Hp) as (Hi & Ho & Hfit).
  rewrite (lock_piece_settled r coin s p) by (by try apply Inv_grid_wf).
  destruct (clear_lines_after_settle s p Hs Hp) as (s3 & Hrun & Hs3).
  rewrite (bind_ret _ _ _ _ _ Hrun).
  destruct (spawn_piece_keeps r coin s3 Hs3) as ([] & s' & Hrun' & Hs').
  by exists s'.
Qed.

(** ** The hard drop *)

Lemma shape_cells_y_ge px py r sh c :
  c ∈ Tetromino.shape_cells px py r sh → py + r ≤ c.2.
Proof.
  revert r. induction sh as [|row sh IH]; intros r; [by intros ?%elem_of_nil|].
  simpl. intros [Hc|Hc]%elem_of_app.
  - assert (∀ col, c ∈ Tetromino.row_cells px (py + r) col row →
              c.2 = py + r) as Hrow.
    { clear. induction row as [|cell row IH]; intros col;
        [by intros ?%elem_of_nil|].
      simpl. intros [Hc|Hc]%elem_of_app; [|by eapply IH].
      destruct (Py.truthy cell); [|by apply elem_of_nil in Hc].
      by apply list_elem_of_singleton in Hc as ->. }
    rewrite (Hrow 0 Hc). lia.
  - apply IH in Hc. lia.
Qed.

Lemma piece_ok_above_floor p : piece_ok p → Tetromino.y p < GRID_HEIGHT.
Proof.
  intros (_ & Ho & Hfit). pose proof (orientations_four_cells p Ho) as Hlen.
  unfold fits in Hfit.
  destruct (Tetromino.get_cells p) as [|c cells] eqn:Hcells; [done|].
  apply Forall_cons in Hfit as [[_ Hy] _].
  assert (c ∈ Tetromino.get_cells p) as Hc by (rewrite Hcells; left).
  apply shape_cells_y_ge in Hc. lia.
Qed.

Lemma drop_loop_outcome fuel : ∀ d s,
  Inv s → is_Some (current_piece s) →
  (∃ s', drop_loop fuel d s = (Stop OutOfFuel, s'))
  ∨ (∃ d' s', drop_loop fuel d s = (Ret d', s')
              ∧ Inv s' ∧ is_Some (current_piece s')
              ∧ score s' = score s).
Proof.
  induction fuel as [|fuel IH]; intros d s Hs [p Hp]; [left; by eexists|].
  destruct (collides_total (grid s) 0 1 (Tetromino.get_cells p))
    as [b Hb]; [by apply Inv_grid_wf|].
  simpl. rewrite (bind_ret _ _ _ _ _ (move_spec 0 1 s p b Hp Hb)).
  destruct b; simpl; [right; by eexists _, _|].
  destruct (IH (d + 1) (set_current_piece (Some (moved p 0 1)) s))
    as [?|(d' & s' & ? & ? & ? & ?)]; [|by eexists|by left|].
  - apply Inv_set_piece; [done|].
    by eapply (piece_ok_shifted (grid s) p _ 0 1); [eapply inv_piece|..].
  - right. by exists d', s'.
Qed.

Lemma drop_loop_enough fuel : ∀ d s p,
  Inv s → current_piece s = Some p →
  (Z.to_nat (GRID_HEIGHT - Tetromino.y p) < fuel)%nat →
  ∃ d' s', drop_loop fuel d s = (Ret d', s').
Proof.
  induction fuel as [|fuel IH]; intros d s p Hs Hp Hfuel; [lia|].
  destruct (collides_total (grid s) 0 1 (Tetromino.get_cells p))
    as [b Hb]; [by apply Inv_grid_wf|].
  simpl. rewrite (bind_ret _ _ _ _ _ (move_spec 0 1 s p b Hp Hb)).
  destruct b; simpl; [by eexists _, _|].
  pose proof (piece_ok_above_floor p (inv_piece s Hs p Hp)) as Hy.
  assert (piece_ok (moved p 0 1)) as Hok
    by (by eapply (piece_ok_shifted (grid s) p _ 0 1); [eapply inv_piece|..]).
  eapply (IH _ _ (moved p 0 1)); [by apply Inv_set_piece|done|].
  simpl. lia.
Qed.

Lemma hard_drop_outcome fuel r coin s :
  Inv s →
  (∃ s', hard_drop fuel r coin s = (Stop OutOfFuel, s'))
  ∨ (∃ s', hard_drop fuel r coin s = (Ret tt, s') ∧ Inv s').
Proof.
  intros Hs. unfold hard_drop. rewrite bind_gets.
  destruct (current_piece s) as [p|] eqn:Hp; [|right; by exists s].
  destruct (drop_loop_outcome fuel 0 s Hs) as
    [[s' Hrun]|(d & s' & Hrun & Hs' & Hp' & _)]; [by eexists| |].
  - left. exists s'. by rewrite (bind_stop _ _ _ _ _ Hrun).
  - right. rewrite (bind_ret _ _ _ _ _ Hrun). mrun.
    apply lock_piece_keeps; [inv_ext|done].
Qed.

Lemma hard_drop_enough r coin s :
  Inv s →
  ∃ fuel s', hard_drop fuel r coin s = (Ret tt, s') ∧ Inv s'.
Proof.
  intros Hs. destruct (current_piece s) as [p|] eqn:Hp.
  - exists (S (Z.to_nat (GRID_HEIGHT - Tetromino.y p))).
    destruct (hard_drop_outcome (S (Z.to_nat (GRID_HEIGHT - Tetromino.y p)))
                r coin s Hs) as [[s' Hrun]|Hrun]; [|done].
    exfalso. unfold hard_drop in Hrun. rewrite bind_gets, Hp in Hrun.
    destruct (drop_loop_enough (S (Z.to_nat (GRID_HEIGHT - Tetromino.y p)))
                0 s p Hs Hp) as (d & s1 & Hloop); [lia|].
    rewrite (bind_ret _ _ _ _ _ Hloop) in Hrun. revert Hrun. mrun.
    destruct (drop_loop_outcome (S (Z.to_nat (GRID_HEIGHT - Tetromino.y p)))
                0 s Hs) as [[s2 Hrun2]|(d2 & s2 & Hrun2 & Hs2 & Hp2 & _)];
      [by eexists|congruence|].
    rewrite Hloop in Hrun2. injection Hrun2 as <- <-.
    destruct (lock_piece_keeps r coin
                (set_score (score s1 + inject_Z (d * 2))%Q s1))
      as (s3 & Hrun3 & _); [inv_ext|done|].
    rewrite Hrun3. done.
  - exists 0%nat, s. split; [|done]. unfold hard_drop.
    by rewrite bind_gets, Hp.
Qed.

(** ** Rounds, shop and packs *)

Ltac inv_fields :=
  lazymatch goal with
  | H : Inv _ |- Inv _ =>
      destruct H; split; simpl; try done; try (by intros ? [=])
  end.

Lemma full_deck_ok : Forall shape_id_ok (Z.of_nat <$> Py.range (length SHAPES)).
Proof.
  repeat apply Forall_cons_2; try apply Forall_nil_2;
    unfold shape_id_ok; simpl; lia.
Qed.

Lemma reset_game_keeps r : keeps (reset_game r).
Proof.
  unfold reset_game. keeps_auto; try inv_fields;
    first [by destruct empty_grid_ok | exact full_deck_ok].
Qed.

Lemma start_game_keeps r1 r2 coin : keeps (start_game r1 r2 coin).
Proof.
  unfold start_game. keeps_auto; try inv_fields;
    by destruct empty_grid_ok.
Qed.

Lemma start_next_round_keeps r1 r2 coin : keeps (start_next_round r1 r2 coin).
Proof.
  unfold start_next_round. keeps_auto; try inv_fields;
    by destruct empty_grid_ok.
Qed.

Lemma click_upgrade_keeps k : keeps (click_upgrade k).
Proof. unfold click_upgrade. keeps_auto. Qed.

Lemma click_joker_keeps j : keeps (click_joker j).
Proof. unfold click_joker. keeps_auto. Qed.

Lemma append_card_keeps c : shape_id_ok c → keeps (append_card c).
Proof.
  intros Hc. unfold append_card. keeps_auto. inv_fields.
  apply Forall_app. split; [done|]. by apply Forall_singleton.
Qed.

Lemma randint_below_ok r : shape_id_ok (Py.randint_below r (length SHAPES)).
Proof.
  unfold shape_id_ok, Py.randint_below.
  pose proof (Nat.mod_upper_bound r (length SHAPES)). simpl in *. lia.
Qed.

Lemma open_pack_keeps pt draws coins : keeps (open_pack pt draws coins).
Proof.
  assert (shape_id_ok 0) as H0 by (unfold shape_id_ok; simpl; lia).
  pose proof randint_below_ok as Hr.
  unfold open_pack.
  keeps_auto; try (by apply append_card_keeps); try inv_fields.
Qed.

#[global] Hint Resolve open_pack_keeps : keeps.

Lemma click_pack_keeps pt draws coins : keeps (click_pack pt draws coins).
Proof. unfold click_pack. keeps_auto. Qed.

Lemma click_add_to_deck_keeps : keeps click_add_to_deck.
Proof.
  unfold click_add_to_deck. keeps_auto. inv_fields. by apply Forall_app.
Qed.

Lemma escape_keeps : keeps escape.
Proof. unfold escape. keeps_auto. Qed.

(** The session a new object starts in. *)
Lemma new_game_Inv r : reset_game r blank = (Ret tt, new_game r) ∧ Inv (new_game r).
Proof.
  unfold new_game.
  assert (∃ s', reset_game r blank = (Ret tt, s') ∧ Inv s') as (s' & -> & Hs');
    [|done].
  unfold reset_game. mrun.
  lazymatch goal with
  | |- context [(get_random_piece_from_deck r ≫= _) ?s1] =>
      destruct (draw_spec r s1) as (v & s2 & Hrun & -> & Hv)
  end.
  rewrite (bind_ret _ _ _ _ _ Hrun). mrun. eexists. split; [done|].
  simpl in Hv. destruct empty_grid_ok. split; simpl; try done.
  - pose proof full_deck_ok as Hd. rewrite Forall_forall in Hd. by apply Hd.
  - apply full_deck_ok.
Qed.

(** Every command, in every session with the invariant, returns normally
    with the invariant, unless the drop loop was given too little fuel. *)
Lemma run_command_outcome c s :
  Inv s →
  (∃ s', run_command c s = (Stop OutOfFuel, s'))
  ∨ (∃ s', run_command c s = (Ret tt, s') ∧ Inv s').
Proof.
  intros Hs.
  assert (∀ m : M unit, keeps m → ∃ s', m s = (Ret tt, s') ∧ Inv s') as Hk.
  { intros m Hm. destruct (Hm s Hs) as ([] & s' & ? & ?). by exists s'. }
  destruct c; simpl.
  - right. apply Hk. keeps_auto.
  - right. apply Hk, rotate_piece_keeps.
  - by apply hard_drop_outcome.
  - right. apply Hk, hold_piece_keeps.
  - right. apply Hk, update_keeps.
  - right. apply Hk, reset_game_keeps.
  - right. apply Hk, start_game_keeps.
  - right. apply Hk, start_next_round_keeps.
  - right. apply Hk, click_upgrade_keeps.
  - right. apply Hk, click_joker_keeps.
  - right. apply Hk, click_pack_keeps.
  - right. apply Hk, click_add_to_deck_keeps.
  - right. apply Hk, escape_keeps.
Qed.

Lemma reachable_Inv s : reachable s → Inv s.
Proof.
  induction 1 as [r|c s s' _ IH Hrun]; [apply new_game_Inv|].
  destruct (run_command_outcome c s IH) as [[s1 H1]|(s1 & H1 & Hs1)];
    congruence.
Qed.

Lemma drop_loop_reachable fuel : ∀ d s d' s',
  reachable s → drop_loop fuel d s = (Ret d', s') → reachable s'.
Proof.
  induction fuel as [|fuel IH]; intros d s d' s' Hs; [done|].
  simpl. unfold mbind at 1, M_bind at 1.
  destruct (move 0 1 s) as [[b|e] s1] eqn:Hmove; [|done].
  assert (reachable s1) as Hs1.
  { apply (reachable_step (Move 0 1) s); [done|]. simpl.
    by rewrite (bind_ret _ _ _ _ _ Hmove). }
  destruct b; [by apply IH|]. by intros [= _ <-].
Qed.

(** C9.  In a session reached by commands no row of the board is full.
    When a lock starts there, [clear_lines] is called on a board with at
    most four full rows, so its count is a valid index of the score table
    and [clear_lines] and the lock return normally.  The hard drop, the one
    caller of the lock, passes through reachable sessions only and never
    ends in an [IndexError]. *)
Theorem lock_finds_at_most_four_full_rows (s : t) :
  reachable s →
  full_count (grid s) = 0%nat
  ∧ (∀ p sc r coin,
       current_piece s = Some p →
       ∃ s2 s3 s',
         settle_piece (set_score sc s) = (Ret tt, s2)
         ∧ (full_count (grid s2) ≤ 4)%nat
         ∧ is_Some ([0; 100; 300; 500; 800] !! full_count (grid s2))
         ∧ clear_lines s2 = (Ret tt, s3)
         ∧ lock_piece r coin (set_score sc s) = (Ret tt, s'))
  ∧ (∀ fuel d s1,
       is_Some (current_piece s) →
       drop_loop fuel 0 s = (Ret d, s1) →
       reachable s1 ∧ is_Some (current_piece s1))
  ∧ (∀ fuel r coin,
       (∃ s', hard_drop fuel r coin s = (Stop OutOfFuel, s'))
       ∨ (∃ s', hard_drop fuel r coin s = (Ret tt, s') ∧ reachable s'))
  ∧ (∀ r coin, ∃ fuel s', hard_drop fuel r coin s = (Ret tt, s')).
Proof.
  intros Hreach. pose proof (reachable_Inv s Hreach) as Hs.
  split; [apply Hs|]. split; [|split; [|split]].
  - intros p sc r coin Hp.
    assert (Inv (set_score sc s)) as Hs0 by inv_ext.
    destruct (settled_facts (set_score sc s) p Hs0 Hp) as (Hrun & _ & Hfull).
    destruct (clear_lines_after_settle (set_score sc s) p Hs0 Hp)
      as (s3 & Hclear & _).
    destruct (lock_piece_keeps r coin (set_score sc s) Hs0) as (s' & Hlock & _);
      [by eexists|].
    exists (settled (set_score sc s) p), s3, s'.
    repeat split; try done. apply lookup_lt_is_Some_2. simpl. lia.
  - intros fuel d s1 Hp Hrun. split; [by eapply drop_loop_reachable|].
    destruct (drop_loop_outcome fuel 0 s Hs Hp) as
      [[s' Hrun']|(d' & s' & Hrun' & _ & Hp' & _)]; congruence.
  - intros fuel r coin.
    destruct (hard_drop_outcome fuel r coin s Hs) as [?|(s' & Hrun & _)];
      [by left|right].
    exists s'. split; [done|].
    by apply (reachable_step (HardDrop fuel r coin) s).
  - intros r coin. destruct (hard_drop_enough r coin s Hs) as (fuel & s' & ? & _).
    by exists fuel, s'.
Qed.

(** ** Gravity *)

(** While the piece cannot go down, a tick changes neither the board nor
    the piece. *)
Lemma update_blocked dt g p :
  collides g 0 1 (Tetromino.get_cells p) = Some true →
  preserves (λ s, grid s = g ∧ current_piece s = Some p) (update dt).
Proof.
  intros Hblocked.
  assert (preserves (λ s, grid s = g ∧ current_piece s = Some p) (move 0 1))
    as Hmove.
  { intros s [Hg Hp]. rewrite (move_spec 0 1 s p true); [done..|].
    by rewrite Hg. }
  unfold update. preserves_auto.
Qed.

Lemma run_all_reachable cs s :
  reachable s →
  (for_each cs run_command s).1 = Ret tt →
  reachable (for_each cs run_command s).2.
Proof.
  revert s. induction cs as [|c cs IH]; intros s Hs; [done|].
  simpl. unfold mbind, M_bind.
  destruct (run_command c s) as [[[]|e] s1] eqn:Hrun; [|done].
  apply IH. by eapply reachable_step.
Qed.

(** C1.  A piece that gravity cannot move down is to be locked
    eventually; [update] does not do it.  In the reachable session
    [resting_session] the game is running and the O piece rests on the
    floor, so the gravity step [move(0, 1)] fails.  Whatever ticks follow,
    [update] returns with the board and the piece unchanged: the piece is
    never locked.  From the same session [hard_drop] does lock it: the
    piece's cells are written to the board. *)
Theorem gravity_never_locks_resting_piece :
  reachable resting_session
  ∧ state resting_session = PLAYING
  ∧ ∃ p,
      current_piece resting_session = Some p
      ∧ collides (grid resting_session) 0 1 (Tetromino.get_cells p) = Some true
      ∧ (move 0 1 resting_session).1 = Ret false
      ∧ (∀ dts,
           let out := for_each dts update resting_session in
           out.1 = Ret tt
           ∧ grid out.2 = grid resting_session
           ∧ current_piece out.2 = Some p)
      ∧ Forall (λ c, cell (grid resting_session) c.1 c.2 = Some 0)
          (Tetromino.get_cells p)
      ∧ Forall (λ c, cell (grid (hard_drop 1 0 false resting_session).2) c.1 c.2
                     = Some (Tetromino.shape_index p + 1))
          (Tetromino.get_cells p).
Proof.
  split; [|split].
  - apply run_all_reachable; [apply reachable_new|by vm_compute].
  - by vm_compute.
  - eexists. split; [by vm_compute|]. split; [by vm_compute|].
    split; [by vm_compute|]. split; [|split].
    + intros dts out. subst out. split.
      * assert (keeps (for_each dts update)) as Hk
          by (apply keeps_for_each; intros ?; apply update_keeps).
        destruct (Hk resting_session) as ([] & s' & -> & _); [|done].
        apply reachable_Inv, run_all_reachable;
          [apply reachable_new|by vm_compute].
      * apply (preserves_for_each
                 (λ s, grid s = grid resting_session ∧ current_piece s = _));
          [|by vm_compute].
        intros dt. apply update_blocked. by vm_compute.
    + repeat apply Forall_cons_2; try apply Forall_nil_2; by vm_compute.
    + repeat apply Forall_cons_2; try apply Forall_nil_2; by vm_compute.
Qed.

(** * The statements at sample sessions *)

(** The empty board has the dimensions of a board. *)
Lemma empty_grid_wf : grid_wf empty_grid.
Proof. split; [reflexivity|]. repeat constructor. Defined.

(** The resting session is reached by a start and eighteen moves down. *)
Lemma resting_session_reachable : reachable resting_session.
Proof. apply run_all_reachable; [apply reachable_new|reflexivity]. Defined.

(** The upright I piece in column 8 of the empty board: the rotated piece
    collides in place and at 1, -1 and 2, and is kicked by -2. *)
Lemma rotate_piece_wall_kicks_witness :
  let s := session_with_piece empty_grid upright_I in
  grid_wf (grid s)
  ∧ current_piece s = Some upright_I
  ∧ rotate_piece s
    = (Ret tt,
       set_current_piece
         (Some (Tetromino.set_x 6 (Tetromino.rotate upright_I))) s).
Proof.
  intros s. split; [exact empty_grid_wf|]. split; [reflexivity|].
  destruct (rotate_piece_wall_kicks s upright_I empty_grid_wf eq_refl)
    as (_ & _ & _ & Hkick & _).
  apply (Hkick eq_refl [1; -1; 2] (-2) []).
  - reflexivity.
  - repeat constructor.
  - reflexivity.
Defined.

(** Two full rows at the bottom: the board is empty afterwards. *)
Lemma clear_lines_removes_exactly_full_rows_witness :
  let s := session_on (board_with_full_rows 2) 1 0 in
  length (grid s) = Z.to_nat GRID_HEIGHT
  ∧ grid (clear_lines s).2 = empty_grid.
Proof.
  intros s. split; [reflexivity|].
  destruct (clear_lines_removes_exactly_full_rows s eq_refl) as [H _].
  rewrite H. reflexivity.
Defined.

(** One row at level 1 and four rows at level 2. *)
Lemma clear_lines_score_table_witness :
  let s1 := session_on (board_with_full_rows 1) 1 0 in
  let s4 := session_on (board_with_full_rows 4) 2 0 in
  length (grid s1) = Z.to_nat GRID_HEIGHT
  ∧ jokers s1 = []
  ∧ (Upgrades.score_multiplier (upgrades s1) == 1)%Q
  ∧ Upgrades.extra_lines (upgrades s1) = 0
  ∧ (∃ s', clear_lines s1 = (Ret tt, s') ∧ (score s' == score s1 + 100)%Q)
  ∧ (∃ s', clear_lines s4 = (Ret tt, s') ∧ (score s' == score s4 + 1600)%Q).
Proof.
  intros s1 s4.
  split; [reflexivity|]. split; [reflexivity|]. split; [reflexivity|].
  split; [reflexivity|]. split.
  - destruct (clear_lines_score_table s1 eq_refl eq_refl (Qeq_refl 1) eq_refl)
      as (_ & H & _).
    apply H; reflexivity.
  - destruct (clear_lines_score_table s4 eq_refl eq_refl (Qeq_refl 1) eq_refl)
      as (_ & _ & H).
    apply H; reflexivity.
Defined.

(** The tenth line at level 1: level 2 and a fall interval of 450 ms. *)
Lemma clear_lines_levels_up_once_witness :
  let s := session_on (board_with_full_rows 1) 1 9 in
  length (grid s) = Z.to_nat GRID_HEIGHT
  ∧ (1 ≤ full_count (grid s) ≤ 4)%nat
  ∧ ∃ s', clear_lines s = (Ret tt, s')
          ∧ lines_cleared s' = 10 ∧ level s' = 2 ∧ fall_speed s' = 450.
Proof.
  intros s.
  assert (1 ≤ full_count (grid s) ≤ 4)%nat as Hk by (vm_compute; lia).
  split; [reflexivity|]. split; [exact Hk|].
  destruct (clear_lines_levels_up_once s eq_refl Hk)
    as (s' & Hrun & Hlines & Hup & _).
  exists s'. split; [exact Hrun|]. split; [exact Hlines|].
  apply Hup. rewrite Hlines. vm_compute. discriminate.
Defined.

(** The bomb T piece at (5,5) on a board without an empty cell. *)
Lemma bomb_empties_block_around_origin_witness :
  let s := session_with_piece (board_with_full_rows 20) bomb_T in
  grid_wf (grid s)
  ∧ current_piece s = Some bomb_T
  ∧ fits bomb_T
  ∧ Tetromino.is_bomb bomb_T = true
  ∧ ∃ s2, settle_piece s = (Ret tt, s2)
          ∧ (score s2 == score s + 200)%Q
          ∧ cell (grid s2) 4 4 = Some 0
          ∧ cell (grid s2) 6 6 = Some 0
          ∧ cell (grid s2) 7 6 = Some 3
          ∧ cell (grid s2) 3 4 = Some 1.
Proof.
  intros s.
  assert (grid_wf (grid s)) as Hwf by (split; [reflexivity|repeat constructor]).
  assert (fits bomb_T) as Hfit
    by (unfold fits; apply (bool_decide_unpack _); vm_compute; exact I).
  split; [exact Hwf|]. split; [reflexivity|]. split; [exact Hfit|].
  split; [reflexivity|].
  destruct (bomb_empties_block_around_origin s bomb_T 0 false
              Hwf eq_refl Hfit eq_refl)
    as (s2 & Hrun & _ & Hcells & Hscore & _).
  exists s2. split; [exact Hrun|]. split; [exact Hscore|].
  rewrite !Hcells by (vm_compute; intuition discriminate).
  repeat split; vm_compute; reflexivity.
Defined.

(** Holding the resting O piece, then holding again. *)
Lemma hold_piece_behaviour_witness :
  let s := holding_session in
  let p := Tetromino.mk 1 [[1; 1]; [1; 1]] YELLOW 4 18 0 false in
  ∃ s',
    current_piece s = Some p
    ∧ Upgrades.hold_piece (upgrades s) = true
    ∧ can_hold s = true
    ∧ held_piece s = None
    ∧ hold_piece 0 false s = (Ret tt, s')
    ∧ held_piece s' = Some 1
    ∧ can_hold s' = false
    ∧ hold_piece 0 false s' = (Ret tt, s').
Proof.
  intros s p.
  assert (grid_wf (grid s)) as Hwf
    by (split; [vm_compute; reflexivity|vm_compute; repeat constructor]).
  assert (0 ≤ next_piece_index s < 7) as Hnext
    by (vm_compute; intuition discriminate).
  assert (current_piece s = Some p) as Hp by (vm_compute; reflexivity).
  assert (Upgrades.hold_piece (upgrades s) = true) as Hen
    by (vm_compute; reflexivity).
  assert (can_hold s = true) as Hcan by (vm_compute; reflexivity).
  assert (held_piece s = None) as Hheld by (vm_compute; reflexivity).
  destruct (hold_piece_behaviour s p 0%nat false) as (_ & H).
  destruct (H Hp Hen Hcan) as (Hfresh & _ & Hagain).
  destruct (Hfresh Hheld Hwf Hnext) as (s' & q & Hrun & Hheld' & _ & _ & Hcan').
  exists s'. split; [exact Hp|]. split; [exact Hen|].
  split; [exact Hcan|]. split; [exact Hheld|]. split; [exact Hrun|].
  split; [exact Hheld'|]. split; [exact Hcan'|].
  exact (proj2 (Hagain s' [] 0%nat false Hrun (Forall_nil_2 _))).
Defined.

(** The hard drop of the resting piece. *)
Lemma lock_finds_at_most_four_full_rows_witness :
  reachable resting_session
  ∧ full_count (grid resting_session) = 0%nat
  ∧ ∃ s', hard_drop 1 0 false resting_session = (Ret tt, s') ∧ reachable s'.
Proof.
  split; [exact resting_session_reachable|].
  destruct (lock_finds_at_most_four_full_rows resting_session
              resting_session_reachable) as (Hfull & _ & _ & Hdrop & _).
  split; [exact Hfull|].
  destruct (Hdrop 1%nat 0%nat false) as [[s' Hout]|Hret].
  - vm_compute in Hout. discriminate.
  - exact Hret.
Defined.

(** Locking the resting piece, and clearing lines, on a valid board. *)
Lemma board_writes_keep_grid_ok_witness :
  let p := Tetromino.mk 1 [[1; 1]; [1; 1]] YELLOW 4 18 0 false in
  grid_ok (grid resting_session)
  ∧ current_piece resting_session = Some p
  ∧ 0 ≤ Tetromino.shape_index p < Z.of_nat (length SHAPES)
  ∧ grid_ok (grid (lock_piece 0 false resting_session).2)
  ∧ grid_ok (grid (clear_lines resting_session).2).
Proof.
  intros p.
  assert (grid_ok (grid resting_session)) as Hok.
  { split; [vm_compute; reflexivity|].
    vm_compute. repeat constructor. }
  assert (current_piece resting_session = Some p) as Hp
    by (vm_compute; reflexivity).
  assert (0 ≤ Tetromino.shape_index p < Z.of_nat (length SHAPES)) as Hidx
    by (vm_compute; intuition discriminate).
  destruct board_writes_keep_grid_ok as (Hlock & _ & Hclear & _).
  split; [exact Hok|]. split; [exact Hp|]. split; [exact Hidx|]. split.
  - exact (Hlock resting_session p 0%nat false Hok Hp Hidx).
  - exact (Hclear resting_session Hok).
Defined.

(** * Further properties *)

(** ** Four quarter turns *)

Lemma zip_star_rows_length {A} (rows : list (list A)) w :
  rows ≠ [] → Forall (λ r, length r = w) rows →
  Forall (λ col, length col = length rows) (Py.zip_star rows).
Proof.
  induction rows as [|r rows IH]; [done|]. intros _ Hrows.
  apply Forall_cons in Hrows as [Hr Hrows].
  destruct rows as [|r' rows].
  - simpl. apply Forall_fmap, Forall_forall. by intros a _.
  - change (Py.zip_star (r :: r' :: rows))
      with (zip_with cons r (Py.zip_star (r' :: rows))).
    specialize (IH ltac:(done) Hrows).
    apply Forall_lookup. intros i col Hcol.
    apply lookup_zip_with_Some in Hcol as (a & col' & -> & _ & Hcol').
    rewrite Forall_lookup in IH. simpl. f_equal. by eapply IH.
Qed.

Lemma rectangular_rotate (sh : list (list Z)) h w :
  (0 < h)%nat → rectangular h w sh →
  rectangular w h (Tetromino.rotate_shape sh).
Proof.
  intros Hpos [Hh Hrows]. split.
  - by apply (rotate_shape_clockwise sh h w).
  - unfold Tetromino.rotate_shape.
    assert (reverse sh ≠ []) as Hne.
    { intros Hnil. apply (f_equal length) in Hnil.
      rewrite length_reverse in Hnil. simpl in Hnil. lia. }
    pose proof (zip_star_rows_length (reverse sh) w Hne
                  ltac:(by apply Forall_reverse)) as H.
    by rewrite length_reverse, Hh in H.
Qed.

Lemma rectangular_ext {A} (m1 m2 : list (list A)) h w :
  rectangular h w m1 → rectangular h w m2 →
  (∀ i j, (i < h)%nat → (j < w)%nat →
     m1 !! i ≫= (.!! j) = m2 !! i ≫= (.!! j)) →
  m1 = m2.
Proof.
  intros [Hh1 Hr1] [Hh2 Hr2] Hentries. apply list_eq. intros i.
  destruct (decide (i < h)%nat) as [Hi|Hi].
  2:{ by rewrite !lookup_ge_None_2 by lia. }
  destruct (lookup_lt_is_Some_2 m1 i) as [r1 E1]; [lia|].
  destruct (lookup_lt_is_Some_2 m2 i) as [r2 E2]; [lia|].
  rewrite E1, E2. f_equal. apply list_eq. intros j.
  rewrite Forall_lookup in Hr1, Hr2.
  pose proof (Hr1 i r1 E1) as Hw1. pose proof (Hr2 i r2 E2) as Hw2.
  destruct (decide (j < w)%nat) as [Hj|Hj].
  2:{ by rewrite !lookup_ge_None_2 by lia. }
  specialize (Hentries i j Hi Hj). by rewrite E1, E2 in Hentries.
Qed.

Lemma rotate_shape_four (sh : list (list Z)) (h w : nat) :
  (0 < h)%nat → (0 < w)%nat → rectangular h w sh →
  Nat.iter 4 Tetromino.rotate_shape sh = sh.
Proof.
  intros Hh Hw Hsh. simpl.
  pose proof (rectangular_rotate _ _ _ Hh Hsh) as H1.
  pose proof (rectangular_rotate _ _ _ Hw H1) as H2.
  pose proof (rectangular_rotate _ _ _ Hh H2) as H3.
  pose proof (rectangular_rotate _ _ _ Hw H3) as H4.
  apply (rectangular_ext _ _ h w); [done..|]. intros i j Hi Hj.
  destruct Hsh as [Esh Rsh], H1 as [E1 R1], H2 as [E2 R2], H3 as [E3 R3].
  rewrite (proj2 (rotate_shape_clockwise _ w h E3 Hw R3)) by done.
  rewrite (proj2 (rotate_shape_clockwise _ h w E2 Hh R2)) by done.
  rewrite (proj2 (rotate_shape_clockwise _ w h E1 Hw R1)) by lia.
  rewrite (proj2 (rotate_shape_clockwise _ h w Esh Hh Rsh)) by lia.
  by replace (h - 1 - (h - 1 - i))%nat with i by lia;
     replace (w - 1 - (w - 1 - j))%nat with j by lia.
Qed.

Lemma rotate_four (p : Tetromino.t) (h w : nat) :
  (0 < h)%nat → (0 < w)%nat → rectangular h w (Tetromino.shape p) →
  Nat.iter 4 Tetromino.rotate p = p.
Proof.
  intros Hh Hw Hsh. pose proof (rotate_shape_four _ h w Hh Hw Hsh) as H4.
  destruct p. simpl in *. unfold Tetromino.rotate, Tetromino.set_shape.
  simpl. by rewrite H4.
Qed.

(** X1.  A quarter turn of a rectangular geometry of [h] rows and [w]
    columns has [w] rows and [h] columns, and four quarter turns give back
    the geometry, entry for entry, and with it the piece. *)
Theorem rotate_four_times_identity (p : Tetromino.t) (h w : nat) :
  (0 < h)%nat → (0 < w)%nat → rectangular h w (Tetromino.shape p) →
  rectangular w h (Tetromino.shape (Tetromino.rotate p))
  ∧ Nat.iter 4 Tetromino.rotate_shape (Tetromino.shape p) = Tetromino.shape p
  ∧ Nat.iter 4 Tetromino.rotate p = p.
Proof.
  intros Hh Hw Hsh. split; [by apply rectangular_rotate|].
  split; [by apply (rotate_shape_four _ h w)|by apply (rotate_four _ h w)].
Qed.

(** ** The cells of a piece *)

Lemma row_cells_elem px py col row c :
  c ∈ Tetromino.row_cells px py col row
  ↔ ∃ (j : nat) v, row !! j = Some v ∧ v ≠ 0
                   ∧ c = (px + (col + Z.of_nat j), py).
Proof.
  revert col. induction row as [|v row IH]; intros col.
  - simpl. split; [by intros ?%elem_of_nil|by intros (j & ? & ? & _)].
  - simpl. rewrite elem_of_app, IH. unfold Py.truthy. split.
    + intros [Hc|(j & v' & Hj & Hv & ->)].
      * destruct (Z.eqb_spec v 0) as [|Hv]; simpl in Hc;
          [by apply elem_of_nil in Hc|].
        apply list_elem_of_singleton in Hc as ->.
        exists 0%nat, v. repeat split; [done|]. f_equal. lia.
      * exists (S j), v'. repeat split; [done..|]. f_equal. lia.
    + intros ([|j] & v' & Hj & Hv & ->); simpl in Hj.
      * injection Hj as ->. left.
        destruct (Z.eqb_spec v' 0); [done|]. simpl.
        apply list_elem_of_singleton. f_equal. lia.
      * right. exists j, v'. repeat split; [done..|]. f_equal. lia.
Qed.

Lemma shape_cells_elem px py r sh c :
  c ∈ Tetromino.shape_cells px py r sh
  ↔ ∃ (i j : nat) v, sh !! i ≫= (.!! j) = Some v ∧ v ≠ 0
                     ∧ c = (px + Z.of_nat j, py + (r + Z.of_nat i)).
Proof.
  revert r. induction sh as [|row sh IH]; intros r.
  - simpl. split; [by intros ?%elem_of_nil|by intros (i & j & ? & ? & _)].
  - simpl. rewrite elem_of_app, IH, row_cells_elem. split.
    + intros [(j & v & Hj & Hv & ->)|(i & j & v & Hij & Hv & ->)].
      * exists 0%nat, j, v. simpl. repeat split; [done..|]. f_equal; lia.
      * exists (S i), j, v. simpl. repeat split; [done..|]. f_equal; lia.
    + intros ([|i] & j & v & Hij & Hv & ->); simpl in Hij.
      * left. exists j, v. repeat split; [done..|]. f_equal; lia.
      * right. exists i, j, v. repeat split; [done..|]. f_equal; lia.
Qed.

(** X2.  The cells of a piece are exactly the positions [(x + col,
    y + row)] of the non-zero entries [shape[row][col]], and moving the
    origin moves every cell along. *)
Theorem get_cells_characterised (p : Tetromino.t) :
  (∀ c, c ∈ Tetromino.get_cells p
        ↔ ∃ (row col : nat) v,
            Tetromino.shape p !! row ≫= (.!! col) = Some v ∧ v ≠ 0
            ∧ c = (Tetromino.x p + Z.of_nat col, Tetromino.y p + Z.of_nat row))
  ∧ (∀ dx dy,
       Tetromino.get_cells (moved p dx dy)
       = (λ c, (c.1 + dx, c.2 + dy)) <$> Tetromino.get_cells p).
Proof.
  split.
  - intros c. unfold Tetromino.get_cells. rewrite shape_cells_elem.
    split; intros (i & j & v & ? & ? & ->); exists i, j, v;
      repeat split; done.
  - intros dx dy. unfold Tetromino.get_cells, moved. simpl.
    apply shape_cells_shift.
Qed.

(** ** The collision test *)

Lemma collides_true_iff g dx dy cells :
  grid_wf g →
  collides g dx dy cells = Some true ↔ Exists (blocked g dx dy) cells.
Proof.
  intros Hwf. induction cells as [|[x y] cells IH].
  - split; [done|by intros ?%Exists_nil].
  - rewrite Exists_cons, <- IH. clear IH.
    unfold collides; fold collides. cbn zeta. unfold blocked. simpl.
    destruct (x + dx <? 0) eqn:E0; simpl.
    { apply Z.ltb_lt in E0. split; [intros _; left; lia|done]. }
    apply Z.ltb_ge in E0.
    destruct (x + dx >=? GRID_WIDTH) eqn:E1; simpl.
    { apply Z.geb_le in E1. split; [intros _; left; lia|done]. }
    rewrite Z.geb_leb in E1. apply Z.leb_gt in E1.
    destruct (y + dy >=? GRID_HEIGHT) eqn:E2.
    { apply Z.geb_le in E2. split; [intros _; left; lia|done]. }
    rewrite Z.geb_leb in E2. apply Z.leb_gt in E2.
    destruct (y + dy >=? 0) eqn:E3.
    2:{ rewrite Z.geb_leb in E3. apply Z.leb_gt in E3.
        split; [by right|]. intros [H|H]; [lia|done]. }
    apply Z.geb_le in E3.
    destruct (cell_is_Some g (x + dx) (y + dy) Hwf) as [v Hv]; [split; lia|].
    rewrite Hv. unfold cell in Hv.
    destruct (Py.get g (y + dy)) as [row|]; [|done]. simpl in *.
    rewrite Hv. simpl. unfold Py.truthy.
    destruct (Z.eqb_spec v 0) as [->|Hne]; simpl.
    + split; [by right|]. intros [H|H]; [|done].
      destruct H as [?|[?|[?|[_ (v' & [= <-] & ?)]]]]; lia || done.
    + split; [|done]. intros _. left. do 3 right. split; [done|]. by exists v.
Qed.

(** X3.  On a board of the right dimensions [check_collision] never
    raises and leaves the session as it is; it answers [True] exactly when
    some cell of the piece, moved by the offset, is outside a side wall,
    below the floor, or on an occupied cell.  With no piece to test it
    answers [False]. *)
Theorem check_collision_contract (s : t) (dx dy : Z) (piece : option Tetromino.t) :
  grid_wf (grid s) →
  ∃ b, check_collision dx dy piece s = (Ret b, s)
       ∧ match piece, current_piece s with
         | Some p, _ | None, Some p =>
             b = true ↔ Exists (blocked (grid s) dx dy) (Tetromino.get_cells p)
         | None, None => b = false
         end.
Proof.
  intros Hwf. unfold check_collision.
  assert (∀ p, ∃ b,
            (g ← gets grid; lift (collides g dx dy (Tetromino.get_cells p))) s
            = (Ret b, s)
            ∧ (b = true ↔ Exists (blocked (grid s) dx dy)
                            (Tetromino.get_cells p))) as Hp.
  { intros p. rewrite bind_gets.
    destruct (collides_total (grid s) dx dy (Tetromino.get_cells p) Hwf)
      as [b Hb].
    exists b. rewrite Hb. split; [done|].
    rewrite <- collides_true_iff, Hb by done. split; congruence. }
  destruct piece as [p|]; [by rewrite bind_mret|].
  rewrite bind_gets. destruct (current_piece s) as [p|]; [done|].
  by exists false.
Qed.

(** ** Moving the piece *)

Lemma collides_shift g dx dy a b cells :
  collides g dx dy ((λ c, (c.1 + a, c.2 + b)) <$> cells)
  = collides g (a + dx) (b + dy) cells.
Proof.
  induction cells as [|[x y] cells IH]; [done|].
  rewrite fmap_cons. unfold collides; fold collides. cbn zeta. simpl fst. simpl snd.
  rewrite IH.
  by replace (x + a + dx) with (x + (a + dx)) by lia;
     replace (y + b + dy) with (y + (b + dy)) by lia.
Qed.

Lemma collides_moved g dx dy p a b :
  collides g dx dy (Tetromino.get_cells (moved p a b))
  = collides g (a + dx) (b + dy) (Tetromino.get_cells p).
Proof.
  unfold Tetromino.get_cells, moved. simpl.
  by rewrite shape_cells_shift, collides_shift.
Qed.

Lemma collides_false_iff g dx dy cells :
  grid_wf g →
  collides g dx dy cells = Some false ↔ ¬ Exists (blocked g dx dy) cells.
Proof.
  intros Hwf. rewrite <- collides_true_iff by done.
  destruct (collides_total g dx dy cells Hwf) as [[] ->]; split; done.
Qed.

Lemma moved_back p dx dy : moved (moved p dx dy) (- dx) (- dy) = p.
Proof.
  destruct p. unfold moved. simpl.
  unfold Tetromino.set_y, Tetromino.set_x. simpl. f_equal; lia.
Qed.

Lemma set_current_piece_twice s p q :
  set_current_piece p (set_current_piece q s) = set_current_piece p s.
Proof. done. Qed.

Lemma set_current_piece_id s : set_current_piece (current_piece s) s = s.
Proof. by destruct s. Qed.

(** X4.  [move] with no piece answers [False].  With a piece it answers
    [False] and changes nothing when the target position is blocked;
    otherwise it shifts the origin by the offset and nothing else, the piece
    collides with nothing where it arrives, and, if it collided with nothing
    where it was, the opposite move brings the session back. *)
Theorem move_contract (s : t) (dx dy : Z) :
  grid_wf (grid s) →
  (current_piece s = None → move dx dy s = (Ret false, s))
  ∧ ∀ p, current_piece s = Some p →
      let s' := set_current_piece (Some (moved p dx dy)) s in
      (Exists (blocked (grid s) dx dy) (Tetromino.get_cells p) →
       move dx dy s = (Ret false, s))
      ∧ (¬ Exists (blocked (grid s) dx dy) (Tetromino.get_cells p) →
         move dx dy s = (Ret true, s')
         ∧ check_collision 0 0 None s' = (Ret false, s')
         ∧ (¬ Exists (blocked (grid s) 0 0) (Tetromino.get_cells p) →
            move (- dx) (- dy) s' = (Ret true, s))).
Proof.
  intros Hwf. split.
  { intros Hp. unfold move. by rewrite bind_gets, Hp. }
  intros p Hp s'. split.
  - intros Hhit. apply collides_true_iff in Hhit; [|done].
    by rewrite (move_spec dx dy s p true Hp Hhit).
  - intros Hfree. apply collides_false_iff in Hfree; [|done].
    split; [by rewrite (move_spec dx dy s p false Hp Hfree)|].
    assert (current_piece s' = Some (moved p dx dy)) as Hp' by done.
    split.
    + rewrite (check_collision_current 0 0 s' _ Hp'). simpl grid.
      rewrite collides_moved, !Z.add_0_r. by rewrite Hfree.
    + intros Hback. apply collides_false_iff in Hback; [|done].
      rewrite (move_spec (- dx) (- dy) s' _ false Hp').
      * simpl. rewrite moved_back. unfold s'.
        by rewrite set_current_piece_twice, <- Hp, set_current_piece_id.
      * simpl grid. rewrite collides_moved.
        by replace (dx + - dx) with 0 by lia;
           replace (dy + - dy) with 0 by lia.
Qed.

(** ** Falling: the hard drop and the ghost piece *)

Lemma blocked_moved g dx dy p a b :
  grid_wf g →
  Exists (blocked g dx dy) (Tetromino.get_cells (moved p a b))
  ↔ Exists (blocked g (a + dx) (b + dy)) (Tetromino.get_cells p).
Proof.
  intros Hwf. by rewrite <- !collides_true_iff, collides_moved.
Qed.

Lemma moved_zero p : moved p 0 0 = p.
Proof.
  destruct p. unfold moved, Tetromino.set_y, Tetromino.set_x. simpl.
  f_equal; lia.
Qed.

Lemma moved_moved p a b c d : moved (moved p a b) c d = moved p (a + c) (b + d).
Proof.
  destruct p. unfold moved, Tetromino.set_y, Tetromino.set_x. simpl.
  f_equal; lia.
Qed.

Lemma lands_step g p d :
  grid_wf g →
  ¬ Exists (blocked g 0 1) (Tetromino.get_cells p) →
  lands g (moved p 0 1) d ↔ lands g p (d + 1) ∧ 0 ≤ d.
Proof.
  intros Hwf Hfree. unfold lands. split.
  - intros (Hd & Hk & Hhit). split; [|done]. split; [lia|]. split.
    + intros k Hk1. destruct (decide (k = 1)) as [->|]; [done|].
      specialize (Hk (k - 1)). rewrite blocked_moved in Hk by done.
      replace (1 + (k - 1)) with k in Hk by lia. apply Hk. lia.
    + rewrite blocked_moved in Hhit by done.
      by replace (d + 1 + 1) with (1 + (d + 1)) by lia.
  - intros [(_ & Hk & Hhit) Hd]. split; [done|]. split.
    + intros k Hk1. rewrite blocked_moved by done. apply Hk. lia.
    + rewrite blocked_moved by done.
      by replace (1 + (d + 1)) with (d + 1 + 1) by lia.
Qed.

Lemma lands_unique g p d d' : lands g p d → lands g p d' → d = d'.
Proof.
  intros (Hd & Hk & Hhit) (Hd' & Hk' & Hhit').
  destruct (Z.lt_trichotomy d d') as [Hlt|[->|Hlt]]; [|done|].
  - destruct (Hk' (d + 1)); [lia|done].
  - destruct (Hk (d' + 1)); [lia|done].
Qed.

Lemma lands_cases g p d :
  grid_wf g → lands g p d →
  (d = 0 ∧ collides g 0 1 (Tetromino.get_cells p) = Some true)
  ∨ (0 < d ∧ collides g 0 1 (Tetromino.get_cells p) = Some false
     ∧ lands g (moved p 0 1) (d - 1)).
Proof.
  intros Hwf Hl. pose proof Hl as (Hd & Hk & Hhit).
  destruct (decide (d = 0)) as [->|Hne].
  - left. split; [done|]. by apply collides_true_iff.
  - right. split; [lia|].
    assert (¬ Exists (blocked g 0 1) (Tetromino.get_cells p)) as Hfree
      by (apply Hk; lia).
    split; [by apply collides_false_iff|].
    apply lands_step; [done..|]. split; [|lia].
    by replace (d - 1 + 1) with d by lia.
Qed.

Lemma drop_loop_run fuel : ∀ acc s p d,
  grid_wf (grid s) → current_piece s = Some p →
  lands (grid s) p d → (Z.to_nat d < fuel)%nat →
  drop_loop fuel acc s
  = (Ret (acc + d), set_current_piece (Some (moved p 0 d)) s).
Proof.
  induction fuel as [|fuel IH]; intros acc s p d Hwf Hp Hl Hfuel; [lia|].
  cbn [drop_loop].
  destruct (lands_cases _ _ _ Hwf Hl) as [[-> Hc]|(Hd & Hc & Hl')].
  - rewrite (bind_ret _ _ _ _ _ (move_spec 0 1 s p true Hp Hc)). simpl.
    by rewrite moved_zero, <- Hp, set_current_piece_id, Z.add_0_r.
  - rewrite (bind_ret _ _ _ _ _ (move_spec 0 1 s p false Hp Hc)). simpl.
    rewrite (IH _ _ (moved p 0 1) (d - 1)); [|done|done|done|lia].
    rewrite moved_moved, set_current_piece_twice.
    by replace (acc + 1 + (d - 1)) with (acc + d) by lia;
       replace (1 + (d - 1)) with d by lia.
Qed.

Lemma drop_loop_short fuel : ∀ acc s p d,
  grid_wf (grid s) → current_piece s = Some p →
  lands (grid s) p d → (fuel ≤ Z.to_nat d)%nat →
  (drop_loop fuel acc s).1 = Stop OutOfFuel.
Proof.
  induction fuel as [|fuel IH]; intros acc s p d Hwf Hp Hl Hfuel; [done|].
  cbn [drop_loop].
  destruct (lands_cases _ _ _ Hwf Hl) as [[-> Hc]|(Hd & Hc & Hl')];
    [simpl in Hfuel; lia|].
  rewrite (bind_ret _ _ _ _ _ (move_spec 0 1 s p false Hp Hc)). simpl.
  apply (IH _ _ (moved p 0 1) (d - 1)); [done..|lia].
Qed.

Lemma drop_loop_lands fuel : ∀ acc s p d' s',
  grid_wf (grid s) → current_piece s = Some p →
  drop_loop fuel acc s = (Ret d', s') →
  lands (grid s) p (d' - acc).
Proof.
  induction fuel as [|fuel IH]; intros acc s p d' s' Hwf Hp; [done|].
  cbn [drop_loop].
  destruct (collides_total (grid s) 0 1 (Tetromino.get_cells p) Hwf)
    as [b Hb].
  rewrite (bind_ret _ _ _ _ _ (move_spec 0 1 s p b Hp Hb)).
  destruct b; simpl.
  - intros [= <- <-]. replace (acc - acc) with 0 by lia.
    apply collides_true_iff in Hb; [|done]. split; [done|]. split; [|done].
    intros k ?; lia.
  - intros Hrun.
    apply (IH _ _ (moved p 0 1)) in Hrun; [|done..].
    simpl grid in Hrun. apply lands_step in Hrun as [Hl _];
      [|done|by apply collides_false_iff].
    by replace (d' - (acc + 1) + 1) with (d' - acc) in Hl by lia.
Qed.

Lemma lands_exists s p :
  Inv s → current_piece s = Some p → ∃ d, lands (grid s) p d.
Proof.
  intros Hs Hp.
  destruct (drop_loop_enough (S (Z.to_nat (GRID_HEIGHT - Tetromino.y p)))
              0 s p Hs Hp) as (d & s' & Hrun); [lia|].
  exists (d - 0). eapply drop_loop_lands; [by apply Inv_grid_wf|done..].
Qed.

(** X5.  In a session with the invariant the piece has exactly one landing
    distance [d].  With more than [d] units of fuel the loop of [hard_drop]
    makes [d] moves down and stops with the piece [d] rows lower;
    [hard_drop] then adds [2 d] to the score and locks the piece there.
    With [d] units or fewer it runs out of fuel. *)
Theorem hard_drop_lands_piece (s : t) (p : Tetromino.t) (r : nat) (coin : bool) :
  Inv s → current_piece s = Some p →
  ∃ d,
    lands (grid s) p d
    ∧ (∀ d', lands (grid s) p d' → d' = d)
    ∧ (∀ fuel, (Z.to_nat d < fuel)%nat →
         let s1 := set_current_piece (Some (moved p 0 d)) s in
         drop_loop fuel 0 s = (Ret d, s1)
         ∧ hard_drop fuel r coin s
           = lock_piece r coin (set_score (score s + inject_Z (d * 2))%Q s1))
    ∧ (∀ fuel, (fuel ≤ Z.to_nat d)%nat →
         (hard_drop fuel r coin s).1 = Stop OutOfFuel).
Proof.
  intros Hs Hp. pose proof (Inv_grid_wf s Hs) as Hwf.
  destruct (lands_exists s p Hs Hp) as [d Hl]. exists d.
  split; [done|]. split; [intros d' Hl'; by eapply lands_unique|].
  split.
  - intros fuel Hfuel s1.
    pose proof (drop_loop_run fuel 0 s p d Hwf Hp Hl Hfuel) as Hrun.
    rewrite Z.add_0_l in Hrun. split; [done|].
    unfold hard_drop. rewrite bind_gets, Hp.
    by rewrite (bind_ret _ _ _ _ _ Hrun), bind_modify.
  - intros fuel Hfuel. unfold hard_drop. rewrite bind_gets, Hp.
    pose proof (drop_loop_short fuel 0 s p d Hwf Hp Hl Hfuel) as Hrun.
    destruct (drop_loop fuel 0 s) as [[d'|e] s'] eqn:Hloop; [done|].
    simpl in Hrun. injection Hrun as ->.
    by rewrite (bind_stop _ _ _ _ _ Hloop).
Qed.

Lemma check_collision_given dx dy q s :
  check_collision dx dy (Some q) s
  = lift (collides (grid s) dx dy (Tetromino.get_cells q)) s.
Proof. unfold check_collision. by rewrite bind_mret, bind_gets. Qed.

Lemma set_y_moved q d : Tetromino.set_y (Tetromino.y q + d) q = moved q 0 d.
Proof.
  destruct q. unfold moved, Tetromino.set_y, Tetromino.set_x. simpl.
  f_equal; lia.
Qed.

Lemma ghost_loop_run fuel : ∀ q s d,
  grid_wf (grid s) → lands (grid s) q d → (Z.to_nat d < fuel)%nat →
  ghost_loop fuel q s = (Ret (moved q 0 d), s).
Proof.
  induction fuel as [|fuel IH]; intros q s d Hwf Hl Hfuel; [lia|].
  cbn [ghost_loop].
  destruct (lands_cases _ _ _ Hwf Hl) as [[-> Hc]|(Hd & Hc & Hl')].
  - rewrite (bind_ret _ _ _ true s); [|by rewrite check_collision_given, Hc].
    simpl. by rewrite moved_zero.
  - rewrite (bind_ret _ _ _ false s); [|by rewrite check_collision_given, Hc].
    simpl. rewrite set_y_moved, (IH _ _ (d - 1)); [|done|done|lia].
    rewrite moved_moved. by replace (1 + (d - 1)) with d by lia.
Qed.

Lemma lands_cells g p q d :
  Tetromino.get_cells p = Tetromino.get_cells q → lands g p d → lands g q d.
Proof. unfold lands. by intros ->. Qed.

(** X6.  The ghost piece.  Without the upgrade nothing is computed.  With
    it, in a session with the invariant, the loop of [draw_grid] stops (given
    more fuel than the landing distance [d]) with a ghost that has the
    current piece's shape and column and lies [d] rows lower, which is where
    the loop of [hard_drop] leaves the piece; the session is not changed. *)
Theorem draw_grid_ghost_where_piece_lands (s : t) (p : Tetromino.t) :
  Inv s → current_piece s = Some p →
  (Upgrades.ghost_piece (upgrades s) = false →
   ∀ fuel, draw_grid_ghost fuel s = (Ret None, s))
  ∧ (Upgrades.ghost_piece (upgrades s) = true →
     ∃ d, lands (grid s) p d
       ∧ ∀ fuel, (Z.to_nat d < fuel)%nat →
           ∃ ghost,
             draw_grid_ghost fuel s = (Ret (Some ghost), s)
             ∧ Tetromino.shape ghost = Tetromino.shape p
             ∧ Tetromino.x ghost = Tetromino.x p
             ∧ Tetromino.y ghost = Tetromino.y p + d
             ∧ Tetromino.get_cells ghost = Tetromino.get_cells (moved p 0 d)
             ∧ current_piece (drop_loop fuel 0 s).2 = Some (moved p 0 d)).
Proof.
  intros Hs Hp. pose proof (Inv_grid_wf s Hs) as Hwf. split.
  { intros Hup fuel. unfold draw_grid_ghost. by rewrite bind_gets, Hup. }
  intros Hup. destruct (lands_exists s p Hs Hp) as [d Hl]. exists d.
  split; [done|]. intros fuel Hfuel.
  destruct (inv_piece s Hs p Hp) as (Hid & _ & _).
  destruct (init_catalog (Tetromino.shape_index p) (Tetromino.x p)
              (Tetromino.y p) Hid) as (sh & col & _ & _ & Hinit).
  set (q := Tetromino.set_shape (Tetromino.shape p)
              (Tetromino.mk (Tetromino.shape_index p) sh col (Tetromino.x p)
                 (Tetromino.y p) 0 false)).
  assert (Tetromino.get_cells p = Tetromino.get_cells q) as Hcells by done.
  exists (moved q 0 d).
  split; [|split; [done|split; [simpl; lia|split; [done|split]]]].
  - unfold draw_grid_ghost. rewrite bind_gets, Hup, bind_gets, Hp, Hinit.
    rewrite bind_lift_Some. fold q.
    by rewrite (bind_ret _ _ _ _ _
                  (ghost_loop_run fuel q s d Hwf
                     (lands_cells _ _ _ _ Hcells Hl) Hfuel)).
  - unfold Tetromino.get_cells, moved. simpl. done.
  - by rewrite (drop_loop_run fuel 0 s p d Hwf Hp Hl Hfuel).
Qed.

(** ** Locking, clearing and spawning *)

(** X7.  Locking a piece that is not a bomb writes its index plus one into
    exactly the cells the piece covers inside the board, leaves every other
    cell and the rest of the session alone, and then goes on to clear lines
    and to spawn. *)
Theorem lock_piece_writes_piece_cells
    (s : t) (p : Tetromino.t) (r : nat) (coin : bool) :
  grid_wf (grid s) → current_piece s = Some p → fits p →
  Tetromino.is_bomb p = false →
  ∃ s2,
    settle_piece s = (Ret tt, s2)
    ∧ s2 = set_grid (grid s2) s
    ∧ grid_wf (grid s2)
    ∧ (∀ x y, in_grid x y →
         cell (grid s2) x y
         = if decide ((x, y) ∈ Tetromino.get_cells p)
           then Some (Tetromino.shape_index p + 1) else cell (grid s) x y)
    ∧ lock_piece r coin s = (clear_lines;; spawn_piece r coin) s2.
Proof.
  intros Hwf Hp Hfit Hbomb. exists (settled s p).
  split; [by apply settle_piece_spec|].
  assert (settled s p
          = set_grid (written (grid s) (Tetromino.get_cells p)
                        (Tetromino.shape_index p + 1)) s) as ->
    by (unfold settled; by rewrite Hbomb).
  split; [done|]. split; [by apply written_wf|]. split.
  - intros x y Hxy. simpl. by apply cell_written.
  - rewrite (lock_piece_settled r coin s p Hwf Hp Hfit).
    unfold settled. by rewrite Hbomb.
Qed.

(** X8.  After [clear_lines] the board has no full row, so that a second
    call finds nothing to do and leaves the session as it is. *)
Theorem clear_lines_twice (s : t) :
  length (grid s) = Z.to_nat GRID_HEIGHT →
  let s1 := (clear_lines s).2 in
  full_count (grid s1) = 0%nat
  ∧ length (grid s1) = Z.to_nat GRID_HEIGHT
  ∧ clear_lines s1 = (Ret tt, s1).
Proof.
  intros Hlen s1.
  assert (grid s1 = compact (grid s)) as Hg by (by apply clear_lines_grid).
  assert (full_count (grid s1) = 0%nat) as H0
    by (rewrite Hg; apply full_count_compact).
  assert (length (grid s1) = Z.to_nat GRID_HEIGHT) as Hlen1
    by (by rewrite Hg, compact_length).
  split; [done|]. split; [done|].
  by rewrite (clear_lines_spec s1 Hlen1), H0.
Qed.

(** X9.  [spawn_piece] materialises the piece announced by
    [next_piece_index], unrotated, at column 4 of the top row, a bomb only
    if bombs are bought and the coin says so; it announces a card of the
    deck as the next piece, re-enables holding and leaves board and score
    alone.  The game is over exactly when the new piece is blocked where
    it stands; otherwise state and [game_over] are as before. *)
Theorem spawn_piece_contract (s : t) (r : nat) (coin : bool) :
  grid_wf (grid s) → shape_id_ok (next_piece_index s) →
  ∃ s' q sh col,
    spawn_piece r coin s = (Ret tt, s')
    ∧ SHAPES !! Z.to_nat (next_piece_index s) = Some sh
    ∧ SHAPE_COLORS !! Z.to_nat (next_piece_index s) = Some col
    ∧ q = Tetromino.mk (next_piece_index s) sh col 4 0 0
            (Upgrades.bomb_piece (upgrades s) && coin)
    ∧ current_piece s' = Some q
    ∧ next_piece_index s' ∈ piece_deck s'
    ∧ (piece_deck s ≠ [] → piece_deck s' = piece_deck s)
    ∧ can_hold s' = true
    ∧ grid s' = grid s
    ∧ score s' = score s
    ∧ (Exists (blocked (grid s) 0 0) (Tetromino.get_cells q) →
       game_over s' = true ∧ state s' = GAME_OVER)
    ∧ (¬ Exists (blocked (grid s) 0 0) (Tetromino.get_cells q) →
       game_over s' = game_over s ∧ state s' = state s).
Proof.
  intros Hwf Hid.
  destruct (spawn_piece_spec r coin s Hwf Hid)
    as (v & q0 & hit & Hdraw & Hinit & Hhit & Hrun).
  destruct (init_catalog (next_piece_index s) (GRID_WIDTH `div` 2 - 1) 0 Hid)
    as (sh & col & Hsh & Hcol & Hinit').
  rewrite Hinit' in Hinit. injection Hinit as <-.
  destruct (draw_spec r s) as (v' & s1 & Hdraw' & Hs1 & Hv).
  rewrite Hdraw' in Hdraw. injection Hdraw as ->.
  eexists _, _, sh, col. split; [exact Hrun|].
  split; [done|]. split; [done|]. split; [reflexivity|].
  assert (piece_deck (spawned s v
            (Tetromino.set_is_bomb (Upgrades.bomb_piece (upgrades s) && coin)
               (Tetromino.mk (next_piece_index s) sh col
                  (GRID_WIDTH `div` 2 - 1) 0 0 false)) hit)
          = piece_deck s1) as Hdeck.
  { rewrite Hs1. unfold spawned. by destruct hit, (piece_deck s). }
  split; [unfold spawned; by destruct hit|].
  split; [rewrite Hdeck; unfold spawned; by destruct hit|].
  split.
  { intros Hne. rewrite Hdeck, Hs1.
    destruct (piece_deck s) eqn:E; [by destruct Hne|done]. }
  split; [unfold spawned; by destruct hit, (piece_deck s)|].
  split; [unfold spawned; by destruct hit, (piece_deck s)|].
  split; [unfold spawned; by destruct hit, (piece_deck s)|].
  split.
  - intros Hb. apply collides_true_iff in Hb; [|done].
    change (Tetromino.mk (next_piece_index s) sh col 4 0 0
              (Upgrades.bomb_piece (upgrades s) && coin))
      with (Tetromino.set_is_bomb (Upgrades.bomb_piece (upgrades s) && coin)
              (Tetromino.mk (next_piece_index s) sh col
                 (GRID_WIDTH `div` 2 - 1) 0 0 false)) in Hb.
    rewrite Hb in Hhit. injection Hhit as <-. done.
  - intros Hb. apply collides_false_iff in Hb; [|done].
    change (Tetromino.mk (next_piece_index s) sh col 4 0 0
              (Upgrades.bomb_piece (upgrades s) && coin))
      with (Tetromino.set_is_bomb (Upgrades.bomb_piece (upgrades s) && coin)
              (Tetromino.mk (next_piece_index s) sh col
                 (GRID_WIDTH `div` 2 - 1) 0 0 false)) in Hb.
    rewrite Hb in Hhit. injection Hhit as <-.
    unfold spawned. by destruct (piece_deck s).
Qed.

(** ** The clock *)

Lemma gravity_step s p dt :
  grid_wf (grid s) → current_piece s = Some p →
  ∃ p' ft,
    (modify (λ s, set_fall_time (fall_time s + dt) s);;
     ft ← gets fall_time;
     fs ← gets fall_speed;
     if ft >=? fs then move 0 1;; modify (set_fall_time 0) else mret tt) s
    = (Ret tt, set_fall_time ft (set_current_piece (Some p') s))
    ∧ (fall_time s + dt < fall_speed s → p' = p ∧ ft = fall_time s + dt)
    ∧ (fall_speed s ≤ fall_time s + dt →
       ft = 0
       ∧ (Exists (blocked (grid s) 0 1) (Tetromino.get_cells p) → p' = p)
       ∧ (¬ Exists (blocked (grid s) 0 1) (Tetromino.get_cells p) →
          p' = moved p 0 1)).
Proof.
  intros Hwf Hp. mrun.
  cbn [fall_time fall_speed set_fall_time].
  destruct (Z.geb_spec (fall_time s + dt) (fall_speed s)) as [Hge|Hlt].
  - destruct (collides_total (grid s) 0 1 (Tetromino.get_cells p) Hwf)
      as [b Hb].
    rewrite (bind_ret _ _ _ _ _
               (move_spec 0 1 (set_fall_time (fall_time s + dt) s) p b Hp Hb)).
    rewrite run_modify. destruct b.
    + exists p, 0. split; [by rewrite <- Hp; destruct s|].
      split; [lia|]. intros _. split; [done|]. split; [done|].
      intros Hfree. by apply collides_false_iff in Hfree; [rewrite Hb in Hfree|].
    + exists (moved p 0 1), 0. split; [done|]. split; [lia|].
      intros _. split; [done|]. split; [|done].
      intros Hhit. by apply collides_true_iff in Hhit; [rewrite Hb in Hhit|].
  - exists p, (fall_time s + dt). rewrite run_mret.
    split; [by rewrite <- Hp; destruct s|]. split; [done|lia].
Qed.

Lemma update_playing s p dt :
  grid_wf (grid s) → state s = PLAYING → current_piece s = Some p →
  ∃ p' ft,
    update dt s
    = (Ret tt,
       let s1 := set_fall_time ft (set_current_piece (Some p') s) in
       if Qle_bool (inject_Z (round_target s)) (score s)
       then set_state SHOP
              (set_money (money s + (100 + round_number s * 50)) s1)
       else s1)
    ∧ (fall_time s + dt < fall_speed s → p' = p ∧ ft = fall_time s + dt)
    ∧ (fall_speed s ≤ fall_time s + dt →
       ft = 0
       ∧ (Exists (blocked (grid s) 0 1) (Tetromino.get_cells p) → p' = p)
       ∧ (¬ Exists (blocked (grid s) 0 1) (Tetromino.get_cells p) →
          p' = moved p 0 1)).
Proof.
  intros Hwf Hst Hp.
  destruct (gravity_step s p dt Hwf Hp) as (p' & ft & Hrun & Hlt & Hge).
  exists p', ft. split; [|done].
  unfold update. rewrite bind_gets, Hst. cbn beta iota.
  rewrite bind_gets, Hp. cbn beta iota.
  rewrite (bind_ret _ _ _ _ _ Hrun). mrun.
  cbn [score round_target set_fall_time set_current_piece].
  by destruct (Qle_bool (inject_Z (round_target s)) (score s)).
Qed.

(** X10.  One tick of the clock while playing.  The time since the last
    step is accumulated; once it reaches [fall_speed] the piece goes down by
    one row if it can, by one row only however long the tick was, and the
    accumulated time starts again from zero.  Board and score are not
    touched.  After that the round ends when the score has reached the
    target: the player is paid [100 + 50 * round_number] and taken to the
    shop. *)
Theorem update_one_row_per_tick (s : t) (p : Tetromino.t) (dt : Z) :
  grid_wf (grid s) → state s = PLAYING → current_piece s = Some p →
  ∃ s',
    update dt s = (Ret tt, s')
    ∧ grid s' = grid s ∧ score s' = score s
    ∧ (fall_time s + dt < fall_speed s →
       current_piece s' = Some p ∧ fall_time s' = fall_time s + dt)
    ∧ (fall_speed s ≤ fall_time s + dt →
       fall_time s' = 0
       ∧ (Exists (blocked (grid s) 0 1) (Tetromino.get_cells p) →
          current_piece s' = Some p)
       ∧ (¬ Exists (blocked (grid s) 0 1) (Tetromino.get_cells p) →
          current_piece s' = Some (moved p 0 1)))
    ∧ ((inject_Z (round_target s) <= score s)%Q →
       state s' = SHOP ∧ money s' = money s + (100 + round_number s * 50))
    ∧ (¬ (inject_Z (round_target s) <= score s)%Q →
       state s' = PLAYING ∧ money s' = money s).
Proof.
  intros Hwf Hst Hp.
  destruct (update_playing s p dt Hwf Hst Hp) as (p' & ft & Hrun & Hlt & Hge).
  eexists. split; [exact Hrun|]. cbn zeta.
  destruct (Qle_bool (inject_Z (round_target s)) (score s)) eqn:Hq.
  - apply Qle_bool_iff in Hq. simpl.
    split; [done|]. split; [done|].
    split; [intros H; by destruct (Hlt H) as [-> ->]|].
    split; [intros H; destruct (Hge H) as (-> & H1 & H2); split; [done|];
            split; intros H3; f_equal; auto|].
    split; [done|]. by intros [].
  - assert (¬ (inject_Z (round_target s) <= score s)%Q) as Hn
      by (rewrite <- Qle_bool_iff; congruence).
    simpl. split; [done|]. split; [done|].
    split; [intros H; by destruct (Hlt H) as [-> ->]|].
    split; [intros H; destruct (Hge H) as (-> & H1 & H2); split; [done|];
            split; intros H3; f_equal; auto|].
    split; [done|]. done.
Qed.

(** X11.  Leaving the shop with the escape key does not start a new round:
    the score still meets the target, so the tick of the same frame pays
    the round bonus once more and returns to the shop. *)
Theorem escape_from_shop_pays_again (s : t) (dt : Z) :
  grid_wf (grid s) → state s = SHOP →
  (inject_Z (round_target s) <= score s)%Q →
  ∃ s',
    (escape;; update dt) s = (Ret tt, s')
    ∧ state s' = SHOP
    ∧ money s' = money s + (100 + round_number s * 50)
    ∧ score s' = score s ∧ round_number s' = round_number s
    ∧ round_target s' = round_target s ∧ grid s' = grid s.
Proof.
  intros Hwf Hst Hq. apply Qle_bool_iff in Hq.
  assert (escape s = (Ret tt, set_state PLAYING s)) as Hesc
    by (unfold escape; by rewrite bind_gets, Hst).
  rewrite (bind_ret _ _ _ _ _ Hesc).
  destruct (current_piece s) as [p|] eqn:Hp.
  - destruct (update_playing (set_state PLAYING s) p dt)
      as (p' & ft & Hrun & _); [done..|].
    eexists. split; [exact Hrun|]. cbn zeta.
    cbn [score round_target set_state]. by rewrite Hq.
  - unfold update. rewrite bind_gets. cbn [state set_state].
    rewrite bind_gets. cbn [current_piece set_state]. rewrite Hp. mrun.
    cbn [score round_target set_state].
    rewrite Hq. mrun. eexists. split; [reflexivity|].
    done.
Qed.

(** ** Rounds *)

Lemma cell_empty_grid x y v : cell empty_grid x y = Some v → v = 0.
Proof.
  unfold cell. destruct (Py.get empty_grid y) as [row|] eqn:Hrow; [|done].
  simpl. intros Hv. apply get_Some_elem_of in Hrow, Hv.
  apply elem_of_replicate in Hrow as [-> _].
  by apply elem_of_replicate in Hv as [-> _].
Qed.

Lemma free_on_empty_grid q :
  fits q → ¬ Exists (blocked empty_grid 0 0) (Tetromino.get_cells q).
Proof.
  unfold fits. rewrite Forall_forall, Exists_exists.
  intros Hfit (c & Hc & Hb). specialize (Hfit c Hc).
  destruct Hb as [?|[?|[?|[_ (v & Hv & Hne)]]]]; [lia..|].
  by apply cell_empty_grid in Hv.
Qed.

Lemma level_boost_in js :
  existsb (String.eqb "Level Boost") js = true ↔ "Level Boost" ∈ js.
Proof.
  rewrite existsb_exists. split.
  - intros (x & Hx & ->%String.eqb_eq). by apply list_elem_of_In.
  - intros Hx. exists "Level Boost". split; [by apply list_elem_of_In|].
    by apply String.eqb_eq.
Qed.

Lemma init_origin i x y q :
  Tetromino.init i x y = Some q →
  Tetromino.shape_index q = i ∧ Tetromino.x q = x ∧ Tetromino.y q = y.
Proof.
  unfold Tetromino.init.
  destruct (Py.get SHAPES i); [|done]. simpl.
  destruct (Py.get SHAPE_COLORS i); [|done]. simpl.
  by intros [= <-].
Qed.

(** The session [start_next_round] leaves. *)
Lemma start_next_round_spec s r1 r2 coin :
  Inv s →
  ∃ v1 v2 q deck,
    start_next_round r1 r2 coin s
    = (Ret tt,
       set_state PLAYING
         (set_can_hold true
            (set_current_piece (Some q)
               (set_next_piece_index v2
                  (set_piece_deck deck
                     (set_grid empty_grid
                        (let boost := existsb (String.eqb "Level Boost")
                                        (jokers s) in
                         set_fall_speed (if boost then 400 else 500)
                           (set_level (if boost then 3 else 1)
                              (set_lines_cleared 0
                                 (set_score 0
                                    (set_round_target
                                       (1000 * (round_number s + 1))
                                       (set_round_number (round_number s + 1)
                                          s))))))))))))
    ∧ deck = match piece_deck s with
             | [] => [0; 1; 2; 3; 4; 5; 6]
             | _ :: _ => piece_deck s
             end
    ∧ v1 ∈ deck ∧ v2 ∈ deck
    ∧ Tetromino.init v1 4 0
      = Some (Tetromino.set_is_bomb false q)
    ∧ Tetromino.is_bomb q = Upgrades.bomb_piece (upgrades s) && coin.
Proof.
  intros Hs. unfold start_next_round. mrun.
  cbn [jokers set_fall_speed set_level set_lines_cleared set_score
       set_round_target set_round_number].
  set (boost := existsb (String.eqb "Level Boost") (jokers s)).
  set (s0 := set_fall_speed (if boost then 400 else 500)
               (set_level (if boost then 3 else 1)
                  (set_lines_cleared 0
                     (set_score 0
                        (set_round_target (1000 * (round_number s + 1))
                           (set_round_number (round_number s + 1) s)))))).
  assert (((if boost
            then modify (λ s, set_level (level s + 2) s);;
                 modify (λ s, set_fall_speed (Z.max 100 (fall_speed s - 100)) s)
            else mret tt)
             (set_fall_speed 500
                (set_level 1
                   (set_lines_cleared 0
                      (set_score 0
                         (set_round_target (1000 * (round_number s + 1))
                            (set_round_number (round_number s + 1) s)))))))
          = (Ret tt, s0)) as Hboost by (unfold s0; by destruct boost).
  rewrite (bind_ret _ _ _ _ _ Hboost). mrun.
  assert (Inv (set_grid empty_grid s0)) as Hs0.
  { apply Inv_set_grid_empty. unfold s0. inv_ext. }
  destruct (draw_spec r1 (set_grid empty_grid s0))
    as (v1 & s1 & Hdraw & Hs1 & Hv1).
  destruct (draw_returns r1 _ Hs0) as (v1' & s1' & Hdraw' & Hinv1 & Hok1).
  rewrite Hdraw in Hdraw'. injection Hdraw' as <- <-.
  rewrite (bind_ret _ _ _ _ _ Hdraw). mrun.
  set (deck := match piece_deck s with
               | [] => [0; 1; 2; 3; 4; 5; 6]
               | _ :: _ => piece_deck s
               end).
  assert (s1 = set_piece_deck deck (set_grid empty_grid s0)) as Hs1'.
  { rewrite Hs1. unfold deck. change (piece_deck (set_grid empty_grid s0))
      with (piece_deck s).
    destruct (piece_deck s) eqn:E; [done|].
    rewrite <- E. change (piece_deck s) with (piece_deck (set_grid empty_grid s0)).
    by rewrite set_piece_deck_id. }
  assert (grid_wf (grid (set_next_piece_index v1 s1))) as Hwf
    by (apply Inv_grid_wf; by apply Inv_set_next).
  destruct (spawn_piece_spec r2 coin (set_next_piece_index v1 s1) Hwf Hok1)
    as (v2 & q0 & hit & Hdraw2 & Hinit & Hhit & Hrun).
  destruct (draw_spec r2 (set_next_piece_index v1 s1))
    as (v2' & s2 & Hdraw2' & Hs2 & Hv2).
  rewrite Hdraw2' in Hdraw2. injection Hdraw2 as ->.
  cbn zeta in Hhit.
  set (q := Tetromino.set_is_bomb _ q0) in *.
  assert (hit = false) as ->.
  { assert (collides empty_grid 0 0 (Tetromino.get_cells q) = Some false)
      as Hfree.
    { apply collides_false_iff; [by rewrite Hs1' in Hwf|].
      apply free_on_empty_grid.
      by destruct (piece_ok_spawned v1 q0
                     (Upgrades.bomb_piece
                        (upgrades (set_next_piece_index v1 s1)) && coin)
                     Hok1 Hinit) as (_ & _ & ?). }
    rewrite Hs1' in Hhit. cbn [grid set_next_piece_index set_piece_deck
                                 set_grid] in Hhit.
    congruence. }
  rewrite (bind_ret _ _ _ _ _ Hrun). rewrite run_modify.
  exists v1, v2, q, deck. split.
  { f_equal. unfold spawned. rewrite Hs1'.
    cbn [piece_deck set_next_piece_index set_piece_deck].
    assert (deck ≠ []) as Hne by (unfold deck; by destruct (piece_deck s)).
    destruct deck eqn:E; [done|]. done. }
  split; [done|].
  split; [by rewrite Hs1' in Hv1|].
  split.
  { rewrite Hs2 in Hv2. rewrite Hs1' in Hv2.
    cbn [piece_deck set_next_piece_index set_piece_deck] in Hv2.
    assert (deck ≠ []) as Hne by (unfold deck; by destruct (piece_deck s)).
    by destruct deck. }
  split.
  { cbn [next_piece_index set_next_piece_index] in Hinit.
    change (GRID_WIDTH `div` 2 - 1) with 4 in Hinit.
    destruct (init_catalog v1 4 0 Hok1) as (sh & col & _ & _ & Hinit').
    rewrite Hinit' in Hinit. injection Hinit as <-. by rewrite Hinit'. }
  unfold q. rewrite Hs1'. by destruct q0.
Qed.

(** X12.  [start_next_round] raises the round number by one and sets the
    target to a thousand times the new number; score and line count start
    from zero, level and speed from 1 and 500, or from 3 and 400 with the
    Level Boost joker.  The board is emptied, a piece drawn from the deck is
    spawned (never ending the game), and play resumes.  Money, jokers,
    upgrades, the held piece and the time accumulated by the clock are
    carried over. *)
Theorem start_next_round_effect (s : t) (r1 r2 : nat) (coin : bool) :
  Inv s →
  ∃ s',
    start_next_round r1 r2 coin s = (Ret tt, s')
    ∧ round_number s' = round_number s + 1
    ∧ round_target s' = 1000 * round_number s'
    ∧ score s' = 0%Q ∧ lines_cleared s' = 0
    ∧ ("Level Boost" ∈ jokers s → level s' = 3 ∧ fall_speed s' = 400)
    ∧ ("Level Boost" ∉ jokers s → level s' = 1 ∧ fall_speed s' = 500)
    ∧ grid s' = empty_grid
    ∧ state s' = PLAYING ∧ game_over s' = game_over s
    ∧ (∃ q, current_piece s' = Some q
            ∧ Tetromino.x q = 4 ∧ Tetromino.y q = 0
            ∧ Tetromino.shape_index q ∈ piece_deck s')
    ∧ next_piece_index s' ∈ piece_deck s'
    ∧ money s' = money s ∧ jokers s' = jokers s ∧ upgrades s' = upgrades s
    ∧ held_piece s' = held_piece s ∧ fall_time s' = fall_time s.
Proof.
  intros Hs.
  destruct (start_next_round_spec s r1 r2 coin Hs)
    as (v1 & v2 & q & deck & Hrun & Hdeck & Hv1 & Hv2 & Hinit & Hbomb).
  eexists. split; [exact Hrun|]. cbn zeta.
  pose proof (level_boost_in (jokers s)) as Hb.
  destruct (existsb (String.eqb "Level Boost") (jokers s)); simpl.
  all: split; [done|]; split; [done|]; split; [done|]; split; [done|].
  all: split; [intros Hin; apply Hb in Hin; done|].
  all: split; [intros Hin; try done; destruct Hin; by apply Hb|].
  all: split; [done|]; split; [done|]; split; [done|].
  all: split; [|done].
  all: exists q; split; [done|].
  all: destruct (init_origin _ _ _ _ Hinit) as (H1 & H2 & H3).
  all: split; [exact H2|split; [exact H3|]].
  all: change (Tetromino.shape_index q)
         with (Tetromino.shape_index (Tetromino.set_is_bomb false q)).
  all: by rewrite H1.
Qed.

Lemma draw_from_catalog_deck r s :
  piece_deck s = [0; 1; 2; 3; 4; 5; 6] →
  get_random_piece_from_deck r s = (Ret (Z.of_nat (r `mod` 7)), s).
Proof.
  intros Hdeck.
  assert (Py.choice r [0; 1; 2; 3; 4; 5; 6] = Some (Z.of_nat (r `mod` 7)))
    as Hchoice.
  { unfold Py.choice. change (length [0; 1; 2; 3; 4; 5; 6]) with 7%nat.
    pose proof (Nat.mod_upper_bound r 7) as Hr.
    destruct (r `mod` 7)%nat as [|[|[|[|[|[|[|n]]]]]]]; try done. lia. }
  unfold get_random_piece_from_deck.
  rewrite bind_gets, Hdeck, bind_mret, bind_gets, Hdeck. by rewrite Hchoice.
Qed.

Lemma reset_game_run r s :
  reset_game r s
  = (Ret tt,
     mk empty_grid None (Z.of_nat (r `mod` 7)) 0 0 1 0 500 false MENU 1 1000
        500 [0; 1; 2; 3; 4; 5; 6] [] default_upgrades None true [] 0 None 0).
Proof.
  unfold reset_game. mrun.
  change (Z.of_nat <$> Py.range (length SHAPES)) with [0; 1; 2; 3; 4; 5; 6].
  lazymatch goal with
  | |- context [(get_random_piece_from_deck r ≫= _) ?s1] =>
      rewrite (bind_ret _ _ _ _ _ (draw_from_catalog_deck r s1 eq_refl))
  end.
  mrun. done.
Qed.

(** X13.  [reset_game] assigns every attribute: the session it leaves is
    the same whatever the session it is called on, namely the one a new
    object starts in, with an empty board, no piece, 500 money, the seven
    catalog pieces as deck and one of them announced, no jokers and no
    upgrades. *)
Theorem reset_game_forgets_everything (r : nat) (s : t) :
  reset_game r s = (Ret tt, new_game r)
  ∧ new_game r
    = mk empty_grid None (Z.of_nat (r `mod` 7)) 0 0 1 0 500 false MENU 1 1000
         500 [0; 1; 2; 3; 4; 5; 6] [] default_upgrades None true [] 0 None 0.
Proof.
  unfold new_game. by rewrite !reset_game_run.
Qed.

(** ** Jokers, the shop and packs *)


Lemma apply_jokers_ge js n b : 0 ≤ n → 0 ≤ b → b ≤ apply_jokers js n b.
Proof.
  intros Hn. revert b. induction js as [|j js IH]; intros b Hb; simpl; [lia|].
  destruct (String.eqb j "Double Points");
    [|destruct (String.eqb j "Line Bonus")];
    (etrans; [|apply IH]); lia.
Qed.


Lemma joker_owned j js :
  existsb (String.eqb (joker_name j)) js = true ↔ joker_name j ∈ js.
Proof.
  rewrite existsb_exists. split.
  - intros (x & Hx & ->%String.eqb_eq). by apply list_elem_of_In.
  - intros Hx. exists (joker_name j). split; [by apply list_elem_of_In|].
    by apply String.eqb_eq.
Qed.

Lemma click_upgrade_run k s :
  click_upgrade k s
  = (Ret tt,
     if upgrade_owned k (upgrades s) then s
     else if money s >=? upgrade_cost k
          then set_upgrades (apply_upgrade k (upgrades s))
                 (set_money (money s - upgrade_cost k) s)
          else s).
Proof.
  unfold click_upgrade. mrun.
  destruct (upgrade_owned k (upgrades s)); [done|]. mrun.
  by destruct (money s >=? upgrade_cost k).
Qed.

Lemma click_joker_run j s :
  click_joker j s
  = (Ret tt,
     if existsb (String.eqb (joker_name j)) (jokers s) then s
     else if money s >=? joker_cost j
          then set_jokers (jokers s ++ [joker_name j])
                 (set_money (money s - joker_cost j) s)
          else s).
Proof.
  unfold click_joker. mrun.
  destruct (existsb _ (jokers s)); [done|]. mrun.
  by destruct (money s >=? joker_cost j).
Qed.

(** X15.  A click on an upgrade or a joker either changes nothing (the
    player cannot pay, or owns the joker or the one-off upgrade already) or
    takes exactly the price and adds the item, the joker at the end of the
    list.  Nothing else in the session changes, and a one-off upgrade or a
    joker once bought cannot be bought again. *)
Theorem shop_purchase_contract (s : t) :
  (∀ k,
     let bought := set_upgrades (apply_upgrade k (upgrades s))
                     (set_money (money s - upgrade_cost k) s) in
     (upgrade_owned k (upgrades s) = true ∨ money s < upgrade_cost k →
      click_upgrade k s = (Ret tt, s))
     ∧ (upgrade_owned k (upgrades s) = false → upgrade_cost k ≤ money s →
        click_upgrade k s = (Ret tt, bought)
        ∧ (k ∈ [HoldPiece; GhostPiece; BombPiece] →
           click_upgrade k bought = (Ret tt, bought))))
  ∧ (∀ j,
       let bought := set_jokers (jokers s ++ [joker_name j])
                       (set_money (money s - joker_cost j) s) in
       (joker_name j ∈ jokers s ∨ money s < joker_cost j →
        click_joker j s = (Ret tt, s))
       ∧ (joker_name j ∉ jokers s → joker_cost j ≤ money s →
          click_joker j s = (Ret tt, bought)
          ∧ click_joker j bought = (Ret tt, bought))).
Proof.
  split.
  - intros k bought. split.
    + intros H. rewrite click_upgrade_run.
      destruct (upgrade_owned k (upgrades s)); [done|].
      destruct H as [?|H]; [done|].
      by destruct (Z.geb_spec (money s) (upgrade_cost k)); [lia|].
    + intros Hown Hpay.
      assert (click_upgrade k s = (Ret tt, bought)) as Hrun.
      { rewrite click_upgrade_run, Hown.
        by destruct (Z.geb_spec (money s) (upgrade_cost k)); [|lia]. }
      split; [done|]. intros Hk. rewrite click_upgrade_run.
      assert (upgrade_owned k (upgrades bought) = true) as ->; [|done].
      unfold bought. simpl.
      repeat (apply elem_of_cons in Hk as [->|Hk]; [done|]).
      by apply elem_of_nil in Hk.
  - intros j bought. split.
    + intros H. rewrite click_joker_run.
      destruct (existsb _ (jokers s)) eqn:E; [done|].
      destruct H as [H|H]; [apply joker_owned in H; congruence|].
      by destruct (Z.geb_spec (money s) (joker_cost j)); [lia|].
    + intros Hown Hpay.
      assert (existsb (String.eqb (joker_name j)) (jokers s) = false) as E.
      { destruct (existsb _ (jokers s)) eqn:E; [|done].
        by apply joker_owned in E. }
      split.
      * rewrite click_joker_run, E.
        by destruct (Z.geb_spec (money s) (joker_cost j)); [|lia].
      * rewrite click_joker_run.
        assert (existsb (String.eqb (joker_name j)) (jokers bought) = true)
          as ->; [|done].
        apply joker_owned. unfold bought. simpl.
        apply elem_of_app. right. by apply list_elem_of_singleton.
Qed.

Lemma fill_pack pt draws coins (body : nat → M unit) :
  (∀ i s, body i s
          = (Ret tt,
             set_pack_contents
               (pack_contents s ++ [pack_card pt draws coins i]) s)) →
  ∀ l s,
    for_each l body s
    = (Ret tt,
       set_pack_contents
         (pack_contents s ++ (pack_card pt draws coins <$> l)) s).
Proof.
  intros Hbody l. induction l as [|i l IH]; intros s.
  - simpl. rewrite app_nil_r. by destruct s.
  - cbn [for_each]. rewrite (bind_ret _ _ _ _ _ (Hbody i s)), IH.
    simpl. by rewrite <- app_assoc.
Qed.

Lemma open_pack_run pt draws coins s :
  open_pack pt draws coins s
  = (Ret tt,
     set_state PACK_OPENING
       (set_pack_contents (pack_card pt draws coins <$> seq 0 (pack_size pt))
          (set_pack_opening_animation_time 0
             (set_pack_type (Some pt) s)))).
Proof.
  unfold open_pack. mrun.
  assert (∀ s1, pack_contents s1 = [] →
     match pt with
     | BASIC =>
         for_each (Py.range 3) (λ i,
           append_card (Py.randint_below (draws i) (length SHAPES)))
     | PREMIUM =>
         for_each (Py.range 5) (λ i,
           if coins i then append_card 0
           else append_card (Py.randint_below (draws i) (length SHAPES)))
     | STRAIGHT => for_each (Py.range 4) (λ _, append_card 0)
     end s1
     = (Ret tt,
        set_pack_contents (pack_card pt draws coins <$> seq 0 (pack_size pt))
          s1)) as Hfill.
  { intros s1 Hs1. destruct pt; unfold Py.range.
    - by rewrite (fill_pack BASIC draws coins), Hs1.
    - rewrite (fill_pack PREMIUM draws coins), Hs1; [done|].
      intros i s2. simpl. by destruct (coins i).
    - by rewrite (fill_pack STRAIGHT draws coins), Hs1. }
  lazymatch goal with
  | |- context [(_ ≫= _) ?s1] =>
      rewrite (bind_ret _ _ _ _ _ (Hfill s1 eq_refl))
  end.
  by rewrite run_modify.
Qed.


(** ** The books of a session *)

Lemma Books_ext s s' :
  money s' = money s → round_number s' = round_number s →
  round_target s' = round_target s → level s' = level s →
  fall_speed s' = fall_speed s → lines_cleared s' = lines_cleared s →
  score s' = score s → upgrades s' = upgrades s → jokers s' = jokers s →
  piece_deck s' = piece_deck s →
  Books s → Books s'.
Proof.
  intros H1 H2 H3 H4 H5 H6 H7 H8 H9 H10 [].
  split; by rewrite ?H1, ?H2, ?H3, ?H4, ?H5, ?H6, ?H7, ?H8, ?H9, ?H10.
Qed.

Ltac books_ext := eapply Books_ext; [..|eassumption]; reflexivity.

Create HintDb books discriminated.

Ltac books_step :=
  first
    [ solve [auto with books nocore]
    | lazymatch goal with
      | |- preserves _ (mret _) => apply preserves_mret
      | |- preserves _ (raise _) => apply preserves_raise
      | |- preserves _ (gets _) => apply preserves_gets
      | |- preserves _ (lift _) => apply preserves_lift
      | |- preserves _ (mbind _ _) => apply preserves_bind; [|intros ?]
      | |- preserves _ (for_each _ _) => apply preserves_for_each; intros ?
      | |- preserves _ (modify _) =>
          apply preserves_modify; intros ? ?; try books_ext
      | |- preserves _ (modify_piece _) =>
          apply preserves_modify; intros ? ?; try books_ext
      | |- preserves _ (if ?b then _ else _) => destruct b
      | |- preserves _ (match ?x with _ => _ end) => destruct x
      | |- preserves _ (let '(_, _) := ?x in _) => destruct x
      end ].

Ltac books_auto := repeat books_step.

Lemma draw_books r : preserves Books (get_random_piece_from_deck r).
Proof.
  unfold get_random_piece_from_deck. books_auto.
  change (Z.of_nat <$> Py.range (length SHAPES)) with [0; 1; 2; 3; 4; 5; 6].
  lazymatch goal with H : Books _ |- _ => destruct H end.
  by split.
Qed.

#[global] Hint Resolve draw_books : books.

Lemma check_collision_books dx dy piece :
  preserves Books (check_collision dx dy piece).
Proof. unfold check_collision. books_auto. Qed.

#[global] Hint Resolve check_collision_books : books.

Lemma spawn_piece_books r coin : preserves Books (spawn_piece r coin).
Proof. unfold spawn_piece. books_auto. Qed.

Lemma move_books dx dy : preserves Books (move dx dy).
Proof. unfold move. books_auto. Qed.

#[global] Hint Resolve spawn_piece_books move_books : books.

Lemma try_kicks_books kicks : preserves Books (try_kicks kicks).
Proof.
  induction kicks as [|k kicks IH]; cbn [try_kicks]; books_auto.
Qed.

#[global] Hint Resolve try_kicks_books : books.

Lemma rotate_piece_books : preserves Books rotate_piece.
Proof. unfold rotate_piece. books_auto. Qed.

Lemma hold_piece_books r coin : preserves Books (hold_piece r coin).
Proof. unfold hold_piece. books_auto. Qed.

Lemma Qle_0_plus a b : (0 <= a)%Q → (0 <= b)%Q → (0 <= a + b)%Q.
Proof. intros Ha Hb. apply (Qplus_le_compat 0 a 0 b Ha Hb). Qed.

Lemma Qle_0_1_le a : (1 <= a)%Q → (0 <= a)%Q.
Proof. intros Ha. by apply (Qle_trans 0 1 a). Qed.

Lemma update_books dt : preserves Books (update dt).
Proof.
  unfold update. books_auto.
  lazymatch goal with H : Books _ |- _ => destruct H end.
  split; simpl; try done. lia.
Qed.

Lemma grid_assign_books y x v : preserves Books (grid_assign y x v).
Proof. unfold grid_assign. books_auto. Qed.

#[global] Hint Resolve grid_assign_books : books.

Lemma bomb_bonus_books :
  preserves Books
    (up ← gets upgrades;
     modify (λ s, set_score (score s + 200 * Upgrades.score_multiplier up)%Q s)).
Proof.
  intros s Hs. simpl. destruct Hs. split; simpl; try done.
  apply Qle_0_plus; [done|]. apply Qmult_le_0_compat; [done|].
  by apply Qle_0_1_le.
Qed.

Lemma explode_bomb_books bx by_ : preserves Books (explode_bomb bx by_).
Proof.
  unfold explode_bomb. apply preserves_bind; [books_auto|].
  intros _. apply bomb_bonus_books.
Qed.

#[global] Hint Resolve explode_bomb_books : books.

Lemma settle_piece_books : preserves Books settle_piece.
Proof. unfold settle_piece. books_auto. Qed.

Lemma drop_loop_books fuel : ∀ d, preserves Books (drop_loop fuel d).
Proof.
  induction fuel as [|fuel IH]; intros d; cbn [drop_loop]; books_auto.
Qed.

Lemma start_game_books r1 r2 coin : preserves Books (start_game r1 r2 coin).
Proof. unfold start_game. books_auto. Qed.

Lemma click_add_to_deck_books : preserves Books click_add_to_deck.
Proof.
  unfold click_add_to_deck. books_auto.
  lazymatch goal with H : Books _ |- _ => destruct H end.
  split; simpl; try done. by apply prefix_app_r.
Qed.

Lemma escape_books : preserves Books escape.
Proof. unfold escape. books_auto. Qed.

Lemma int_nonneg q : (0 <= q)%Q → 0 ≤ Py.int q.
Proof.
  intros Hq. unfold Py.int.
  apply Qle_bool_iff in Hq as Hb. rewrite Hb.
  apply (Qfloor_resp_le 0 q Hq).
Qed.

Lemma table_points k points :
  Py.get [0; 100; 300; 500; 800] k = Some points → 0 ≤ points.
Proof.
  intros H. apply get_Some_elem_of in H.
  repeat (apply elem_of_cons in H as [->|H]; [lia|]).
  by apply elem_of_nil in H.
Qed.

Lemma line_points_nonneg s k points :
  Books s → 0 ≤ k → 0 ≤ points → (0 <= line_points s k points)%Q.
Proof.
  intros [] Hk Hpoints. unfold line_points.
  apply Qle_0_plus.
  - apply Qmult_le_0_compat; [|by apply Qle_0_1_le].
    rewrite <- (Zle_Qle 0). etrans; [|by apply apply_jokers_ge; [|nia]]. nia.
  - rewrite <- (Zle_Qle 0). lia.
Qed.

Lemma after_clear_books s k points :
  Books s → 1 ≤ k ≤ 4 → 0 ≤ points → Books (after_clear s k points).
Proof.
  intros Hs Hk Hpoints.
  pose proof (line_points_nonneg s k points Hs) as Hlp.
  destruct Hs. unfold after_clear.
  assert (0 <= score s + inject_Z (Py.int (line_points s k points)))%Q.
  { apply Qle_0_plus; [done|]. rewrite <- (Zle_Qle 0).
    apply int_nonneg, Hlp; lia. }
  destruct (Z.geb_spec (lines_cleared s + k) (level s * 10));
    split; simpl; try done; lia.
Qed.

Lemma clear_lines_books s :
  grid_ok (grid s) → (full_count (grid s) ≤ 4)%nat →
  Books s → ∃ s', clear_lines s = (Ret tt, s') ∧ Books s'.
Proof.
  intros [Hlen _] Hfull Hs. rewrite (clear_lines_spec s Hlen).
  destruct (full_count (grid s)) as [|k] eqn:Hk; [by exists s|].
  destruct (table_lookup (S k) Hfull) as [points Hpoints].
  rewrite Hpoints. eexists. split; [done|].
  apply after_clear_books; [done|lia|by eapply table_points].
Qed.

Lemma preserves_run {A} (P : t → Prop) (m : M A) s r s' :
  preserves P m → P s → m s = (r, s') → P s'.
Proof. intros Hm Hs Hrun. specialize (Hm s Hs). by rewrite Hrun in Hm. Qed.

Lemma lock_piece_books r coin s s' :
  Inv s → is_Some (current_piece s) → Books s →
  lock_piece r coin s = (Ret tt, s') → Books s'.
Proof.
  intros Hi [p Hp] Hs. unfold lock_piece.
  destruct (settled_facts s p Hi Hp) as (Hsettle & Hok & Hfull).
  rewrite (bind_ret _ _ _ _ _ Hsettle).
  assert (Books (settled s p)) as Hs2
    by (eapply (preserves_run _ settle_piece); [apply settle_piece_books|..];
        done).
  destruct (clear_lines_books _ Hok Hfull Hs2) as (s3 & Hclear & Hs3).
  rewrite (bind_ret _ _ _ _ _ Hclear).
  intros Hrun. by eapply (preserves_run _ (spawn_piece r coin));
    [apply spawn_piece_books|..].
Qed.

Lemma hard_drop_books fuel r coin s s' :
  Inv s → Books s → hard_drop fuel r coin s = (Ret tt, s') → Books s'.
Proof.
  intros Hi Hs. unfold hard_drop. rewrite bind_gets.
  destruct (current_piece s) as [p|] eqn:Hp; [|by intros [= <-]].
  destruct (drop_loop_outcome fuel 0 s Hi) as
    [[s1 Hrun]|(d & s1 & Hrun & Hi1 & Hp1 & _)]; [by eexists| |].
  { by rewrite (bind_stop _ _ _ _ _ Hrun). }
  rewrite (bind_ret _ _ _ _ _ Hrun), bind_modify.
  pose proof (drop_loop_lands fuel 0 s p d s1 (Inv_grid_wf s Hi) Hp Hrun)
    as (Hd & _).
  assert (Books s1) as Hs1
    by (eapply (preserves_run _ (drop_loop fuel 0));
        [apply drop_loop_books|..]; done).
  apply lock_piece_books; [inv_ext|done|].
  destruct Hs1. split; simpl; try done.
  apply Qle_0_plus; [done|]. rewrite <- (Zle_Qle 0). lia.
Qed.

Lemma start_next_round_books r1 r2 coin s s' :
  Inv s → Books s → start_next_round r1 r2 coin s = (Ret tt, s') → Books s'.
Proof.
  intros Hi Hs.
  destruct (start_next_round_spec s r1 r2 coin Hi)
    as (v1 & v2 & q & deck & Hrun & Hdeck & _).
  rewrite Hrun. intros [= <-]. destruct Hs. cbn zeta.
  assert (deck = piece_deck s) as ->.
  { rewrite Hdeck. destruct (piece_deck s) eqn:E; [|done].
    by apply prefix_nil_not in books_deck0. }
  destruct (existsb _ (jokers s)); split; simpl; try done; lia.
Qed.

Lemma new_game_books r : Books (new_game r).
Proof.
  unfold new_game. rewrite reset_game_run. split; simpl; try done.
  - apply NoDup_nil_2.
  - apply list_subseteq_nil.
Qed.

Lemma click_upgrade_books k s s' :
  Books s → click_upgrade k s = (Ret tt, s') → Books s'.
Proof.
  intros Hs. rewrite click_upgrade_run. intros [= <-].
  destruct (upgrade_owned k (upgrades s)); [done|].
  destruct (Z.geb_spec (money s) (upgrade_cost k)); [|done].
  destruct Hs. split; simpl; try done; try lia.
  - destruct k; simpl; try done.
    apply (Qle_trans _ _ _ books_multiplier0).
    rewrite <- (Qplus_0_r (Upgrades.score_multiplier (upgrades s))) at 1.
    by apply Qplus_le_r.
  - destruct k; simpl; try done. lia.
Qed.

Lemma click_joker_books j s s' :
  Books s → click_joker j s = (Ret tt, s') → Books s'.
Proof.
  intros Hs. rewrite click_joker_run. intros [= <-].
  destruct (existsb _ (jokers s)) eqn:E; [done|].
  destruct (Z.geb_spec (money s) (joker_cost j)); [|done].
  destruct Hs. split; simpl; try done; try lia.
  - apply NoDup_app. split; [done|]. split; [|apply NoDup_singleton].
    intros x Hx ->%list_elem_of_singleton.
    apply joker_owned in Hx. congruence.
  - intros x [Hx| ->%list_elem_of_singleton]%elem_of_app; [by auto|].
    destruct j; [by left|right; by left|right; right; by left].
Qed.

Lemma click_pack_books pt draws coins s s' :
  Books s → click_pack pt draws coins s = (Ret tt, s') → Books s'.
Proof.
  intros Hs. unfold click_pack. rewrite bind_gets.
  destruct (Z.geb_spec (money s) (pack_cost pt)); [|by intros [= <-]].
  rewrite bind_modify, open_pack_run. intros [= <-].
  destruct Hs. split; simpl; try done. lia.
Qed.

Lemma run_command_books c s s' :
  Inv s → Books s → run_command c s = (Ret tt, s') → Books s'.
Proof.
  intros Hi Hs. destruct c; simpl.
  - apply preserves_run; [books_auto|done].
  - by apply preserves_run; [apply rotate_piece_books|].
  - by apply hard_drop_books.
  - by apply preserves_run; [apply hold_piece_books|].
  - by apply preserves_run; [apply update_books|].
  - rewrite reset_game_run. intros [= <-].
    pose proof (new_game_books r) as H. unfold new_game in H.
    by rewrite reset_game_run in H.
  - by apply preserves_run; [apply start_game_books|].
  - by apply start_next_round_books.
  - by apply click_upgrade_books.
  - by apply click_joker_books.
  - by apply click_pack_books.
  - by apply preserves_run; [apply click_add_to_deck_books|].
  - by apply preserves_run; [apply escape_books|].
Qed.

Lemma reachable_Books s : reachable s → Books s.
Proof.
  induction 1 as [r|c s s' Hreach IH Hrun]; [apply new_game_books|].
  eapply run_command_books; [by apply reachable_Inv|done..].
Qed.

(** ** What holds in every session *)

(** X17.  In every session of the game the player's money is never
    negative, rounds are numbered from one, the target of a round is a
    thousand times its number, and the score is never negative. *)
Theorem reachable_economy (s : t) :
  reachable s →
  0 ≤ money s
  ∧ 1 ≤ round_number s
  ∧ round_target s = 1000 * round_number s
  ∧ (0 <= score s)%Q.
Proof. intros Hs. by destruct (reachable_Books s Hs). Qed.

(** X18.  In every session of the game the fall interval is a function of
    the level: 500 ms at level one, 50 ms less per level, never under 100 ms.
    The line count of the round stays under ten times the level. *)
Theorem reachable_pacing (s : t) :
  reachable s →
  1 ≤ level s
  ∧ fall_speed s = Z.max 100 (500 - 50 * (level s - 1))
  ∧ 100 ≤ fall_speed s ≤ 500
  ∧ 0 ≤ lines_cleared s < 10 * level s.
Proof. intros Hs. destruct (reachable_Books s Hs). repeat split; lia. Qed.

(** X19.  In every session of the game no joker is owned twice, the jokers
    owned are among the three the shop sells, so there are at most three,
    the score multiplier is at least one and the number of bonus lines is
    not negative. *)
Theorem reachable_shop_items (s : t) :
  reachable s →
  NoDup (jokers s)
  ∧ (∀ name, name ∈ jokers s →
       name ∈ ["Double Points"; "Line Bonus"; "Level Boost"])
  ∧ (length (jokers s) ≤ 3)%nat
  ∧ (1 <= Upgrades.score_multiplier (upgrades s))%Q
  ∧ 0 ≤ Upgrades.extra_lines (upgrades s).
Proof.
  intros Hs. destruct (reachable_Books s Hs).
  split; [done|]. split; [done|]. split; [|done].
  apply (submseteq_length (jokers s)
           ["Double Points"; "Line Bonus"; "Level Boost"]).
  by apply NoDup_submseteq.
Qed.

Lemma prefix_lookup_catalog deck (i : nat) :
  [0; 1; 2; 3; 4; 5; 6] `prefix_of` deck → (i < 7)%nat →
  deck !! i = Some (Z.of_nat i) ∧ (7 ≤ length deck)%nat.
Proof.
  intros [k ->] Hi. split; [|rewrite length_app; simpl; lia].
  rewrite lookup_app_l by (simpl; lia).
  by do 7 (destruct i as [|i]; [done|]); lia.
Qed.

(** X20.  In every session of the game the deck starts with the seven
    catalog pieces (packs only add to it), so it is never empty: drawing
    never has to refill it and leaves the session as it is, the card drawn
    is a valid piece index, and every catalog piece can be drawn. *)
Theorem reachable_deck (s : t) :
  reachable s →
  [0; 1; 2; 3; 4; 5; 6] `prefix_of` piece_deck s
  ∧ piece_deck s ≠ []
  ∧ (∀ r, ∃ v, get_random_piece_from_deck r s = (Ret v, s)
               ∧ v ∈ piece_deck s ∧ shape_id_ok v)
  ∧ (∀ i, (i < 7)%nat →
       get_random_piece_from_deck i s = (Ret (Z.of_nat i), s)).
Proof.
  intros Hs. destruct (reachable_Books s Hs).
  pose proof (reachable_Inv s Hs) as Hi.
  assert (piece_deck s ≠ []) as Hne
    by (intros E; rewrite E in books_deck0; by apply prefix_nil_not in books_deck0).
  assert (∀ r v s', get_random_piece_from_deck r s = (Ret v, s') →
            s' = s ∧ v ∈ piece_deck s) as Hdraw.
  { intros r v s' Hrun. destruct (draw_spec r s) as (v' & s1 & Hrun' & Hs1 & Hv).
    rewrite Hrun in Hrun'. injection Hrun' as <- <-.
    destruct (piece_deck s) eqn:E; [done|]. subst s'. by rewrite E in Hv. }
  split; [done|]. split; [done|]. split.
  - intros r. destruct (draw_spec r s) as (v & s1 & Hrun & _).
    destruct (Hdraw r v s1 Hrun) as [-> Hv]. exists v.
    split; [done|]. split; [done|].
    pose proof (inv_deck s Hi) as Hok. rewrite Forall_forall in Hok. auto.
  - intros i Hlt.
    destruct (prefix_lookup_catalog _ i books_deck0 Hlt) as [Hlook Hlen].
    unfold get_random_piece_from_deck. rewrite bind_gets.
    destruct (piece_deck s) as [|c deck] eqn:E; [done|].
    rewrite bind_mret, bind_gets, E. unfold Py.choice.
    rewrite Nat.mod_small by lia. by rewrite Hlook.
Qed.

(** X21.  In every session of the game the current piece, if there is one,
    is a catalog shape in one of its orientations, carries a valid index,
    covers exactly four cells and lies between the side walls and above the
    floor; the index announced as next, the index held and every card of
    the deck and of the open pack are valid piece indices. *)
Theorem reachable_piece (s : t) :
  reachable s →
  (∀ p, current_piece s = Some p →
     shape_id_ok (Tetromino.shape_index p)
     ∧ Tetromino.shape p ∈ orientations
     ∧ length (Tetromino.get_cells p) = 4%nat
     ∧ Forall (λ c, 0 ≤ c.1 < GRID_WIDTH ∧ c.2 < GRID_HEIGHT)
         (Tetromino.get_cells p))
  ∧ shape_id_ok (next_piece_index s)
  ∧ (∀ h, held_piece s = Some h → shape_id_ok h)
  ∧ Forall shape_id_ok (piece_deck s)
  ∧ Forall shape_id_ok (pack_contents s).
Proof.
  intros Hs. pose proof (reachable_Inv s Hs) as Hi.
  split; [|by destruct Hi]. intros p Hp.
  destruct (inv_piece s Hi p Hp) as (Hid & Ho & Hfit).
  split; [done|]. split; [done|]. split; [|done].
  by apply orientations_four_cells.
Qed.

(** ** Four rotations in the game *)

Lemma rotate_piece_free s p :
  grid_wf (grid s) → current_piece s = Some p →
  ¬ Exists (blocked (grid s) 0 0) (Tetromino.get_cells (Tetromino.rotate p)) →
  rotate_piece s = (Ret tt, set_current_piece (Some (Tetromino.rotate p)) s).
Proof.
  intros Hwf Hp Hfree. apply collides_false_iff in Hfree; [|done].
  by destruct (rotate_piece_cases s p Hwf Hp) as (_ & H & _); apply H.
Qed.

(** X22.  If the piece is not blocked in any of its four orientations
    where it stands, four presses of the rotation key bring the session back
    to where it was; no wall kick moves the piece on the way. *)
Theorem rotate_piece_four_times (s : t) (p : Tetromino.t) (h w : nat) :
  grid_wf (grid s) → current_piece s = Some p →
  (0 < h)%nat → (0 < w)%nat → rectangular h w (Tetromino.shape p) →
  (∀ k, (k < 4)%nat →
     ¬ Exists (blocked (grid s) 0 0)
         (Tetromino.get_cells (Nat.iter k Tetromino.rotate p))) →
  (∀ k, (k ≤ 4)%nat →
     for_each (replicate k tt) (λ _, rotate_piece) s
     = (Ret tt, set_current_piece (Some (Nat.iter k Tetromino.rotate p)) s))
  ∧ for_each (replicate 4 tt) (λ _, rotate_piece) s = (Ret tt, s).
Proof.
  intros Hwf Hp Hh Hw Hsh Hfree.
  assert (∀ k q, (k ≤ 4)%nat →
            (∀ i, (i < k)%nat →
               ¬ Exists (blocked (grid s) 0 0)
                   (Tetromino.get_cells
                      (Nat.iter (S i) Tetromino.rotate q))) →
            for_each (replicate k tt) (λ _, rotate_piece)
              (set_current_piece (Some q) s)
            = (Ret tt,
               set_current_piece (Some (Nat.iter k Tetromino.rotate q)) s))
    as Hloop.
  { induction k as [|k IH]; intros q Hk Hq; [done|].
    cbn [replicate for_each].
    rewrite (bind_ret _ _ _ _ _
               (rotate_piece_free (set_current_piece (Some q) s) q Hwf
                  eq_refl (Hq 0%nat ltac:(lia)))).
    rewrite set_current_piece_twice, IH; [|lia|].
    - by rewrite Nat.iter_succ_r.
    - intros i Hi. specialize (Hq (S i) ltac:(lia)).
      by rewrite <- Nat.iter_succ_r. }
  assert (set_current_piece (Some p) s = s) as Hid
    by (by rewrite <- Hp, set_current_piece_id).
  assert (∀ k, (k ≤ 4)%nat →
            for_each (replicate k tt) (λ _, rotate_piece) s
            = (Ret tt,
               set_current_piece (Some (Nat.iter k Tetromino.rotate p)) s))
    as Hk.
  { intros k Hk. rewrite <- Hid at 1. apply Hloop; [done|].
    intros i Hi. destruct (decide (S i = 4%nat)) as [E|]; [|apply Hfree; lia].
    rewrite E, (rotate_four p h w) by done. apply (Hfree 0%nat). lia. }
  split; [done|].
  by rewrite Hk, (rotate_four p h w), Hid by done.
Qed.

(** ** Points *)

Lemma int_ge_Z q z : (inject_Z z <= q)%Q → 0 ≤ z → z ≤ Py.int q.
Proof.
  intros Hq Hz. unfold Py.int.
  assert (0 <= q)%Q as H0.
  { apply (Qle_trans _ (inject_Z z)); [|done]. by rewrite <- (Zle_Qle 0). }
  apply Qle_bool_iff in H0 as Hb. rewrite Hb.
  rewrite <- (Qfloor_Z z). by apply Qfloor_resp_le.
Qed.

Lemma line_points_ge s k points :
  Books s → 0 ≤ k → 0 ≤ points →
  (inject_Z (points * level s) <= line_points s k points)%Q.
Proof.
  intros [] Hk Hpoints. unfold line_points.
  set (J := apply_jokers (jokers s) k (points * level s)).
  assert (points * level s ≤ J) as HJ by (apply apply_jokers_ge; [done|nia]).
  assert (0 ≤ J) as HJ0 by nia.
  apply (Qle_trans _ (inject_Z J)); [by rewrite <- Zle_Qle|].
  apply (Qle_trans _ (inject_Z J * Upgrades.score_multiplier (upgrades s))).
  - rewrite <- (Qmult_1_r (inject_Z J)) at 1.
    rewrite !(Qmult_comm (inject_Z J)).
    apply Qmult_le_compat_r; [done|]. by rewrite <- (Zle_Qle 0).
  - rewrite <- (Qplus_0_r (_ * _)) at 1.
    apply Qplus_le_r. rewrite <- (Zle_Qle 0). lia.
Qed.

Lemma after_clear_score s k points :
  score (after_clear s k points)
  = (score s + inject_Z (Py.int (line_points s k points)))%Q.
Proof. unfold after_clear. by destruct (_ >=? _). Qed.

(** X23.  With the books in order, clearing one to four lines pays at
    least the table value times the level: jokers, the multiplier and the
    bonus lines only ever add to it. *)
Theorem clear_lines_pays_at_least_table (s : t) :
  Books s →
  length (grid s) = Z.to_nat GRID_HEIGHT →
  (1 ≤ full_count (grid s) ≤ 4)%nat →
  ∃ s' points,
    clear_lines s = (Ret tt, s')
    ∧ [0; 100; 300; 500; 800] !! full_count (grid s) = Some points
    ∧ (score s + inject_Z (points * level s) <= score s')%Q.
Proof.
  intros Hs Hlen Hk. rewrite (clear_lines_spec s Hlen).
  destruct (full_count (grid s)) as [|k] eqn:E; [lia|].
  destruct (table_lookup (S k) ltac:(lia)) as [points Hpoints].
  rewrite Hpoints. exists (after_clear s (Z.of_nat (S k)) points), points.
  split; [done|]. split.
  - rewrite get_in_range in Hpoints by (simpl; lia).
    by rewrite Nat2Z.id in Hpoints.
  - rewrite after_clear_score. apply Qplus_le_r. rewrite <- Zle_Qle.
    pose proof (table_points _ _ Hpoints) as Hpos.
    pose proof (books_level s Hs) as Hlvl.
    apply int_ge_Z; [|nia]. apply line_points_ge; [done|lia|done].
Qed.

(** ** The score within a round *)

Lemma preserves_score_run {A} (m : M A) s r s' :
  (∀ c, preserves (λ s, score s = c) m) → m s = (r, s') → score s' = score s.
Proof.
  intros Hm Hrun. specialize (Hm (score s) s eq_refl). by rewrite Hrun in Hm.
Qed.

Lemma check_collision_score dx dy piece c :
  preserves (λ s, score s = c) (check_collision dx dy piece).
Proof. unfold check_collision. preserves_auto. Qed.

Lemma draw_score r c :
  preserves (λ s, score s = c) (get_random_piece_from_deck r).
Proof. unfold get_random_piece_from_deck. preserves_auto. Qed.

Lemma move_score dx dy c : preserves (λ s, score s = c) (move dx dy).
Proof.
  pose proof check_collision_score. unfold move. preserves_auto.
Qed.

Lemma try_kicks_score kicks c : preserves (λ s, score s = c) (try_kicks kicks).
Proof.
  pose proof check_collision_score.
  induction kicks as [|k kicks IH]; cbn [try_kicks]; preserves_auto.
Qed.

Lemma rotate_piece_score c : preserves (λ s, score s = c) rotate_piece.
Proof.
  pose proof check_collision_score. pose proof try_kicks_score.
  unfold rotate_piece. preserves_auto.
Qed.

Lemma hold_piece_score r coin c :
  preserves (λ s, score s = c) (hold_piece r coin).
Proof.
  pose proof spawn_piece_score. unfold hold_piece. preserves_auto.
Qed.

Lemma update_score dt c : preserves (λ s, score s = c) (update dt).
Proof. pose proof move_score. unfold update. preserves_auto. Qed.

Lemma settled_score s p :
  Books s → (score s <= score (settled s p))%Q.
Proof.
  intros []. unfold settled. destruct (Tetromino.is_bomb p); simpl.
  - rewrite <- (Qplus_0_r (score s)) at 1. apply Qplus_le_r.
    apply Qmult_le_0_compat; [done|]. by apply Qle_0_1_le.
  - apply Qle_refl.
Qed.

Lemma lock_piece_score r coin s s' :
  Inv s → is_Some (current_piece s) → Books s →
  lock_piece r coin s = (Ret tt, s') → (score s <= score s')%Q.
Proof.
  intros Hi [p Hp] Hs. unfold lock_piece.
  destruct (settled_facts s p Hi Hp) as (Hsettle & Hok & Hfull).
  rewrite (bind_ret _ _ _ _ _ Hsettle).
  assert (Books (settled s p)) as Hs2
    by (eapply (preserves_run _ settle_piece); [apply settle_piece_books|..];
        done).
  destruct Hok as [Hlen Hrows]. rewrite (bind_ret _ _ _ tt
    (match full_count (grid (settled s p)) with
     | O => settled s p
     | S _ => after_clear (settled s p)
                (Z.of_nat (full_count (grid (settled s p))))
                (default 0 (Py.get [0; 100; 300; 500; 800]
                              (Z.of_nat (full_count (grid (settled s p))))))
     end)).
  2:{ rewrite (clear_lines_spec _ Hlen).
      destruct (full_count (grid (settled s p))) as [|k] eqn:E; [done|].
      destruct (table_lookup (S k) Hfull) as [points Hpoints].
      by rewrite Hpoints. }
  intros Hrun. apply (preserves_score_run _ _ _ _ (spawn_piece_score r coin))
    in Hrun. rewrite Hrun.
  apply (Qle_trans _ _ _ (settled_score s p Hs)).
  destruct (full_count (grid (settled s p))) as [|k] eqn:E; [apply Qle_refl|].
  destruct (table_lookup (S k) Hfull) as [points Hpoints].
  rewrite Hpoints. simpl default. rewrite after_clear_score.
  rewrite <- (Qplus_0_r (score (settled s p))) at 1. apply Qplus_le_r.
  rewrite <- (Zle_Qle 0). apply int_nonneg.
  apply line_points_nonneg; [done|lia|by eapply table_points].
Qed.

Lemma hard_drop_score fuel r coin s s' :
  Inv s → Books s →
  hard_drop fuel r coin s = (Ret tt, s') → (score s <= score s')%Q.
Proof.
  intros Hi Hs. unfold hard_drop. rewrite bind_gets.
  destruct (current_piece s) as [p|] eqn:Hp;
    [|intros [= <-]; apply Qle_refl].
  destruct (drop_loop_outcome fuel 0 s Hi) as
    [[s1 Hrun]|(d & s1 & Hrun & Hi1 & Hp1 & Hsc)]; [by eexists| |].
  { by rewrite (bind_stop _ _ _ _ _ Hrun). }
  rewrite (bind_ret _ _ _ _ _ Hrun), bind_modify.
  pose proof (drop_loop_lands fuel 0 s p d s1 (Inv_grid_wf s Hi) Hp Hrun)
    as (Hd & _).
  assert (Books s1) as Hs1
    by (eapply (preserves_run _ (drop_loop fuel 0));
        [apply drop_loop_books|..]; done).
  assert (0 <= inject_Z ((d - 0) * 2))%Q as Hbonus
    by (rewrite <- (Zle_Qle 0); lia).
  rewrite Z.sub_0_r in Hbonus.
  intros Hlock. apply lock_piece_score in Hlock; [|inv_ext|done|].
  - apply (Qle_trans _ (score s1 + inject_Z (d * 2))); [|done].
    rewrite Hsc. rewrite <- (Qplus_0_r (score s)) at 1. by apply Qplus_le_r.
  - destruct Hs1. split; simpl; try done. by apply Qle_0_plus.
Qed.

(** X24.  In a session of the game, no key of play and no click in the shop
    lowers the score; only a hard drop raises it. *)
Theorem score_never_drops_in_round (s s' : t) (c : command) :
  reachable s → in_round c →
  run_command c s = (Ret tt, s') →
  (score s <= score s')%Q
  ∧ (match c with HardDrop _ _ _ => False | _ => True end →
     score s' = score s).
Proof.
  intros Hreach Hc Hrun.
  pose proof (reachable_Inv s Hreach) as Hi.
  pose proof (reachable_Books s Hreach) as Hs.
  assert (score s' = score s → (score s <= score s')%Q) as Hle
    by (intros ->; apply Qle_refl).
  destruct c; simpl in Hrun, Hc; try done.
  - assert (score s' = score s) as E; [|by split; [apply Hle|]].
    apply (preserves_score_run _ _ _ _
             (λ c, preserves_bind _ _ _ (move_score dx dy c)
                     (λ _, preserves_mret _ tt)) Hrun).
  - assert (score s' = score s) as E; [|by split; [apply Hle|]].
    by apply (preserves_score_run _ _ _ _ rotate_piece_score Hrun).
  - split; [by eapply hard_drop_score|done].
  - assert (score s' = score s) as E; [|by split; [apply Hle|]].
    by apply (preserves_score_run _ _ _ _ (hold_piece_score r coin) Hrun).
  - assert (score s' = score s) as E; [|by split; [apply Hle|]].
    by apply (preserves_score_run _ _ _ _ (update_score dt) Hrun).
  - assert (score s' = score s) as E; [|by split; [apply Hle|]].
    rewrite click_upgrade_run in Hrun. injection Hrun as <-.
    destruct (upgrade_owned _ _); [done|]. by destruct (_ >=? _).
  - assert (score s' = score s) as E; [|by split; [apply Hle|]].
    rewrite click_joker_run in Hrun. injection Hrun as <-.
    destruct (existsb _ _); [done|]. by destruct (_ >=? _).
  - assert (score s' = score s) as E; [|by split; [apply Hle|]].
    unfold click_pack in Hrun. rewrite bind_gets in Hrun.
    destruct (_ >=? _); [|by injection Hrun as <-].
    rewrite bind_modify, open_pack_run in Hrun. by injection Hrun as <-.
  - assert (score s' = score s) as E; [|by split; [apply Hle|]].
    unfold click_add_to_deck in Hrun. revert Hrun. mrun. by intros [= <-].
  - assert (score s' = score s) as E; [|by split; [apply Hle|]].
    unfold escape in Hrun. rewrite bind_gets in Hrun.
    destruct (state s); by injection Hrun as <-.
Qed.

(** * The further statements at sample sessions *)

Lemma resting_session_Inv : Inv resting_session.
Proof. exact (reachable_Inv _ resting_session_reachable). Defined.

Lemma resting_session_wf : grid_wf (grid resting_session).
Proof. split; [vm_compute; reflexivity|vm_compute; repeat constructor]. Defined.

Lemma ghost_session_reachable : reachable ghost_session.
Proof.
  apply run_all_reachable; [apply reachable_new|vm_compute; reflexivity].
Defined.

(** The T shape, two rows of three. *)
Lemma rotate_four_times_identity_witness :
  rectangular 2 3 (Tetromino.shape bomb_T)
  ∧ Nat.iter 4 Tetromino.rotate bomb_T = bomb_T.
Proof.
  assert (rectangular 2 3 (Tetromino.shape bomb_T)) as Hsh
    by (split; [reflexivity|repeat constructor]).
  split; [exact Hsh|].
  exact (proj2 (proj2 (rotate_four_times_identity bomb_T 2 3
                         ltac:(lia) ltac:(lia) Hsh))).
Defined.

(** The upright I piece in column 8 of the empty board, tested two columns
    to the right. *)
Lemma check_collision_contract_witness :
  let s := session_with_piece empty_grid upright_I in
  grid_wf (grid s) ∧ check_collision 2 0 None s = (Ret true, s).
Proof.
  intros s. split; [exact empty_grid_wf|].
  destruct (check_collision_contract s 2 0 None empty_grid_wf)
    as (b & Hrun & _).
  rewrite Hrun. vm_compute in Hrun. injection Hrun as <-. reflexivity.
Defined.

(** The same piece moved one column to the left, and back. *)
Lemma move_contract_witness :
  let s := session_with_piece empty_grid upright_I in
  let s' := set_current_piece (Some (moved upright_I (-1) 0)) s in
  grid_wf (grid s)
  ∧ move (-1) 0 s = (Ret true, s')
  ∧ move 1 0 s' = (Ret true, s).
Proof.
  intros s s'. split; [exact empty_grid_wf|].
  destruct (move_contract s (-1) 0 empty_grid_wf) as [_ H].
  destruct (H upright_I eq_refl) as [_ Hfree].
  destruct Hfree as (Hmove & _ & Hback).
  - apply (collides_false_iff _ _ _ _ empty_grid_wf). vm_compute. reflexivity.
  - split; [exact Hmove|]. apply Hback.
    apply (collides_false_iff _ _ _ _ empty_grid_wf). vm_compute. reflexivity.
Defined.

(** The O piece at the top of the empty board falls eighteen rows. *)
Lemma hard_drop_lands_piece_witness :
  Inv ghost_session
  ∧ ∃ p, current_piece ghost_session = Some p
         ∧ lands (grid ghost_session) p 18
         ∧ (drop_loop 19 0 ghost_session).1 = Ret 18
         ∧ (hard_drop 18 0 false ghost_session).1 = Stop OutOfFuel.
Proof.
  pose proof (reachable_Inv _ ghost_session_reachable) as Hi.
  split; [exact Hi|].
  exists (Tetromino.mk 1 [[1; 1]; [1; 1]] YELLOW 4 0 0 false).
  assert (current_piece ghost_session
          = Some (Tetromino.mk 1 [[1; 1]; [1; 1]] YELLOW 4 0 0 false)) as Hp
    by (vm_compute; reflexivity).
  split; [exact Hp|].
  destruct (hard_drop_lands_piece ghost_session _ 0%nat false Hi Hp)
    as (d & Hl & _ & Hrun & Hshort).
  assert (d = 18) as ->.
  { pose proof Hl as (Hd & Hk & _).
    destruct (Hrun 30%nat) as [Hloop _].
    - destruct (Z.le_gt_cases d 18) as [Hle|Hgt]; [lia|].
      exfalso. apply (Hk 19); [lia|].
      apply (collides_true_iff _ _ _ _ (Inv_grid_wf _ Hi)).
      vm_compute. reflexivity.
    - vm_compute in Hloop. injection Hloop as Hd' _. exact (eq_sym Hd'). }
  split; [exact Hl|]. split.
  - destruct (Hrun 19%nat ltac:(lia)) as [-> _]. reflexivity.
  - apply Hshort. lia.
Defined.

(** The ghost of the O piece at the top of the empty board lies on the
    floor. *)
Lemma draw_grid_ghost_where_piece_lands_witness :
  Inv ghost_session
  ∧ Upgrades.ghost_piece (upgrades ghost_session) = true
  ∧ ∃ ghost,
      draw_grid_ghost 19 ghost_session = (Ret (Some ghost), ghost_session)
      ∧ Tetromino.get_cells ghost = [(4, 18); (5, 18); (4, 19); (5, 19)].
Proof.
  pose proof (reachable_Inv _ ghost_session_reachable) as Hi.
  assert (Upgrades.ghost_piece (upgrades ghost_session) = true) as Hup
    by (vm_compute; reflexivity).
  split; [exact Hi|]. split; [exact Hup|].
  assert (current_piece ghost_session
          = Some (Tetromino.mk 1 [[1; 1]; [1; 1]] YELLOW 4 0 0 false)) as Hp
    by (vm_compute; reflexivity).
  destruct (draw_grid_ghost_where_piece_lands ghost_session _ Hi Hp)
    as [_ H].
  destruct (H Hup) as (d & Hl & Hrun).
  assert (d = 18) as ->.
  { pose proof Hl as (Hd & Hk & _).
    assert (d ≤ 18) as Hle.
    { destruct (Z.le_gt_cases d 18) as [Hle|Hgt]; [exact Hle|].
      exfalso. apply (Hk 19); [lia|].
      apply (collides_true_iff _ _ _ _ (Inv_grid_wf _ Hi)).
      vm_compute. reflexivity. }
    destruct (Hrun 30%nat ltac:(lia)) as (g & _ & _ & _ & _ & _ & Hdrop).
    vm_compute in Hdrop. injection Hdrop as Hy. exact (eq_sym Hy). }
  destruct (Hrun 19%nat ltac:(lia)) as (ghost & Hghost & _ & _ & _ & Hcells & _).
  exists ghost. split; [exact Hghost|]. rewrite Hcells. reflexivity.
Defined.

(** Locking the resting O piece writes 2 into its four cells. *)
Lemma lock_piece_writes_piece_cells_witness :
  grid_wf (grid resting_session)
  ∧ current_piece resting_session = Some resting_O
  ∧ fits resting_O
  ∧ ∃ s2, settle_piece resting_session = (Ret tt, s2)
          ∧ cell (grid s2) 4 18 = Some 2
          ∧ cell (grid s2) 5 19 = Some 2
          ∧ cell (grid s2) 6 19 = Some 0.
Proof.
  assert (current_piece resting_session = Some resting_O) as Hp
    by (vm_compute; reflexivity).
  assert (fits resting_O) as Hfit
    by (unfold fits; apply (bool_decide_unpack _); vm_compute; exact I).
  split; [exact resting_session_wf|]. split; [exact Hp|].
  split; [exact Hfit|].
  destruct (lock_piece_writes_piece_cells resting_session resting_O 0%nat
              false resting_session_wf Hp Hfit eq_refl)
    as (s2 & Hrun & _ & _ & Hcells & _).
  exists s2. split; [exact Hrun|].
  rewrite !Hcells by (vm_compute; intuition discriminate).
  repeat split; vm_compute; reflexivity.
Defined.

(** Two full rows at the bottom: the second call changes nothing. *)
Lemma clear_lines_twice_witness :
  let s := session_on (board_with_full_rows 2) 1 0 in
  length (grid s) = Z.to_nat GRID_HEIGHT
  ∧ clear_lines (clear_lines s).2 = (Ret tt, (clear_lines s).2).
Proof.
  intros s. split; [reflexivity|].
  exact (proj2 (proj2 (clear_lines_twice s eq_refl))).
Defined.

(** The first piece of a new game. *)
Lemma spawn_piece_contract_witness :
  grid_wf (grid (new_game 0))
  ∧ shape_id_ok (next_piece_index (new_game 0))
  ∧ ∃ s', spawn_piece 3 false (new_game 0) = (Ret tt, s')
          ∧ current_piece s'
            = Some (Tetromino.mk 0 [[1; 1; 1; 1]] CYAN 4 0 0 false)
          ∧ game_over s' = false.
Proof.
  assert (grid_wf (grid (new_game 0))) as Hwf
    by (split; [vm_compute; reflexivity|vm_compute; repeat constructor]).
  assert (shape_id_ok (next_piece_index (new_game 0))) as Hid
    by (vm_compute; intuition discriminate).
  split; [exact Hwf|]. split; [exact Hid|].
  destruct (spawn_piece_contract (new_game 0) 3 false Hwf Hid)
    as (s' & q & sh & col & Hrun & Hsh & Hcol & Hq & Hp & _ & _ & _ & _ & _
        & _ & Hfree).
  exists s'. split; [exact Hrun|].
  vm_compute in Hsh. injection Hsh as <-.
  vm_compute in Hcol. injection Hcol as <-.
  split; [rewrite Hp, Hq; vm_compute; reflexivity|].
  apply Hfree. rewrite Hq.
  apply (collides_false_iff _ _ _ _ Hwf). vm_compute. reflexivity.
Defined.

(** A tick of half a second on the resting piece: it stays, the clock
    starts again. *)
Lemma update_one_row_per_tick_witness :
  grid_wf (grid resting_session)
  ∧ state resting_session = PLAYING
  ∧ current_piece resting_session = Some resting_O
  ∧ ∃ s', update 500 resting_session = (Ret tt, s')
          ∧ current_piece s' = Some resting_O ∧ fall_time s' = 0.
Proof.
  assert (state resting_session = PLAYING) as Hst by (vm_compute; reflexivity).
  assert (current_piece resting_session = Some resting_O) as Hp
    by (vm_compute; reflexivity).
  split; [exact resting_session_wf|]. split; [exact Hst|]. split; [exact Hp|].
  destruct (update_one_row_per_tick resting_session resting_O 500
              resting_session_wf Hst Hp)
    as (s' & Hrun & _ & _ & _ & Hstep & _).
  exists s'. split; [exact Hrun|].
  destruct Hstep as (Hft & Hhit & _); [vm_compute; discriminate|].
  split; [|exact Hft]. apply Hhit.
  apply (collides_true_iff _ _ _ _ resting_session_wf).
  vm_compute. reflexivity.
Defined.

(** Escape in the shop of round one: 150 more, and the shop again. *)
Lemma escape_from_shop_pays_again_witness :
  grid_wf (grid shop_session)
  ∧ state shop_session = SHOP
  ∧ (inject_Z (round_target shop_session) <= score shop_session)%Q
  ∧ ∃ s', (escape;; update 16) shop_session = (Ret tt, s')
          ∧ state s' = SHOP ∧ money s' = 650.
Proof.
  assert (grid_wf (grid shop_session)) as Hwf
    by (split; [vm_compute; reflexivity|vm_compute; repeat constructor]).
  assert (state shop_session = SHOP) as Hshop by (vm_compute; reflexivity).
  assert (inject_Z (round_target shop_session) <= score shop_session)%Q
    as Hq by (vm_compute; discriminate).
  split; [exact Hwf|]. split; [exact Hshop|].
  split; [exact Hq|].
  destruct (escape_from_shop_pays_again shop_session 16 Hwf Hshop Hq)
    as (s' & Hrun & Hst & Hmoney & _).
  exists s'. split; [exact Hrun|]. split; [exact Hst|].
  rewrite Hmoney. vm_compute. reflexivity.
Defined.

(** The round after the resting session. *)
Lemma start_next_round_effect_witness :
  Inv resting_session
  ∧ ∃ s', start_next_round 0 0 false resting_session = (Ret tt, s')
          ∧ round_number s' = 2 ∧ round_target s' = 2000
          ∧ level s' = 1 ∧ fall_speed s' = 500 ∧ grid s' = empty_grid.
Proof.
  split; [exact resting_session_Inv|].
  destruct (start_next_round_effect resting_session 0 0 false
              resting_session_Inv)
    as (s' & Hrun & Hround & Htarget & _ & _ & _ & Hplain & Hgrid & _).
  exists s'. split; [exact Hrun|].
  assert (round_number s' = 2) as Hr2 by (rewrite Hround; vm_compute; reflexivity).
  split; [exact Hr2|]. split; [rewrite Htarget, Hr2; reflexivity|].
  destruct Hplain as [Hl Hs].
  - vm_compute. intros H. inversion H.
  - split; [exact Hl|]. split; [exact Hs|exact Hgrid].
Defined.

(** The books of the resting session. *)
Lemma reachable_economy_witness :
  reachable resting_session
  ∧ 0 ≤ money resting_session
  ∧ round_target resting_session = 1000 * round_number resting_session.
Proof.
  split; [exact resting_session_reachable|].
  destruct (reachable_economy resting_session resting_session_reachable)
    as (Hmoney & _ & Htarget & _).
  split; [exact Hmoney|exact Htarget].
Defined.

Lemma reachable_pacing_witness :
  reachable resting_session ∧ 100 ≤ fall_speed resting_session ≤ 500.
Proof.
  split; [exact resting_session_reachable|].
  destruct (reachable_pacing resting_session resting_session_reachable)
    as (_ & _ & Hspeed & _).
  exact Hspeed.
Defined.

Lemma reachable_shop_items_witness :
  reachable ghost_session ∧ (length (jokers ghost_session) ≤ 3)%nat.
Proof.
  split; [exact ghost_session_reachable|].
  destruct (reachable_shop_items ghost_session ghost_session_reachable)
    as (_ & _ & Hlen & _).
  exact Hlen.
Defined.

Lemma reachable_deck_witness :
  reachable resting_session
  ∧ get_random_piece_from_deck 5 resting_session = (Ret 5, resting_session).
Proof.
  split; [exact resting_session_reachable|].
  destruct (reachable_deck resting_session resting_session_reachable)
    as (_ & _ & _ & Hdraw).
  exact (Hdraw 5%nat ltac:(lia)).
Defined.

Lemma reachable_piece_witness :
  reachable resting_session
  ∧ current_piece resting_session = Some resting_O
  ∧ length (Tetromino.get_cells resting_O) = 4%nat.
Proof.
  assert (current_piece resting_session = Some resting_O) as Hp
    by (vm_compute; reflexivity).
  split; [exact resting_session_reachable|]. split; [exact Hp|].
  destruct (reachable_piece resting_session resting_session_reachable)
    as (Hpiece & _).
  destruct (Hpiece resting_O Hp) as (_ & _ & Hlen & _).
  exact Hlen.
Defined.

(** The T piece in the middle of the empty board, turned four times. *)
Lemma rotate_piece_four_times_witness :
  let s := session_with_piece empty_grid bomb_T in
  grid_wf (grid s)
  ∧ current_piece s = Some bomb_T
  ∧ rectangular 2 3 (Tetromino.shape bomb_T)
  ∧ for_each (replicate 4 tt) (λ _, rotate_piece) s = (Ret tt, s).
Proof.
  intros s.
  assert (rectangular 2 3 (Tetromino.shape bomb_T)) as Hsh
    by (split; [reflexivity|repeat constructor]).
  split; [exact empty_grid_wf|]. split; [reflexivity|]. split; [exact Hsh|].
  apply (rotate_piece_four_times s bomb_T 2 3 empty_grid_wf eq_refl
           ltac:(lia) ltac:(lia) Hsh).
  intros k Hk. apply (collides_false_iff _ _ _ _ empty_grid_wf).
  do 4 (destruct k as [|k]; [vm_compute; reflexivity|]). lia.
Defined.

(** Two full rows at level one pay 300. *)
Lemma clear_lines_pays_at_least_table_witness :
  let s := session_on (board_with_full_rows 2) 1 0 in
  Books s
  ∧ length (grid s) = Z.to_nat GRID_HEIGHT
  ∧ (1 ≤ full_count (grid s) ≤ 4)%nat
  ∧ ∃ s', clear_lines s = (Ret tt, s') ∧ (score s + 300 <= score s')%Q.
Proof.
  intros s.
  assert (Books s) as Hs.
  { split.
    - vm_compute. discriminate.
    - vm_compute. discriminate.
    - vm_compute. reflexivity.
    - vm_compute. discriminate.
    - vm_compute. reflexivity.
    - vm_compute. split; [discriminate|reflexivity].
    - vm_compute. discriminate.
    - vm_compute. discriminate.
    - vm_compute. discriminate.
    - apply NoDup_nil_2.
    - apply list_subseteq_nil.
    - exists []. vm_compute. reflexivity. }
  assert (1 ≤ full_count (grid s) ≤ 4)%nat as Hk by (vm_compute; lia).
  split; [exact Hs|]. split; [reflexivity|]. split; [exact Hk|].
  destruct (clear_lines_pays_at_least_table s Hs eq_refl Hk)
    as (s' & points & Hrun & Hpoints & Hscore).
  exists s'. split; [exact Hrun|].
  vm_compute in Hpoints. injection Hpoints as <-. exact Hscore.
Defined.

(** The hard drop of the resting piece. *)
Lemma score_never_drops_in_round_witness :
  let s' := (hard_drop 1 0 false resting_session).2 in
  reachable resting_session
  ∧ run_command (HardDrop 1 0 false) resting_session = (Ret tt, s')
  ∧ (score resting_session <= score s')%Q.
Proof.
  intros s'.
  assert (run_command (HardDrop 1 0 false) resting_session = (Ret tt, s'))
    as Hrun by (vm_compute; reflexivity).
  split; [exact resting_session_reachable|]. split; [exact Hrun|].
  exact (proj1 (score_never_drops_in_round resting_session s'
                  (HardDrop 1 0 false) resting_session_reachable I Hrun)).
Defined.
